(** * news-scraper: extraction engine, pagination engine and crawl loop

    A shallow embedding of [src/scraper.js], [src/pagination.js] and of
    [NewsScheduler.runOnce] (scheduler.js), followed by the properties of the
    specification that were checked against it.

    Conventions of the embedding
    - A JavaScript string is a [string]: a sequence of code units, here the
      code units below 256.  [length], [substring], [trim] and the regular
      expressions of the source act on code units, so they are translated
      character by character.
    - A page is given in parsed form ([Cheerio.document]): the tree that
      [cheerio.load] builds, with tag and attribute names in lower case.
    - The WHATWG [URL] class is an interface ([URLApi]); every general theorem
      holds for any implementation of it.  [SimpleURL] implements the
      fragment needed to run the code on concrete pages.
    - The network is a function from the index of the request and its URL to
      the parsed page, or [None] when the request fails.
    - The clock read by [new Date().toISOString()] is an input ([now]).
    - A number is an integer ([Z] or [nat]); the numbers of the program are
      doubles, which agree with the integers below 2^53.

    The second part embeds [src/storage.js] over a model of the file system
    and the job registry, the scheduled task and [parseInterval] of
    scheduler.js, and proves further properties of the code. *)

From Stdlib Require Import String Ascii List ZArith NArith Lia Bool DecimalString.
From stdpp Require Import gmap strings.
Import ListNotations.
Local Open Scope string_scope.
Local Open Scope list_scope.

(* ================================================================== *)
(** ** JavaScript strings *)
(* ================================================================== *)

Module JS.

(** [\s] of a regular expression and the characters removed by [trim()]:
    TAB, LF, VT, FF, CR, SPACE and NBSP are the ones below 256. *)
Definition isSpace (c : ascii) : bool :=
  let n := nat_of_ascii c in
  (Nat.leb 9 n && Nat.leb n 13) || Nat.eqb n 32 || Nat.eqb n 160.

(** [\n] *)
Definition isNewline (c : ascii) : bool := Nat.eqb (nat_of_ascii c) 10.

(** [\d] *)
Definition isDigit (c : ascii) : bool :=
  let n := nat_of_ascii c in Nat.leb 48 n && Nat.leb n 57.

(** JavaScript truthiness of a string: non-empty. *)
Definition truthy (s : string) : bool :=
  match s with EmptyString => false | String _ _ => true end.

(** [x || ''] where [x] is a string or [undefined]. *)
Definition orEmpty (x : option string) : string :=
  match x with Some s => s | None => "" end.

(** [x || y] where [x] is a string or [undefined] and [y] a string. *)
Definition orElse (x : option string) (y : string) : string :=
  match x with
  | Some s => if truthy s then s else y
  | None => y
  end.

Definition startsWith (s p : string) : bool := String.prefix p s.

Fixpoint includes (s sub : string) : bool :=
  String.prefix sub s ||
  match s with
  | EmptyString => false
  | String _ r => includes r sub
  end.

Fixpoint endsWith (s suf : string) : bool :=
  String.eqb s suf ||
  match s with
  | EmptyString => false
  | String _ r => endsWith r suf
  end.

Fixpoint drop (n : nat) (s : string) : string :=
  match n, s with
  | O, _ => s
  | S _, EmptyString => EmptyString
  | S n', String _ r => drop n' r
  end.

Definition startsWithSpace (s : string) : bool :=
  match s with EmptyString => false | String c _ => isSpace c end.

Fixpoint endsWithSpace (s : string) : bool :=
  match s with
  | EmptyString => false
  | String c EmptyString => isSpace c
  | String _ r => endsWithSpace r
  end.

Fixpoint trimStart (s : string) : string :=
  match s with
  | EmptyString => EmptyString
  | String c r => if isSpace c then trimStart r else s
  end.

Fixpoint trimEnd (s : string) : string :=
  match s with
  | EmptyString => EmptyString
  | String c r =>
      let r' := trimEnd r in
      if isSpace c && negb (truthy r') then EmptyString else String c r'
  end.

Definition trim (s : string) : string := trimEnd (trimStart s).

(** [s.replace(/c+/g, ' ')] for a character class [c]: every maximal run of
    characters of the class becomes one space. *)
Fixpoint collapseRuns (cls : ascii -> bool) (s : string) : string :=
  match s with
  | EmptyString => EmptyString
  | String c r =>
      if cls c then
        match r with
        | String d _ => if cls d then collapseRuns cls r
                        else String " " (collapseRuns cls r)
        | EmptyString => String " " EmptyString
        end
      else String c (collapseRuns cls r)
  end.

(** [toLowerCase()] on code units below 256: A-Z, and the Latin-1 capitals
    0xC0-0xDE except the multiplication sign 0xD7. *)
Definition lowerChar (c : ascii) : ascii :=
  let n := nat_of_ascii c in
  if (Nat.leb 65 n && Nat.leb n 90)
     || (Nat.leb 192 n && Nat.leb n 222 && negb (Nat.eqb n 215))
  then ascii_of_nat (n + 32) else c.

Fixpoint toLowerCase (s : string) : string :=
  match s with
  | EmptyString => EmptyString
  | String c r => String (lowerChar c) (toLowerCase r)
  end.

(** Number of occurrences of a character; [s.split(c).length] is one more. *)
Fixpoint countChar (c : ascii) (s : string) : nat :=
  match s with
  | EmptyString => 0
  | String d r => (if Ascii.eqb c d then 1 else 0) + countChar c r
  end.

Definition splitLength (c : ascii) (s : string) : nat := S (countChar c s).

Fixpoint takeDigits (s : string) : string :=
  match s with
  | String c r => if isDigit c then String c (takeDigits r) else EmptyString
  | EmptyString => EmptyString
  end.

Fixpoint dropDigits (s : string) : string :=
  match s with
  | String c r => if isDigit c then dropDigits r else s
  | EmptyString => EmptyString
  end.

(** A match of the regular expression [pre\d+] anchored at the start of
    [s]: the digits matched (greedily) and what follows them. *)
Definition matchNumAt (pre s : string) : option (string * string) :=
  if String.prefix pre s then
    let t := drop (String.length pre) s in
    if truthy (takeDigits t) then Some (takeDigits t, dropDigits t) else None
  else None.

(** [s.match(/pre(\d+)/)]: the capture group of the leftmost match. *)
Fixpoint matchNum (pre s : string) : option string :=
  match matchNumAt pre s with
  | Some (ds, _) => Some ds
  | None =>
      match s with
      | EmptyString => None
      | String _ r => matchNum pre r
      end
  end.

(** [s.replace(/pre\d+/, repl)]: the leftmost match only (no [g] flag). *)
Fixpoint replaceNum (pre repl s : string) : string :=
  match matchNumAt pre s with
  | Some (_, rest) => repl +:+ rest
  | None =>
      match s with
      | EmptyString => EmptyString
      | String c r => String c (replaceNum pre repl r)
      end
  end.

(** [s.replace(/\/$/, '')]: one trailing slash is removed. *)
Fixpoint stripTrailingSlash (s : string) : string :=
  match s with
  | EmptyString => EmptyString
  | String c r =>
      match r with
      | EmptyString => if Ascii.eqb c "/" then EmptyString else s
      | String _ _ => String c (stripTrailingSlash r)
      end
  end.

(** A test of [/\/\d{4}\/\d{2}\//] anchored at the start of [s]. *)
Definition dateSegmentAt (s : string) : bool :=
  match s with
  | String s0 (String y1 (String y2 (String y3 (String y4
      (String s1 (String m1 (String m2 (String s2 _)))))))) =>
      Ascii.eqb s0 "/" && isDigit y1 && isDigit y2 && isDigit y3 && isDigit y4
      && Ascii.eqb s1 "/" && isDigit m1 && isDigit m2 && Ascii.eqb s2 "/"
  | _ => false
  end.

(** [/\/\d{4}\/\d{2}\//.test(s)] *)
Fixpoint hasDateSegment (s : string) : bool :=
  dateSegmentAt s ||
  match s with
  | EmptyString => false
  | String _ r => hasDateSegment r
  end.

(** *** Numbers

    The numbers of the source are page numbers.  They are exact integers
    here ([Z]); a JavaScript number is exact up to 2^53.  [NaN] is [None]. *)

Definition isHexDigit (c : ascii) : bool :=
  let n := nat_of_ascii c in
  isDigit c || (Nat.leb 65 n && Nat.leb n 70) || (Nat.leb 97 n && Nat.leb n 102).

Definition hexValue (c : ascii) : Z :=
  let n := nat_of_ascii c in
  if isDigit c then Z.of_nat (n - 48)
  else if Nat.leb 97 n then Z.of_nat (n - 87) else Z.of_nat (n - 55).

Fixpoint takeWhile (p : ascii -> bool) (s : string) : string :=
  match s with
  | String c r => if p c then String c (takeWhile p r) else EmptyString
  | EmptyString => EmptyString
  end.

Fixpoint allOf (p : ascii -> bool) (s : string) : bool :=
  match s with
  | EmptyString => true
  | String c r => p c && allOf p r
  end.

Fixpoint digitsValue (radix : Z) (acc : Z) (s : string) : Z :=
  match s with
  | EmptyString => acc
  | String c r => digitsValue radix (radix * acc + hexValue c)%Z r
  end.

Definition stripSign (s : string) : string :=
  match s with
  | String c r => if Ascii.eqb c "+" || Ascii.eqb c "-" then r else s
  | EmptyString => s
  end.

(** [parseInt(s)] without a radix: leading white space, a sign, [0x] for
    base 16, then the longest run of digits. *)
Definition parseInt (s : string) : option Z :=
  let t := trimStart s in
  let negative := String.prefix "-" t in
  let t1 := stripSign t in
  let hex := String.prefix "0x" t1 || String.prefix "0X" t1 in
  let ds := if hex then takeWhile isHexDigit (drop 2 t1) else takeWhile isDigit t1 in
  if truthy ds then
    let v := digitsValue (if hex then 16 else 10) 0 ds in
    Some (if negative then (- v)%Z else v)
  else None.

(** An optional exponent part: nothing, or [e]/[E], a sign, digits. *)
Definition isExponentOpt (s : string) : bool :=
  match s with
  | EmptyString => true
  | String c r =>
      (Ascii.eqb c "e" || Ascii.eqb c "E")
      && truthy (stripSign r) && allOf isDigit (stripSign r)
  end.

(** An unsigned decimal literal of the string-to-number grammar. *)
Definition isDecimalLiteral (s : string) : bool :=
  String.eqb s "Infinity" ||
  match dropDigits s with
  | String c r =>
      if Ascii.eqb c "." then
        (truthy (takeDigits s) || truthy (takeDigits r)) && isExponentOpt (dropDigits r)
      else truthy (takeDigits s) && isExponentOpt (dropDigits s)
  | EmptyString => truthy (takeDigits s)
  end.

(** A binary, octal or hexadecimal literal of that grammar. *)
Definition isNonDecimalLiteral (s : string) : bool :=
  match s with
  | String z (String x r) =>
      Ascii.eqb z "0" && truthy r &&
      (((Ascii.eqb x "x" || Ascii.eqb x "X") && allOf isHexDigit r)
       || ((Ascii.eqb x "o" || Ascii.eqb x "O")
           && allOf (fun c => isDigit c && Nat.leb (nat_of_ascii c) 55) r)
       || ((Ascii.eqb x "b" || Ascii.eqb x "B")
           && allOf (fun c => Ascii.eqb c "0" || Ascii.eqb c "1") r))
  | _ => false
  end.

(** [isNaN(s)] on a string: it is converted to a number first; the empty
    string and white space convert to 0. *)
Definition isNaN (s : string) : bool :=
  let t := trim s in
  negb (negb (truthy t) || isDecimalLiteral (stripSign t) || isNonDecimalLiteral t).

(** Decimal rendering of an integer inside a template literal. *)
Definition numToString (z : Z) : string :=
  NilEmpty.string_of_int (Z.to_int z).

End JS.

(* ================================================================== *)
(** ** The URL class *)
(* ================================================================== *)

Module Url.

(** The properties of a [URL] object that the source reads. *)
Record URL := mkURL {
  href : string;
  hostname : string;
  pathname : string;
  search : string
}.

(** [new URL(input)] is [newURL input None] and [new URL(input, base)] is
    [newURL input (Some base)]; [None] stands for the [TypeError] thrown on
    an input that does not parse. *)
Class URLApi := { newURL : string -> option string -> option URL }.

(** *** A small implementation

    [SimpleURL] parses [http://host/path?query#fragment] and
    [https://...] written in characters that the WHATWG parser leaves as
    they are (lower-case host ending in an alphabetic label, no dot
    segments, no escapes, no credentials or port), and resolves an
    absolute-path reference against such a base.  On these inputs it
    agrees with the URL class; everything else is reported as a failure,
    which the URL class does not always do.  It serves to run the code on
    the sample pages; no general theorem depends on it. *)

Fixpoint splitWhere (p : ascii -> bool) (s : string) : string * string :=
  match s with
  | EmptyString => (EmptyString, EmptyString)
  | String c r =>
      if p c then (EmptyString, s)
      else let (a, b) := splitWhere p r in (String c a, b)
  end.

Fixpoint allChars (p : ascii -> bool) (s : string) : bool :=
  match s with
  | EmptyString => true
  | String c r => p c && allChars p r
  end.

Definition isLower (c : ascii) : bool :=
  let n := nat_of_ascii c in Nat.leb 97 n && Nat.leb n 122.

Definition isUpper (c : ascii) : bool :=
  let n := nat_of_ascii c in Nat.leb 65 n && Nat.leb n 90.

Definition oneOf (cs : string) (c : ascii) : bool :=
  negb (Nat.eqb (JS.countChar c cs) 0).

Definition hostChar (c : ascii) : bool :=
  isLower c || JS.isDigit c || oneOf ".-" c.

Definition plainChar (c : ascii) : bool :=
  isLower c || isUpper c || JS.isDigit c || oneOf "-_./=&~" c.

Fixpoint lastLabel (s : string) : string :=
  match s with
  | EmptyString => EmptyString
  | String c r =>
      if JS.includes r "." then lastLabel r
      else if Ascii.eqb c "." then r else s
  end.

Definition splitScheme (s : string) : option (string * string) :=
  if String.prefix "http://" s then Some ("http://", JS.drop 7 s)
  else if String.prefix "https://" s then Some ("https://", JS.drop 8 s)
  else None.

(** The scheme with the host, and the parsed URL. *)
Definition parseAbsolute (s : string) : option (string * URL) :=
  match splitScheme s with
  | None => None
  | Some (scheme, rest) =>
      let (host, r1) := splitWhere (oneOf "/?#") rest in
      let (path, r2) := splitWhere (oneOf "?#") r1 in
      let (query, frag) := splitWhere (oneOf "#") r2 in
      if JS.truthy host && allChars hostChar host
         && negb (JS.includes host "xn--")
         && JS.truthy (lastLabel host) && allChars isLower (lastLabel host)
         && allChars plainChar path && negb (JS.includes path "/.")
         && allChars plainChar (JS.drop 1 query)
         && allChars plainChar (JS.drop 1 frag)
      then
        let path' := if JS.truthy path then path else "/" in
        Some (scheme +:+ host,
              {| href := scheme +:+ host +:+ path' +:+ query +:+ frag;
                 hostname := host;
                 pathname := path';
                 search := if String.eqb query "?" then "" else query |})
      else None
  end.

Definition simpleNewURL (input : string) (base : option string) : option URL :=
  match base with
  | None => option_map snd (parseAbsolute input)
  | Some b =>
      match parseAbsolute b with
      | None => None
      | Some (origin, _) =>
          match parseAbsolute input with
          | Some (_, u) => Some u
          | None =>
              if JS.startsWith input "/" && negb (JS.startsWith input "//")
              then option_map snd (parseAbsolute (origin +:+ input))
              else None
          end
      end
  end.

Definition SimpleURL : URLApi := {| newURL := simpleNewURL |}.

End Url.

(* ================================================================== *)
(** ** Documents and Cheerio selections *)
(* ================================================================== *)

Module Cheerio.

(** A parsed page: text nodes and elements with their attributes (in
    source order, names in lower case) and children. *)
#[warnings="-register-all"]
Inductive node :=
| Text (data : string)
| Element (tag : string) (attribs : list (string * string)) (children : list node).

Definition document := list node.

(** A Cheerio object: the selected elements, in document order. *)
Definition selection := list node.

(** The selectors used by the source: compound selectors made of a tag, a
    class, and attribute tests; descendant combinators; comma lists. *)
Inductive simple :=
| Tag (name : string)                 (* article *)
| Class (name : string)               (* .story *)
| HasAttr (name : string)             (* [href] *)
| AttrEq (name value : string)        (* [rel="next"] *)
| AttrContains (name value : string). (* [class*="news"] *)

Definition compound := list simple.
(** A descendant chain, outermost ancestor first, subject last. *)
Definition complex := list compound.
Definition selector := list complex.

Fixpoint lookupAttr (name : string) (attribs : list (string * string)) : option string :=
  match attribs with
  | [] => None
  | (k, v) :: rest => if String.eqb k name then Some v else lookupAttr name rest
  end.

(** The tokens of an attribute value; the selector engine separates them
    at [\s]. *)
Fixpoint tokensFrom (cur : string) (s : string) : list string :=
  match s with
  | EmptyString => if JS.truthy cur then [cur] else []
  | String c r =>
      if JS.isSpace c
      then (if JS.truthy cur then [cur] else []) ++ tokensFrom EmptyString r
      else tokensFrom (cur +:+ String c EmptyString) r
  end.

Definition tokens (s : string) : list string := tokensFrom EmptyString s.

(** The attributes whose values are compared without regard to case in an
    HTML document. *)
Definition caseInsensitiveAttributes : list string := [
  "accept"; "accept-charset"; "align"; "alink"; "axis"; "bgcolor"; "charset";
  "checked"; "clear"; "codetype"; "color"; "compact"; "declare"; "defer";
  "dir"; "direction"; "disabled"; "enctype"; "face"; "frame"; "hreflang";
  "http-equiv"; "lang"; "language"; "link"; "media"; "method"; "multiple";
  "nohref"; "noresize"; "noshade"; "nowrap"; "readonly"; "rel"; "rev";
  "rules"; "scope"; "scrolling"; "selected"; "shape"; "target"; "text";
  "type"; "valign"; "valuetype"; "vlink"
].

Definition foldCase (name value : string) : string :=
  if existsb (String.eqb name) caseInsensitiveAttributes
  then JS.toLowerCase value else value.

Definition matchesSimple (s : simple) (n : node) : bool :=
  match n with
  | Text _ => false
  | Element tag attribs _ =>
      match s with
      | Tag name => String.eqb tag name
      | Class name =>
          match lookupAttr "class" attribs with
          | Some v => existsb (String.eqb name) (tokens v)
          | None => false
          end
      | HasAttr name =>
          match lookupAttr name attribs with Some _ => true | None => false end
      | AttrEq name value =>
          match lookupAttr name attribs with
          | Some v => String.eqb (foldCase name v) (foldCase name value)
          | None => false
          end
      | AttrContains name value =>
          match lookupAttr name attribs with
          | Some v => JS.includes (foldCase name v) (foldCase name value)
          | None => false
          end
      end
  end.

Definition matchesCompound (c : compound) (n : node) : bool :=
  forallb (fun s => matchesSimple s n) c.

(** The ancestors of the subject, nearest first, must contain matches of
    the rest of the chain (innermost first), in order. *)
Fixpoint matchesAncestors (chain : list compound) (ancestors : list node) : bool :=
  match chain with
  | [] => true
  | c :: chain' =>
      (fix look (l : list node) : bool :=
         match l with
         | [] => false
         | a :: l' =>
             if matchesCompound c a then matchesAncestors chain' l'
             else look l'
         end) ancestors
  end.

Definition matchesComplex (cx : complex) (ancestors : list node) (n : node) : bool :=
  match rev cx with
  | [] => false
  | subject :: outer => matchesCompound subject n && matchesAncestors outer ancestors
  end.

Definition matchesSelector (sel : selector) (ancestors : list node) (n : node) : bool :=
  existsb (fun cx => matchesComplex cx ancestors n) sel.

(** The elements of a subtree that match, in document order. *)
Fixpoint selectIn (sel : selector) (ancestors : list node) (n : node) : selection :=
  match n with
  | Text _ => []
  | Element _ _ children =>
      (if matchesSelector sel ancestors n then [n] else [])
      ++ flat_map (selectIn sel (n :: ancestors)) children
  end.

(** [$(selector)] *)
Definition select (doc : document) (sel : selector) : selection :=
  flat_map (selectIn sel []) doc.

(** [$el.find(selector)]: the matching descendants of the selected
    elements.  The source calls it with compound selectors only, for which
    the ancestors play no part. *)
Definition find (sel : selector) (s : selection) : selection :=
  flat_map (fun n =>
    match n with
    | Text _ => []
    | Element _ _ children => flat_map (selectIn sel [n]) children
    end) s.

(** [.first()] *)
Definition first (s : selection) : selection := firstn 1 s.

(** [.length] as a condition *)
Definition nonEmpty (s : selection) : bool :=
  match s with [] => false | _ :: _ => true end.

(** A Cheerio object is a JavaScript object, and every object is truthy,
    an empty selection too. *)
Definition truthyObject (s : selection) : bool := true.

(** [a || b] on Cheerio objects. *)
Definition orSel (a b : selection) : selection := if truthyObject a then a else b.

(** [.attr(name)]: the attribute of the first selected element, or
    [undefined]. *)
Definition attr (name : string) (s : selection) : option string :=
  match s with
  | Element _ attribs _ :: _ => lookupAttr name attribs
  | _ => None
  end.

Fixpoint nodeText (n : node) : string :=
  match n with
  | Text data => data
  | Element _ _ children =>
      fold_right (fun c acc => nodeText c +:+ acc) EmptyString children
  end.

(** [.text()]: the text of all selected elements and their descendants. *)
Definition text (s : selection) : string :=
  fold_right (fun n acc => nodeText n +:+ acc) EmptyString s.

(** Selector literals. *)
Definition tag (name : string) : selector := [[[Tag name]]].
Definition cls (name : string) : selector := [[[Class name]]].
Definition hasAttr (name : string) : selector := [[[HasAttr name]]].
Definition attrContains (name value : string) : selector := [[[AttrContains name value]]].
Definition tagCls (t c : string) : selector := [[[Tag t; Class c]]].

End Cheerio.

(* ================================================================== *)
(** ** Exceptions *)
(* ================================================================== *)

(** The outcome of a call that may throw: a value, or the message of the
    [Error] thrown. *)
Inductive Js (A : Type) :=
| Return (a : A)
| Throw (message : string).
Arguments Return {A} a.
Arguments Throw {A} message.

Definition bind {A B : Type} (m : Js A) (k : A -> Js B) : Js B :=
  match m with
  | Return a => k a
  | Throw e => Throw e
  end.

(** [try { m } catch (error) { handler(error.message) }] *)
Definition tryCatch {A : Type} (m : Js A) (handler : string -> Js A) : Js A :=
  match m with
  | Return a => Return a
  | Throw e => handler e
  end.

Notation "'let*' x ':=' m 'in' k" := (bind m (fun x => k))
  (at level 10, x name, m at level 100, k at level 200).

(** The network: the answer to the [n]-th request of a run, made to the
    given URL.  [Throw] is a network error, a timeout or a status outside
    2xx, as [axios.get] reports them. *)
Definition Web := nat -> string -> Js Cheerio.document.

(* ================================================================== *)
(** ** scraper.js *)
(* ================================================================== *)

Module NewsScraper.
Import JS Cheerio Url.

Record Article := mkArticle {
  title : string;
  url : string;
  description : string;
  image : string;
  date : string;
  author : string;
  scrapedAt : string
}.

Definition selectors : list selector := [
  tag "article";
  attrContains "class" "article";
  attrContains "class" "news";
  attrContains "class" "post";
  attrContains "id" "article";
  attrContains "id" "news";
  attrContains "id" "post";
  cls "news-item";
  cls "story";
  cls "entry";
  cls "card";
  cls "item";
  tagCls "article" "article";
  tagCls "article" "post";
  tagCls "article" "story"
].

Definition titleSelectors : list selector := [
  tag "h1"; tag "h2"; tag "h3"; tag "h4";
  attrContains "class" "title";
  attrContains "class" "headline";
  cls "entry-title";
  [[[Tag "a"; HasAttr "title"]]]
].

Definition linkSelectors : list selector := [
  [[[Tag "a"; HasAttr "href"]]];
  hasAttr "href";
  tag "link"
].

Definition descSelectors : list selector := [
  tag "p";
  attrContains "class" "excerpt";
  attrContains "class" "summary";
  attrContains "class" "description";
  cls "entry-summary"
].

Definition skipClasses : list string :=
  ["nav"; "menu"; "footer"; "header"; "sidebar"; "comment"].

Definition articlePatterns : list (string -> bool) := [
  (fun s => includes s "/news/");
  (fun s => includes s "/article/");
  (fun s => includes s "/story/");
  (fun s => includes s "/post/");
  hasDateSegment;
  (fun s => includes s "-article-");
  (fun s => includes s "-news-")
].

Definition skipPatterns : list (string -> bool) := [
  (fun s => includes s "/category/");
  (fun s => includes s "/tag/");
  (fun s => includes s "/author/");
  (fun s => includes s "/page/");
  (fun s => endsWith s ".pdf");
  (fun s => endsWith s ".jpg");
  (fun s => endsWith s ".png");
  (fun s => endsWith s ".gif")
].

Definition looksLikeArticleUrl (url : string) : bool :=
  let urlLower := toLowerCase url in
  if existsb (fun pattern => pattern urlLower) skipPatterns then false
  else existsb (fun pattern => pattern urlLower) articlePatterns
       || Nat.leb 4 (splitLength "/" urlLower).

Definition cleanText (text : string) : string :=
  if negb (truthy text) then ""
  else trim (collapseRuns isNewline (collapseRuns isSpace text)).

Section WithURL.
Context {U : URLApi}.

(** The clock. *)
Variable now : string.

Definition isValidUrl (url : string) : bool :=
  match newURL url None with
  | Some _ => startsWith url "http://" || startsWith url "https://"
  | None => false
  end.

(** The title loop: [title] is assigned at every selector that finds an
    element, and the loop is left at the first non-empty one. *)
Fixpoint findTitle (sels : list selector) (title : string) (article : selection) : string :=
  match sels with
  | [] => title
  | sel :: rest =>
      let titleEl := first (find sel article) in
      if nonEmpty titleEl then
        let title := trim (text titleEl) in
        if truthy title then title else findTitle rest title article
      else findTitle rest title article
  end.

(** The link loop: a [href] that does not resolve stays in [url] while the
    next selector is tried. *)
Fixpoint findUrl (sels : list selector) (url : string) (article : selection)
    (baseUrl : string) : string :=
  match sels with
  | [] => url
  | sel :: rest =>
      let linkEl := first (find sel article) in
      if nonEmpty linkEl then
        let url := orElse (attr "href" linkEl) "" in
        if truthy url then
          match newURL url (Some baseUrl) with
          | Some u => href u
          | None => findUrl rest url article baseUrl
          end
        else findUrl rest url article baseUrl
      else findUrl rest url article baseUrl
  end.

(** The description loop: [description] is assigned before its length is
    tested. *)
Fixpoint findDescription (sels : list selector) (description : string)
    (article : selection) : string :=
  match sels with
  | [] => description
  | sel :: rest =>
      let descEl := first (find sel article) in
      if nonEmpty descEl then
        let description := trim (text descEl) in
        if truthy description && Nat.ltb 20 (String.length description)
        then substring 0 500 description
        else findDescription rest description article
      else findDescription rest description article
  end.

Definition findImage (article : selection) (baseUrl : string) : string :=
  let imageEl := first (find (tag "img") article) in
  if nonEmpty imageEl then
    let image := orElse (attr "src" imageEl) (orElse (attr "data-src" imageEl) "") in
    if truthy image then
      match newURL image (Some baseUrl) with
      | Some u => href u
      | None => ""
      end
    else image
  else "".

Definition findDate (article : selection) : string :=
  let dateEl :=
    orSel (first (find (tag "time") article))
      (orSel (first (find (hasAttr "datetime") article))
             (first (find (attrContains "class" "date") article))) in
  if nonEmpty dateEl
  then orElse (attr "datetime" dateEl) (orElse (Some (trim (text dateEl))) "")
  else "".

Definition findAuthor (article : selection) : string :=
  let authorEl :=
    orSel (first (find (attrContains "class" "author") article))
          (first (find (attrContains "rel" "author") article)) in
  if nonEmpty authorEl
  then orElse (Some (trim (text authorEl))) ""
  else "".

Definition parseArticle (article : selection) (baseUrl : string) : option Article :=
  let title := findTitle titleSelectors "" article in
  let url := findUrl linkSelectors "" article baseUrl in
  let description := findDescription descSelectors "" article in
  let image := findImage article baseUrl in
  let date := findDate article in
  let author := findAuthor article in
  if truthy title && truthy url && isValidUrl url then
    Some {| title := cleanText title;
            url := url;
            description := cleanText description;
            image := image;
            date := date;
            author := author;
            scrapedAt := now |}
  else None.

(** The callback of [$('a[href]').each] in [extractFromLinks]. *)
Definition harvestLink (baseUrl : string) (articles : list Article) (element : node)
    : list Article :=
  let link := [element] in
  let href := attr "href" link in
  let text := trim (text link) in
  if negb (truthy text) || Nat.ltb (String.length text) 15
     || Nat.ltb 200 (String.length text)
  then articles
  else
    let className := toLowerCase (orElse (attr "class" link) "") in
    if existsb (fun skip => includes className skip) skipClasses then articles
    else
      match newURL (orEmpty href) (Some baseUrl) with
      | Some u =>
          let url := Url.href u in
          if isValidUrl url && looksLikeArticleUrl url then
            articles ++ [ {| title := cleanText text;
                             url := url;
                             description := "";
                             image := "";
                             date := "";
                             author := "";
                             scrapedAt := now |} ]
          else articles
      | None => articles
      end.

Definition extractFromLinks (doc : document) (baseUrl : string) : list Article :=
  let articles :=
    fold_left (harvestLink baseUrl) (select doc [[[Tag "a"; HasAttr "href"]]]) [] in
  firstn 50 articles.

(** The callback of [elements.each] in [extractArticles], on the pair of
    [articles] and [seenUrls]. *)
Definition acceptArticle (baseUrl : string) (st : list Article * gset string)
    (element : node) : list Article * gset string :=
  let '(articles, seenUrls) := st in
  match parseArticle [element] baseUrl with
  | Some article =>
      if truthy (title article) && truthy (url article)
         && negb (bool_decide (url article ∈ seenUrls))
      then (articles ++ [article], {[url article]} ∪ seenUrls)
      else st
  | None => st
  end.

(** The loop over the container selectors, left after the first selector
    that leaves [articles] non-empty. *)
Fixpoint trySelectors (sels : list selector) (doc : document) (baseUrl : string)
    (st : list Article * gset string) : list Article * gset string :=
  match sels with
  | [] => st
  | sel :: rest =>
      let st' := fold_left (acceptArticle baseUrl) (select doc sel) st in
      if Nat.ltb 0 (length (fst st')) then st'
      else trySelectors rest doc baseUrl st'
  end.

(** [extractArticles] with the list of container selectors as a parameter. *)
Definition extractArticlesWith (sels : list selector) (doc : document)
    (baseUrl : string) : list Article :=
  let '(articles, _) := trySelectors sels doc baseUrl ([], ∅) in
  if Nat.eqb (length articles) 0
  then articles ++ extractFromLinks doc baseUrl
  else articles.

Definition extractArticles (doc : document) (baseUrl : string) : list Article :=
  extractArticlesWith selectors doc baseUrl.

(** [axios.get] as the [n]-th request of the run. *)
Definition axiosGet (web : Web) (n : nat) (url : string) : Js document := web n url.

Definition scrapeWithCheerio (web : Web) (n : nat) (url : string) : Js (list Article) :=
  tryCatch
    (let* doc := axiosGet web n url in
     Return (extractArticles doc url))
    (fun _ => Return []).

Definition scrapeNews (web : Web) (n : nat) (url : string) : Js (list Article) :=
  tryCatch
    (let* articles := scrapeWithCheerio web n url in
     Return articles)
    (fun message => Throw ("Scraping failed: " +:+ message)).

End WithURL.
End NewsScraper.

(* ================================================================== *)
(** ** pagination.js *)
(* ================================================================== *)

Module PaginationHandler.
Import JS Cheerio Url NewsScraper.

Record Options := mkOptions {
  maxPages : nat;
  delayBetweenPages : nat;
  sameDomainOnly : bool
}.

(** [this.options] of the constructor. *)
Definition defaultOptions : Options :=
  {| maxPages := 5; delayBetweenPages := 1000; sameDomainOnly := true |}.

(** The [options] argument: any of the fields may be absent. *)
Record CustomOptions := mkCustom {
  customMaxPages : option nat;
  customDelayBetweenPages : option nat;
  customSameDomainOnly : option bool
}.

(** [{ ...this.options, ...options }] *)
Definition mergeOptions (base : Options) (custom : CustomOptions) : Options :=
  {| maxPages := default (maxPages base) (customMaxPages custom);
     delayBetweenPages := default (delayBetweenPages base) (customDelayBetweenPages custom);
     sameDomainOnly := default (sameDomainOnly base) (customSameDomainOnly custom) |}.

Definition nextSelectors : list selector := [
  [[[Tag "a"; Class "next"]]];
  [[[Tag "a"; AttrEq "rel" "next"]]];
  [[[Class "pagination"]; [Tag "a"; Class "next"]]];
  [[[Class "pagination"]; [Class "next"]]];
  [[[AttrContains "class" "pagination"]; [Tag "a"; AttrContains "class" "next"]]];
  [[[AttrContains "class" "paging"]; [Tag "a"; AttrContains "class" "next"]]]
].

(** ['[class*="pagination"] a, [class*="paging"] a'] *)
Definition pageLinkSelector : selector := [
  [[AttrContains "class" "pagination"]; [Tag "a"]];
  [[AttrContains "class" "paging"]; [Tag "a"]]
].

Definition pagePatterns : list string := ["/page/"; "?page="; "&page="; "/p/"].

Fixpoint firstPageMatch (patterns : list string) (url : string) : option string :=
  match patterns with
  | [] => None
  | pattern :: rest =>
      match matchNum pattern url with
      | Some digits => Some digits
      | None => firstPageMatch rest url
      end
  end.

Definition extractPageNumber (url : string) : Z :=
  match firstPageMatch pagePatterns url with
  | Some digits => default 1%Z (parseInt digits)
  | None => 1%Z
  end.

(** [!nextPageUrl] on a string or [null]. *)
Definition falsy (x : option string) : bool := negb (truthy (orEmpty x)).

Section WithURL.
Context {U : URLApi}.
Variable now : string.

(** Strategy 1: the loop over [nextSelectors]. *)
Fixpoint explicitNext (sels : list selector) (doc : document) (currentUrl : string)
    : option string :=
  match sels with
  | [] => None
  | sel :: rest =>
      let link := select doc sel in
      if nonEmpty link && truthy (orEmpty (attr "href" link)) then
        let href := orEmpty (attr "href" link) in
        if truthy href && negb (includes href "javascript:") then
          match newURL href (Some currentUrl) with
          | Some u => Some (Url.href u)
          | None => explicitNext rest doc currentUrl
          end
        else explicitNext rest doc currentUrl
      else explicitNext rest doc currentUrl
  end.

(** Strategy 2: the callback that fills [pageLinks]. *)
Definition collectPageLink (currentUrl : string) (pageLinks : list (string * option Z))
    (el : node) : list (string * option Z) :=
  let href := orEmpty (attr "href" [el]) in
  let text := trim (text [el]) in
  if truthy href && negb (isNaN text) then
    match newURL href (Some currentUrl) with
    | Some u => pageLinks ++ [(Url.href u, parseInt text)]
    | None => pageLinks
    end
  else pageLinks.

(** [l.page > currentPageNum]; a comparison with [NaN] is false. *)
Definition laterPage (currentPageNum : Z) (l : string * option Z) : option (string * Z) :=
  match snd l with
  | Some page => if Z.ltb currentPageNum page then Some (fst l, page) else None
  | None => None
  end.

(** [sort((a, b) => a.page - b.page)]: ascending and stable. *)
Fixpoint insertByPage (x : string * Z) (l : list (string * Z)) : list (string * Z) :=
  match l with
  | [] => [x]
  | y :: l' => if Z.leb (snd x) (snd y) then x :: l else y :: insertByPage x l'
  end.

Definition sortByPage (l : list (string * Z)) : list (string * Z) :=
  fold_right insertByPage [] l.

Definition numberedNext (doc : document) (currentUrl : string) : option string :=
  let currentPageNum := extractPageNumber currentUrl in
  let pageLinks := fold_left (collectPageLink currentUrl) (select doc pageLinkSelector) [] in
  let sortedLinks := sortByPage (omap (laterPage currentPageNum) pageLinks) in
  match sortedLinks with
  | l :: _ => Some (fst l)
  | [] => None
  end.

(** Strategy 3: the candidate URLs, in the order of the source. *)
Definition patterns (currentUrl : string) : list string :=
  let nextPageNum := numToString (extractPageNumber currentUrl + 1) in
  [ replaceNum "/page/" ("/page/" +:+ nextPageNum) currentUrl;
    replaceNum "?page=" ("?page=" +:+ nextPageNum) currentUrl;
    replaceNum "&page=" ("&page=" +:+ nextPageNum) currentUrl;
    replaceNum "/p/" ("/p/" +:+ nextPageNum) currentUrl;
    stripTrailingSlash currentUrl +:+ "/page/" +:+ nextPageNum;
    currentUrl +:+ "?page=" +:+ nextPageNum ].

Fixpoint firstChanged (candidates : list string) (currentUrl : string) : option string :=
  match candidates with
  | [] => None
  | pattern :: rest =>
      if negb (String.eqb pattern currentUrl) then Some pattern
      else firstChanged rest currentUrl
  end.

(** The body of [findNextPage] once the page is loaded. *)
Definition discoverNext (doc : document) (currentUrl : string) : option string :=
  let nextPageUrl := explicitNext nextSelectors doc currentUrl in
  let nextPageUrl :=
    if falsy nextPageUrl then
      match numberedNext doc currentUrl with
      | Some u => Some u
      | None => nextPageUrl
      end
    else nextPageUrl in
  let nextPageUrl :=
    if falsy nextPageUrl then
      match firstChanged (patterns currentUrl) currentUrl with
      | Some u => Some u
      | None => nextPageUrl
      end
    else nextPageUrl in
  nextPageUrl.

Definition findNextPage (web : Web) (n : nat) (currentUrl : string) : Js (option string) :=
  tryCatch
    (let* doc := axiosGet web n currentUrl in
     Return (discoverNext doc currentUrl))
    (fun _ => Return None).

Definition isValidPagination (currentUrl nextUrl : string) (options : Options) : bool :=
  match newURL currentUrl None with
  | None => false
  | Some current =>
      match newURL nextUrl None with
      | None => false
      | Some next =>
          if sameDomainOnly options
             && negb (String.eqb (hostname current) (hostname next))
          then false
          else if String.eqb currentUrl nextUrl then false
          else
            let currentPath := pathname current in
            let nextPath := pathname next in
            let basePath := replaceNum "/p/" "" (replaceNum "/page/" "" currentPath) in
            startsWith nextPath basePath || includes nextPath "page"
            || includes (search next) "page"
      end
  end.

Definition scrapePage (web : Web) (n : nat) (url : string) : Js (list Article) :=
  tryCatch
    (let* articles := scrapeWithCheerio now web n url in
     Return articles)
    (fun _ => Return []).

(** The state of one crawl.  [requests] lists the URLs requested so far,
    oldest first; its length is the index of the next request. *)
Record CrawlState := mkCrawl {
  allArticles : list Article;
  seenUrls : gset string;
  currentPageUrl : string;
  pageCount : nat;
  requests : list string
}.

Definition initialState (url : string) : CrawlState :=
  {| allArticles := []; seenUrls := ∅; currentPageUrl := url;
     pageCount := 0; requests := [] |}.

(** The body of [for (const article of pageArticles)]. *)
Definition addNew (st : list Article * gset string) (article : Article)
    : list Article * gset string :=
  let '(all, seen) := st in
  if negb (bool_decide (NewsScraper.url article ∈ seen))
  then (all ++ [article], {[NewsScraper.url article]} ∪ seen)
  else st.

Inductive Flow := Continue | Break.

(** One turn of the [while] loop. *)
Definition iteration (web : Web) (opts : Options) (st : CrawlState) : CrawlState * Flow :=
  let pageCount := S (pageCount st) in
  let current := currentPageUrl st in
  let n := length (requests st) in
  match scrapePage web n current with
  | Throw _ =>
      ({| allArticles := allArticles st; seenUrls := seenUrls st;
          currentPageUrl := current; pageCount := pageCount;
          requests := requests st ++ [current] |}, Break)
  | Return pageArticles =>
      let '(all, seen) := fold_left addNew pageArticles (allArticles st, seenUrls st) in
      let stopped :=
        {| allArticles := all; seenUrls := seen; currentPageUrl := current;
           pageCount := pageCount; requests := requests st ++ [current; current] |} in
      match findNextPage web (S n) current with
      | Throw _ => (stopped, Break)
      | Return nextPageUrl =>
          if negb (falsy nextPageUrl)
             && isValidPagination current (orEmpty nextPageUrl) opts
          then ({| allArticles := all; seenUrls := seen;
                   currentPageUrl := orEmpty nextPageUrl;
                   pageCount := pageCount;
                   requests := requests st ++ [current; current] |}, Continue)
          else (stopped, Break)
      end
  end.

(** [while (currentPageUrl && pageCount < opts.maxPages)]; [None] when the
    fuel is used up before the loop is left. *)
Fixpoint whileLoop (fuel : nat) (web : Web) (opts : Options) (st : CrawlState)
    : option CrawlState :=
  match fuel with
  | O => None
  | S fuel' =>
      if truthy (currentPageUrl st) && Nat.ltb (pageCount st) (maxPages opts) then
        match iteration web opts st with
        | (st', Continue) => whileLoop fuel' web opts st'
        | (st', Break) => Some st'
        end
      else Some st
  end.

Definition crawl (fuel : nat) (web : Web) (url : string) (options : CustomOptions)
    : option CrawlState :=
  whileLoop fuel web (mergeOptions defaultOptions options) (initialState url).

Definition scrapeMultiplePages (fuel : nat) (web : Web) (url : string)
    (options : CustomOptions) : option (Js (list Article)) :=
  option_map (fun st => Return (allArticles st)) (crawl fuel web url options).

End WithURL.
End PaginationHandler.

(* ================================================================== *)
(** ** scheduler.js: runOnce *)
(* ================================================================== *)

Module NewsScheduler.
Import JS Cheerio Url NewsScraper PaginationHandler.

Record Config := mkConfig {
  url : string;
  format : string;
  maxPages : nat;
  usePagination : bool;
  filename : option string
}.

Inductive Filepath :=
| OneFile (path : string)
| BothFiles (json csv : string).

(** The [DataStorage] collaborator; each call may throw. *)
Record Storage := mkStorage {
  saveToJson : list Article -> option string -> Js string;
  saveToCsv : list Article -> option string -> Js string;
  saveToBoth : list Article -> Js (string * string)
}.

(** The object returned by [runOnce]; an absent property is [None]. *)
Record RunResult := mkResult {
  success : bool;
  count : option nat;
  articles : option (list Article);
  filepath : option Filepath;
  error : option string
}.

Section WithURL.
Context {U : URLApi}.
Variable now : string.

Definition save (storage : Storage) (config : Config) (found : list Article) : Js Filepath :=
  if String.eqb (format config) "csv" then
    let* p := saveToCsv storage found (filename config) in Return (OneFile p)
  else if String.eqb (format config) "both" then
    let* paths := saveToBoth storage found in Return (BothFiles (fst paths) (snd paths))
  else
    let* p := saveToJson storage found (filename config) in Return (OneFile p).

(** [None] only when the fuel given to the crawl loop is used up. *)
Definition runOnce (fuel : nat) (web : Web) (storage : Storage) (config : Config)
    : option (Js RunResult) :=
  let scraped : option (Js (list Article)) :=
    if usePagination config && Nat.ltb 1 (maxPages config) then
      scrapeMultiplePages now fuel web (url config)
        {| customMaxPages := Some (maxPages config);
           customDelayBetweenPages := None;
           customSameDomainOnly := None |}
    else Some (scrapeNews now web 0 (url config)) in
  option_map (fun outcome : Js (list Article) =>
    tryCatch
      (let* found := outcome in
       if Nat.eqb (length found) 0 then
         Return {| success := true; count := Some 0; articles := Some [];
                   filepath := None; error := None |}
       else
         let* path := save storage config found in
         Return {| success := true; count := Some (length found);
                   articles := Some found; filepath := Some path; error := None |})
      (fun message =>
         Return {| success := false; count := None; articles := None;
                   filepath := None; error := Some message |}))
    scraped.

End WithURL.
End NewsScheduler.

(* ================================================================== *)
(** ** Notions of the specification *)
(* ================================================================== *)

Module Spec.
Import JS Cheerio Url NewsScraper PaginationHandler.

(** Every white-space character is a space, and no two are adjacent. *)
Fixpoint singleSpaced (s : string) : bool :=
  match s with
  | EmptyString => true
  | String c r =>
      (if isSpace c then Ascii.eqb c " " && negb (startsWithSpace r) else true)
      && singleSpaced r
  end.

(** Normalized text: runs of white space are single spaces and there is no
    white space at either end. *)
Definition normalized (s : string) : bool :=
  singleSpaced s && negb (startsWithSpace s) && negb (endsWithSpace s).

(** Trimmed text: no white space at either end. *)
Definition trimmed (s : string) : bool :=
  negb (startsWithSpace s) && negb (endsWithSpace s).

(** The records accepted for one container selector on its own. *)
Definition acceptedBy {U : URLApi} (now : string) (sel : selector) (doc : document)
    (baseUrl : string) : list Article :=
  fst (fold_left (acceptArticle now baseUrl) (select doc sel) ([], ∅)).

(** The invariant of the container loop: the URLs of [articles] are
    pairwise distinct and [seenUrls] is the set of them. *)
Definition distinctUrls (st : list Article * gset string) : Prop :=
  NoDup (map url (fst st)) /\ forall u, u ∈ snd st <-> In u (map url (fst st)).

(** The requests of a crawl that visits [pages]: every page is requested
    twice in a row, once to extract its articles and once to look for the
    link to the next page. *)
Definition visits (pages : list string) : list string :=
  flat_map (fun page => [page; page]) pages.

(** [s] without its suffix [pre<digits>], when it ends in one. *)
Fixpoint stripNumSuffix (pre s : string) : string :=
  match matchNumAt pre s with
  | Some (_, EmptyString) => EmptyString
  | _ =>
      match s with
      | EmptyString => EmptyString
      | String c r => String c (stripNumSuffix pre r)
      end
  end.

(** The validation rule in the words of the specification: the base path is
    the current path without a [/page/<digits>] or [/p/<digits>] suffix. *)
Definition isValidNext {U : URLApi} (currentUrl nextUrl : string) (sameDomain : bool) : bool :=
  match newURL currentUrl None, newURL nextUrl None with
  | Some current, Some next =>
      if sameDomain && negb (String.eqb (hostname current) (hostname next)) then false
      else if String.eqb currentUrl nextUrl then false
      else
        let basePath := stripNumSuffix "/p/" (stripNumSuffix "/page/" (pathname current)) in
        startsWith (pathname next) basePath || includes (pathname next) "page"
        || includes (search next) "page"
  | _, _ => false
  end.

(** The fallback of the link heuristic in the words of the specification:
    the number of segments of a path. *)
Definition pathSegments (path : string) : nat := countChar "/" path.

End Spec.

(* ================================================================== *)
(** ** Sample pages *)
(* ================================================================== *)

Module Samples.
Import JS Cheerio Url NewsScraper PaginationHandler NewsScheduler.

Definition clock : string := "2026-01-01T00:00:00.000Z".
Definition site : string := "https://a.com/".

Definition page (body : list node) : document :=
  [Element "html" [] [Element "head" [] []; Element "body" [] body]].

(** A container with a heading, a link and further children. *)
Definition card (tagName : string) (attribs : list (string * string))
    (heading target : string) (more : list node) : node :=
  Element tagName attribs
    ([Element "h2" [] [Text heading];
      Element "a" [("href", target)] [Text "Read more"]] ++ more).

(** No container; two anchors with the same target. *)
Definition twoAnchorsPage : document :=
  page [Element "a" [("href", "/about")] [Text "Everything about this site"];
        Element "a" [("href", "/about")] [Text "Read everything about us"]].

(** The author's name is written with three spaces. *)
Definition authorCard : node :=
  card "article" [] "Budget vote" "/news/budget"
    [Element "span" [("class", "author")] [Text " John   Smith "]].

(** No [time] element; the date is in a [class="post-date"] element. *)
Definition dateCard : node :=
  card "article" [] "Budget vote" "/news/budget"
    [Element "span" [("class", "post-date")] [Text "2024-01-01"]].

(** The only description candidate has five characters. *)
Definition shortCard : node :=
  card "article" [] "Budget vote" "/news/budget" [Element "p" [] [Text "short"]].

(** No container; one anchor to a path of one segment. *)
Definition aboutPage : document :=
  page [Element "a" [("href", "/about")] [Text "Everything about this site"]].

(** Containers for two selectors: [class*="article"] and [.item]. *)
Definition mixedPage : document :=
  page [card "div" [("class", "article-card")] "Budget vote" "/news/budget" [];
        card "li" [("class", "item")] "Weather" "/news/weather" [];
        card "div" [("class", "article-card")] "Election" "/news/election" []].

(** A site that is down. *)
Definition offline : Web := fun _ _ => Throw "connect ECONNREFUSED".

(** Two listing pages whose next links point at each other. *)
Definition cyclicWeb : Web := fun _ u =>
  Return (page
    [card "article" [] "Budget vote" "/news/budget" [];
     Element "a"
       [("class", "next");
        ("href", if String.eqb u "https://a.com/list" then "/list/page/2" else "/list")]
       [Text "Next"]]).

(** A page without links, the same at every address. *)
Definition plainWeb : Web := fun _ _ => Return (page [Element "p" [] [Text "Nothing here"]]).

Definition diskStorage : Storage :=
  {| saveToJson := fun _ name => Return (default "output/news.json" name);
     saveToCsv := fun _ name => Return (default "output/news.csv" name);
     saveToBoth := fun _ => Return ("output/news.json", "output/news.csv") |}.

Definition onePage : Config :=
  {| NewsScheduler.url := site; format := "json"; NewsScheduler.maxPages := 1;
     usePagination := false; filename := None |}.

Definition threePages : Config :=
  {| NewsScheduler.url := site; format := "json"; NewsScheduler.maxPages := 3;
     usePagination := true; filename := None |}.

End Samples.


From Stdlib Require DecimalPos QArith_base.

(* ================================================================== *)
(** ** Further notions used in the properties *)
(* ================================================================== *)

Module Notions.
Import JS Cheerio Url NewsScraper PaginationHandler.

(** The text without its white space. *)
Fixpoint withoutSpace (s : string) : string :=
  match s with
  | EmptyString => EmptyString
  | String c r => if isSpace c then withoutSpace r else String c (withoutSpace r)
  end.

(** An element that carries an [href] attribute. *)
Definition hasHref (n : node) : bool :=
  match n with
  | Element _ attribs _ =>
      match lookupAttr "href" attribs with Some _ => true | None => false end
  | Text _ => false
  end.

(** The numbered links that strategy 2 chooses from: those of the
    pagination widgets whose text is a number above the current page, in
    document order, each with its resolved address. *)
Definition laterPages {U : URLApi} (doc : document) (currentUrl : string)
    : list (string * Z) :=
  omap (laterPage (extractPageNumber currentUrl))
       (fold_left (collectPageLink currentUrl) (select doc pageLinkSelector) []).

(** Two addresses that parse and name the same host. *)
Definition sameHost {U : URLApi} (a b : string) : Prop :=
  exists ua ub, newURL a None = Some ua /\ newURL b None = Some ub
                /\ hostname ua = hostname ub.

(** A record that can be stored: it has a title, written in normalized
    text, an address that parses and begins with [http://] or [https://],
    and a normalized description of at most 500 characters. *)
Definition wellFormed {U : URLApi} (r : Article) : Prop :=
  truthy (title r) = true
  /\ Spec.normalized (title r) = true
  /\ isValidUrl (url r) = true
  /\ startsWith (url r) "http://" || startsWith (url r) "https://" = true
  /\ Spec.normalized (description r) = true
  /\ String.length (description r) <= 500.

(** What every record of the link-harvesting pass looks like. *)
Definition harvested {U : URLApi} (r : Article) : Prop :=
  wellFormed r
  /\ String.length (title r) <= 200
  /\ description r = "" /\ image r = "" /\ date r = "" /\ author r = ""
  /\ looksLikeArticleUrl (url r) = true.

End Notions.

(* ================================================================== *)
(** ** storage.js *)
(* ================================================================== *)

Module DataStorage.
Import JS NewsScraper.

(** [this.outputDir] *)
Definition outputDir : string := "output".

(** An optional [filename] argument: left out, [null], or a string.  A
    default parameter value replaces [undefined] only. *)
Inductive Filename :=
| Undefined
| Null
| Name (name : string).

(** The object written by [saveToJson] and [appendToJson], as [JSON.parse]
    reads it back; an absent property is [None]. *)
Record NewsData := mkNews {
  fileScrapedAt : option string;
  fileLastUpdated : option string;
  fileTotalArticles : option nat;
  fileArticles : option (list Article)
}.

(** What a file holds: text that is not JSON, the table written by the CSV
    writer, a JSON object, or a JSON array of articles.  Other JSON values
    are left out. *)
Inductive Content :=
| NotJson (text : string)
| CsvFile (header : list (string * string)) (records : list Article)
| NewsFile (data : NewsData)
| ArticleArray (items : list Article).

(** The file system: the files by path, the directories that exist, the
    paths that cannot be opened for writing, and the paths on which a write
    fails after the file was opened, each with the text that the failed
    write leaves in the file.  Creating a directory always succeeds. *)
Record FS := mkFS {
  files : gmap string Content;
  dirs : gset string;
  readOnly : gset string;
  failing : gmap string string
}.

(** What [loadFromJson] returns: [data.articles], or [data] itself. *)
Inductive Loaded :=
| LoadedArticles (items : list Article)
| LoadedObject (data : NewsData).

Definition access (fs : FS) (dir : string) : Js unit :=
  if bool_decide (dir ∈ dirs fs) then Return tt
  else Throw "ENOENT: no such file or directory".

Definition mkdir (fs : FS) (dir : string) : FS :=
  {| files := files fs; dirs := {[dir]} ∪ dirs fs; readOnly := readOnly fs;
     failing := failing fs |}.

(** [fs.writeFile(path, text)]: the file is opened with flag [w], which
    truncates it, and the text is written.  When the file cannot be opened
    nothing changes; when the write fails after the open, the former
    content is gone and the file holds what was written so far, the
    beginning of the text, which is not JSON. *)
Definition writeFile (fs : FS) (path : string) (content : Content) : Js unit * FS :=
  if bool_decide (path ∈ readOnly fs) then (Throw "EACCES: permission denied", fs)
  else
    match failing fs !! path with
    | Some partial =>
        (Throw "ENOSPC: no space left on device",
         {| files := <[path := NotJson partial]> (files fs); dirs := dirs fs;
            readOnly := readOnly fs; failing := failing fs |})
    | None =>
        (Return tt,
         {| files := <[path := content]> (files fs); dirs := dirs fs;
            readOnly := readOnly fs; failing := failing fs |})
    end.

(** A path on which a write succeeds. *)
Definition writable (fs : FS) (path : string) : Prop :=
  ~ path ∈ readOnly fs /\ failing fs !! path = None.

Definition readFile (fs : FS) (path : string) : Js Content :=
  match files fs !! path with
  | Some content => Return content
  | None => Throw "ENOENT: no such file or directory"
  end.

(** [JSON.parse] of the text of a file. *)
Definition jsonParse (content : Content) : Js Content :=
  match content with
  | NotJson _ | CsvFile _ _ => Throw "Unexpected token in JSON"
  | NewsFile _ | ArticleArray _ => Return content
  end.

Definition ensureOutputDir (fs : FS) : FS :=
  match access fs outputDir with
  | Return _ => fs
  | Throw _ => mkdir fs outputDir
  end.

Fixpoint replaceChars (p : ascii -> bool) (by_ : ascii) (s : string) : string :=
  match s with
  | EmptyString => EmptyString
  | String c r => String (if p c then by_ else c) (replaceChars p by_ r)
  end.

(** [new Date().toISOString().replace(/[:.]/g, '-').substring(0, 19)] *)
Definition timestamp (now : string) : string :=
  substring 0 19
    (replaceChars (fun c => Ascii.eqb c ":" || Ascii.eqb c ".") "-" now).

Definition headers : list (string * string) := [
  ("title", "Title");
  ("url", "URL");
  ("description", "Description");
  ("image", "Image URL");
  ("date", "Date");
  ("author", "Author");
  ("scrapedAt", "Scraped At")
].

Definition defaultAppendName : string := "accumulated-news.json".

(** The message of the [TypeError] of [path.join] on [null]; the name of
    the argument is written in double quotes. *)
Definition pathTypeError : string :=
  let quote := String (Ascii.ascii_of_nat 34) EmptyString in
  "The " +:+ quote +:+ "path" +:+ quote
  +:+ " argument must be of type string. Received null".

Definition mapTypeError : string :=
  "Cannot read properties of undefined (reading 'map')".

Section WithPath.

(** [path.join] on two strings. *)
Variable pathJoin : string -> string -> string.

(** The clock at the time of the call. *)
Variable now : string.

(** [filename] after [if (!filename) filename = `news-${timestamp}.ext`]. *)
Definition orGenerated (filename : Filename) (extension : string) : string :=
  match filename with
  | Name name => if truthy name then name
                 else "news-" +:+ timestamp now +:+ extension
  | Undefined | Null => "news-" +:+ timestamp now +:+ extension
  end.

Definition saveToJson (fs : FS) (found : list Article) (filename : Filename)
    : Js string * FS :=
  let fs := ensureOutputDir fs in
  let filepath := pathJoin outputDir (orGenerated filename ".json") in
  let data := {| fileScrapedAt := Some now;
                 fileLastUpdated := None;
                 fileTotalArticles := Some (length found);
                 fileArticles := Some found |} in
  match writeFile fs filepath (NewsFile data) with
  | (Return _, fs') => (Return filepath, fs')
  | (Throw e, fs') => (Throw ("Failed to save JSON: " +:+ e), fs')
  end.

Definition saveToCsv (fs : FS) (found : list Article) (filename : Filename)
    : Js string * FS :=
  let fs := ensureOutputDir fs in
  let filepath := pathJoin outputDir (orGenerated filename ".csv") in
  match writeFile fs filepath (CsvFile headers found) with
  | (Return _, fs') => (Return filepath, fs')
  | (Throw e, fs') => (Throw ("Failed to save CSV: " +:+ e), fs')
  end.

(** [existingData] after the read: the parsed file, or [{ articles: [] }]
    when the file cannot be read or parsed. *)
Definition readExisting (fs : FS) (filepath : string) : Content :=
  match tryCatch (let* content := readFile fs filepath in jsonParse content)
          (fun _ => Return (NewsFile {| fileScrapedAt := None; fileLastUpdated := None;
                                         fileTotalArticles := None;
                                         fileArticles := Some [] |})) with
  | Return content => content
  | Throw _ => NotJson ""
  end.

(** [articles.filter(a => !existingUrls.has(a.url))] *)
Definition newArticles (existing found : list Article) : list Article :=
  let existingUrls : gset string := list_to_set (map url existing) in
  List.filter (fun a => negb (bool_decide (url a ∈ existingUrls))) found.

Definition appendToJson (fs : FS) (found : list Article) (filename : Filename)
    : Js string * FS :=
  let fs := ensureOutputDir fs in
  match filename with
  | Null => (Throw pathTypeError, fs)
  | Undefined | Name _ =>
      let name := match filename with Name name => name | _ => defaultAppendName end in
      let filepath := pathJoin outputDir name in
      match readExisting fs filepath with
      | NewsFile existingData =>
          match fileArticles existingData with
          | None => (Throw mapTypeError, fs)
          | Some existing =>
              let merged := existing ++ newArticles existing found in
              let data := {| fileScrapedAt := fileScrapedAt existingData;
                             fileLastUpdated := Some now;
                             fileTotalArticles := Some (length merged);
                             fileArticles := Some merged |} in
              match writeFile fs filepath (NewsFile data) with
              | (Return _, fs') => (Return filepath, fs')
              | (Throw e, fs') => (Throw e, fs')
              end
          end
      | _ => (Throw mapTypeError, fs)
      end
  end.

Definition loadFromJson (fs : FS) (filepath : string) : Js Loaded :=
  tryCatch
    (let* content := readFile fs filepath in
     let* data := jsonParse content in
     match data with
     | NewsFile d =>
         match fileArticles d with
         | Some items => Return (LoadedArticles items)
         | None => Return (LoadedObject d)
         end
     | ArticleArray items => Return (LoadedArticles items)
     | _ => Throw "Unexpected token in JSON"
     end)
    (fun message => Throw ("Failed to load JSON: " +:+ message)).

End WithPath.

(** [saveToBoth]: [now] is the time of the JSON call and [later] the time
    of the CSV call. *)
Definition saveToBoth (pathJoin : string -> string -> string) (now later : string)
    (fs : FS) (found : list Article) : Js (string * string) * FS :=
  match saveToJson pathJoin now fs found Undefined with
  | (Throw e, fs1) => (Throw e, fs1)
  | (Return jsonPath, fs1) =>
      match saveToCsv pathJoin later fs1 found Undefined with
      | (Throw e, fs2) => (Throw e, fs2)
      | (Return csvPath, fs2) => (Return (jsonPath, csvPath), fs2)
      end
  end.

End DataStorage.

(* ================================================================== *)
(** ** scheduler.js: intervals, jobs and the scheduled task *)
(* ================================================================== *)

Module SchedulerJobs.
Import JS Url NewsScraper PaginationHandler DataStorage.

(** The argument of [parseInterval]: a number or a string. *)
Inductive IntervalArg :=
| Milliseconds (n : Z)
| Written (text : string).

Definition intervalError : string :=
  "Invalid interval format. Use: 30s, 15m, 2h, 1d, or milliseconds".

(** The table [multipliers], and [undefined] for another key. *)
Definition multipliers (unit : string) : option Z :=
  if String.eqb unit "s" then Some 1000%Z
  else if String.eqb unit "m" then Some 60000%Z
  else if String.eqb unit "h" then Some 3600000%Z
  else if String.eqb unit "d" then Some 86400000%Z
  else None.

(** [text.match(/^(\d+)([smhd])?$/)]: the digits and the unit, when the
    whole text is made of them. *)
Definition matchInterval (text : string) : option (string * option string) :=
  let digits := takeDigits text in
  let rest := dropDigits text in
  if truthy digits then
    match rest with
    | EmptyString => Some (digits, None)
    | String _ EmptyString =>
        match multipliers rest with
        | Some _ => Some (digits, Some rest)
        | None => None
        end
    | _ => None
    end
  else None.

Definition parseInterval (interval : IntervalArg) : Js Z :=
  match interval with
  | Milliseconds n => Return n
  | Written text =>
      match matchInterval text with
      | None => Throw intervalError
      | Some (digits, unit) =>
          let value := default 0%Z (parseInt digits) in
          let unit := default "s" unit in
          Return (value * default 0 (multipliers unit))%Z
      end
  end.

(** The argument of [scheduleScraping]; an absent property is [None], an
    absent [url] the empty string. *)
Record JobConfig := mkJobConfig {
  url : string;
  interval : option Z;
  format : option string;
  maxPages : option nat;
  usePagination : option bool;
  filename : option string;
  append : option bool
}.

(** The variables that the closure [task] captures. *)
Record Task := mkTask {
  taskUrl : string;
  taskFormat : string;
  taskMaxPages : nat;
  taskUsePagination : bool;
  taskFilename : option string;
  taskAppend : bool
}.

(** A job of the registry.  Dates are kept in milliseconds. *)
Record Job := mkJob {
  jobId : string;
  jobUrl : string;
  jobInterval : Z;
  jobIntervalMinutes : QArith_base.Q;
  jobFormat : string;
  jobMaxPages : nat;
  jobUsePagination : bool;
  intervalId : nat;
  createdAt : Z;
  nextRun : Z
}.

(** The scheduler and the timers of the runtime: [scheduledJobs], the
    running intervals with the task each one calls, the handle that the
    next [setInterval] returns, and the tasks started so far. *)
Record Scheduler := mkScheduler {
  scheduledJobs : gmap string Job;
  timers : gmap nat Task;
  nextTimer : nat;
  started : list Task
}.

Definition newScheduler : Scheduler :=
  {| scheduledJobs := ∅; timers := ∅; nextTimer := 0; started := [] |}.

Definition taskOf (config : JobConfig) : Task :=
  {| taskUrl := url config;
     taskFormat := default "json" (format config);
     taskMaxPages := default 1 (maxPages config);
     taskUsePagination := default false (usePagination config);
     taskFilename := filename config;
     taskAppend := default false (append config) |}.

(** [`job-${Date.now()}-${Math.random().toString(36).substr(2, 9)}`] *)
Definition makeJobId (nowMs : Z) (random : string) : string :=
  "job-" +:+ numToString nowMs +:+ "-" +:+ random.

Section WithURL.
Context {U : URLApi}.

(** [scheduleScraping(config)] at time [nowMs], with [random] the text
    drawn for the job id.  The clock is read once: the three readings of
    one call are taken as the same millisecond. *)
Definition scheduleScraping (config : JobConfig) (nowMs : Z) (random : string)
    (st : Scheduler) : Js Job * Scheduler :=
  if negb (truthy (url config)) || negb (isValidUrl (url config)) then
    (Throw "Invalid URL provided", st)
  else
    let every := default 3600000%Z (interval config) in
    let id := makeJobId nowMs random in
    let task := taskOf config in
    let handle := nextTimer st in
    let job := {| jobId := id;
                  jobUrl := url config;
                  jobInterval := every;
                  jobIntervalMinutes := QArith_base.Qmake every 60000;
                  jobFormat := taskFormat task;
                  jobMaxPages := taskMaxPages task;
                  jobUsePagination := taskUsePagination task;
                  intervalId := handle;
                  createdAt := nowMs;
                  nextRun := (nowMs + every)%Z |} in
    (Return job,
     {| scheduledJobs := <[id := job]> (scheduledJobs st);
        timers := <[handle := task]> (timers st);
        nextTimer := S handle;
        started := started st ++ [task] |}).

End WithURL.

Definition cancelJob (id : string) (st : Scheduler) : bool * Scheduler :=
  match scheduledJobs st !! id with
  | None => (false, st)
  | Some job =>
      (true,
       {| scheduledJobs := delete id (scheduledJobs st);
          timers := delete (intervalId job) (timers st);
          nextTimer := nextTimer st;
          started := started st |})
  end.

Definition cancelAllJobs (st : Scheduler) : Scheduler :=
  {| scheduledJobs := ∅;
     timers := map_fold (fun _ job running => delete (intervalId job) running)
                 (timers st) (scheduledJobs st);
     nextTimer := nextTimer st;
     started := started st |}.

(** The runtime fires a running interval: its task is started. *)
Definition fire (handle : nat) (st : Scheduler) : Scheduler :=
  match timers st !! handle with
  | Some task =>
      {| scheduledJobs := scheduledJobs st; timers := timers st;
         nextTimer := nextTimer st; started := started st ++ [task] |}
  | None => st
  end.


Section Task.
Context {U : URLApi}.
Variable pathJoin : string -> string -> string.

(** The clock when the task starts and when it saves the second file. *)
Variable now later : string.




End Task.

(** *** Histories of a scheduler *)

(** What happens to a scheduler. *)
Inductive Event :=
| Schedules (config : JobConfig) (nowMs : Z) (random : string)
| Cancels (id : string)
| CancelsAll
| Fires (handle : nat).

Definition after {U : URLApi} (event : Event) (st : Scheduler) : Scheduler :=
  match event with
  | Schedules config nowMs random => snd (scheduleScraping config nowMs random st)
  | Cancels id => snd (cancelJob id st)
  | CancelsAll => cancelAllJobs st
  | Fires handle => fire handle st
  end.

(** An event that does not reuse the id of a registered job. *)
Definition freshId (event : Event) (st : Scheduler) : Prop :=
  match event with
  | Schedules _ nowMs random => scheduledJobs st !! makeJobId nowMs random = None
  | _ => True
  end.


(** Timers and jobs agree: the running intervals are those of the
    registered jobs, one each, and all were handed out already. *)
Definition consistent (st : Scheduler) : Prop :=
  (forall handle, is_Some (timers st !! handle)
                  <-> exists id job, scheduledJobs st !! id = Some job
                                     /\ intervalId job = handle)
  /\ (forall id job, scheduledJobs st !! id = Some job ->
        jobId job = id /\ intervalId job < nextTimer st)
  /\ (forall id1 id2 job1 job2,
        scheduledJobs st !! id1 = Some job1 -> scheduledJobs st !! id2 = Some job2 ->
        intervalId job1 = intervalId job2 -> id1 = id2).

(** The factor of a unit as it is written: none means seconds. *)
Definition unitFactor (unit : string) : option Z :=
  if String.eqb unit "" then Some 1000%Z else multipliers unit.

End SchedulerJobs.

(* ================================================================== *)
(** ** Further sample inputs *)
(* ================================================================== *)

Module Scenarios.
Import JS Cheerio NewsScraper DataStorage SchedulerJobs.

(** [path.join] on a directory and a plain file name. *)
Definition join (dir name : string) : string := dir +:+ "/" +:+ name.

Definition budget : Article :=
  {| title := "Budget vote"; NewsScraper.url := "https://a.com/news/budget";
     description := ""; image := ""; date := ""; author := "";
     scrapedAt := "2025-12-31T00:00:00.000Z" |}.

Definition weather : Article :=
  {| title := "Weather"; NewsScraper.url := "https://a.com/news/weather";
     description := ""; image := ""; date := ""; author := "";
     scrapedAt := "2026-01-01T00:00:00.000Z" |}.

(** The budget article once more, scraped a day later. *)
Definition budgetAgain : Article :=
  {| title := "Budget vote"; NewsScraper.url := "https://a.com/news/budget";
     description := ""; image := ""; date := ""; author := "";
     scrapedAt := "2026-01-01T00:00:00.000Z" |}.

Definition emptyDisk : FS := {| files := ∅; dirs := ∅; readOnly := ∅; failing := ∅ |}.

Definition archive : NewsData :=
  {| fileScrapedAt := Some "2025-12-31T00:00:00.000Z";
     fileLastUpdated := None;
     fileTotalArticles := Some 1;
     fileArticles := Some [budget] |}.

(** A disk with one accumulated file. *)
Definition archiveDisk : FS :=
  {| files := {[ "output/news.json" := NewsFile archive ]};
     dirs := {[ "output" ]};
     readOnly := ∅;
     failing := ∅ |}.

(** A job on the listing page with every default. *)
Definition hourly : JobConfig :=
  {| SchedulerJobs.url := "https://a.com/list"; interval := None; format := None;
     maxPages := None; usePagination := None; filename := None; append := None |}.


(** A listing page with a pagination widget of three numbered links. *)
Definition numberedPage : document :=
  [Element "html" [] [Element "body" []
    [Element "div" [("class", "pagination")]
       [Element "a" [("href", "/list/page/1")] [Text "1"];
        Element "a" [("href", "/list/page/3")] [Text "3"];
        Element "a" [("href", "/list/page/2")] [Text "2"]]]]].

(** A container without any link. *)
Definition headingOnly : node :=
  Element "article" [] [Element "h2" [] [Text "Budget vote"]].

End Scenarios.
(* ================================================================== *)
(** * Properties *)
(* ================================================================== *)

Import JS Cheerio Url NewsScraper PaginationHandler Spec Samples.

(** ** Text normalization *)

Lemma isNewline_isSpace c : isNewline c = true -> isSpace c = true.
Proof.
  unfold isNewline, isSpace. intros H%Nat.eqb_eq. rewrite H. reflexivity.
Qed.

Lemma singleSpaced_cons c r :
  singleSpaced (String c r) = true ->
  (isSpace c = true -> c = " "%char /\ startsWithSpace r = false)
  /\ singleSpaced r = true.
Proof.
  simpl. intros [Hc Hr]%andb_prop. split; [|exact Hr].
  intros Hs. rewrite Hs in Hc. apply andb_prop in Hc as [Heq Hn].
  split; [now apply Ascii.eqb_eq | now apply negb_true_iff].
Qed.

Lemma singleSpaced_collapse s : singleSpaced (collapseRuns isSpace s) = true.
Proof.
  induction s as [|c r IH]; [reflexivity|].
  simpl. destruct (isSpace c) eqn:Hc.
  - destruct r as [|d r']; [reflexivity|].
    destruct (isSpace d) eqn:Hd; [exact IH|].
    change (singleSpaced (String " " (collapseRuns isSpace (String d r'))) = true).
    cbn [singleSpaced]. rewrite IH.
    cbn [collapseRuns]. rewrite Hd. cbn [startsWithSpace]. now rewrite Hd.
  - cbn [singleSpaced]. rewrite Hc. exact IH.
Qed.

Lemma collapse_newline_singleSpaced s :
  singleSpaced s = true -> collapseRuns isNewline s = s.
Proof.
  induction s as [|c r IH]; [reflexivity|].
  intros [Hc Hr]%singleSpaced_cons. cbn [collapseRuns].
  destruct (isNewline c) eqn:Hn.
  - destruct (Hc (isNewline_isSpace _ Hn)) as [-> _]. discriminate Hn.
  - now rewrite IH.
Qed.

Lemma singleSpaced_trimStart s :
  singleSpaced s = true -> singleSpaced (trimStart s) = true.
Proof.
  induction s as [|c r IH]; [reflexivity|].
  intros H. pose proof (singleSpaced_cons _ _ H) as [_ Hr].
  cbn [trimStart]. destruct (isSpace c); auto.
Qed.

Lemma startsWithSpace_trimStart s : startsWithSpace (trimStart s) = false.
Proof.
  induction s as [|c r IH]; [reflexivity|].
  cbn [trimStart]. destruct (isSpace c) eqn:Hc; [exact IH|].
  cbn [startsWithSpace]. exact Hc.
Qed.

Lemma startsWithSpace_trimEnd s :
  startsWithSpace s = false -> startsWithSpace (trimEnd s) = false.
Proof.
  destruct s as [|c r]; [reflexivity|].
  cbn [startsWithSpace trimEnd]. intros Hc. rewrite Hc.
  cbn [andb startsWithSpace]. exact Hc.
Qed.

Lemma singleSpaced_trimEnd s :
  singleSpaced s = true -> singleSpaced (trimEnd s) = true.
Proof.
  induction s as [|c r IH]; [reflexivity|].
  intros [Hc Hr]%singleSpaced_cons. cbn [trimEnd].
  destruct (isSpace c && negb (truthy (trimEnd r))) eqn:E; [reflexivity|].
  cbn [singleSpaced]. rewrite (IH Hr), andb_true_r.
  destruct (isSpace c) eqn:Hs; [|reflexivity].
  destruct (Hc eq_refl) as [-> Hst].
  now rewrite (startsWithSpace_trimEnd _ Hst).
Qed.

Lemma endsWithSpace_trimEnd s : endsWithSpace (trimEnd s) = false.
Proof.
  induction s as [|c r IH]; [reflexivity|].
  cbn [trimEnd].
  destruct (isSpace c && negb (truthy (trimEnd r))) eqn:E; [reflexivity|].
  destruct (trimEnd r) as [|d r'] eqn:Er.
  - cbn [endsWithSpace]. simpl in E. now rewrite andb_true_r in E.
  - exact IH.
Qed.

Lemma trimmed_trim s : trimmed (trim s) = true.
Proof.
  unfold trimmed, trim.
  rewrite (startsWithSpace_trimEnd _ (startsWithSpace_trimStart s)).
  now rewrite endsWithSpace_trimEnd.
Qed.

(** [cleanText] returns normalized text, whatever it is given. *)
Lemma cleanText_normalized s : normalized (cleanText s) = true.
Proof.
  unfold cleanText. destruct (negb (truthy s)); [reflexivity|].
  rewrite (collapse_newline_singleSpaced _ (singleSpaced_collapse s)).
  unfold normalized, trim.
  rewrite (singleSpaced_trimEnd _ (singleSpaced_trimStart _ (singleSpaced_collapse s))).
  rewrite (startsWithSpace_trimEnd _ (startsWithSpace_trimStart _)).
  now rewrite endsWithSpace_trimEnd.
Qed.

Lemma trimStart_fixed s : startsWithSpace s = false -> trimStart s = s.
Proof. destruct s as [|c r]; [reflexivity|]. simpl. now intros ->. Qed.

Lemma trimEnd_fixed s : endsWithSpace s = false -> trimEnd s = s.
Proof.
  induction s as [|c r IH]; [reflexivity|].
  intros H. cbn [trimEnd]. destruct r as [|d r'].
  - simpl in *. now rewrite H.
  - rewrite (IH H). now rewrite andb_false_r.
Qed.

Lemma collapse_space_singleSpaced s :
  singleSpaced s = true -> collapseRuns isSpace s = s.
Proof.
  induction s as [|c r IH]; [reflexivity|].
  intros [Hc Hr]%singleSpaced_cons. cbn [collapseRuns].
  rewrite (IH Hr). destruct (isSpace c) eqn:Hs; [|reflexivity].
  destruct (Hc eq_refl) as [-> Hst].
  destruct r as [|d r']; [reflexivity|].
  simpl in Hst. now rewrite Hst.
Qed.

(** Normalized text is left as it is: [cleanText] changes white space only
    where the text is not normalized yet. *)
Lemma cleanText_fixes_normalized s : normalized s = true -> cleanText s = s.
Proof.
  unfold normalized. intros [[Hs Hl]%andb_prop Hr]%andb_prop.
  apply negb_true_iff in Hl, Hr.
  unfold cleanText. destruct s as [|c r]; [reflexivity|].
  cbn [truthy negb].
  rewrite (collapse_space_singleSpaced _ Hs), (collapse_newline_singleSpaced _ Hs).
  unfold trim. now rewrite (trimStart_fixed _ Hl), (trimEnd_fixed _ Hr).
Qed.

(** ** The extraction engine *)

Section Extraction.
Context {U : URLApi}.
Variable now : string.

Lemma findAuthor_text article :
  findAuthor article = trim (text (first (find (attrContains "class" "author") article))).
Proof.
  unfold findAuthor, orSel, truthyObject.
  destruct (first (find (attrContains "class" "author") article)) as [|n l] eqn:E.
  - reflexivity.
  - cbn [nonEmpty orElse]. now destruct (trim (text (n :: l))).
Qed.

(** C3, as amended.  In every record built by [parseArticle] the title and
    the description are normalized: white space occurs only as single
    spaces between other characters.  The author is empty or the text of
    an author element (one whose class or whose [rel] contains "author")
    with the white space at its two ends removed, and nothing else is done
    to it. *)
Theorem parseArticle_text_fields (article : selection) (baseUrl : string) (r : Article) :
  parseArticle now article baseUrl = Some r ->
  normalized (title r) = true
  /\ normalized (description r) = true
  /\ (author r = ""
      \/ exists el,
           (In el (find (attrContains "class" "author") article)
            \/ In el (find (attrContains "rel" "author") article))
           /\ author r = trim (text [el]))
  /\ trimmed (author r) = true.
Proof.
  unfold parseArticle.
  destruct (truthy _ && truthy _ && isValidUrl _); [|discriminate].
  intros [= <-]. cbn [title description author].
  split; [apply cleanText_normalized|]. split; [apply cleanText_normalized|].
  rewrite findAuthor_text. split; [|apply trimmed_trim].
  destruct (find (attrContains "class" "author") article) as [|el rest].
  - now left.
  - right. exists el. split; [left; now left|reflexivity].
Qed.

(** *** Containers: one selector decides *)

Lemma acceptArticle_cases baseUrl st el :
  acceptArticle now baseUrl st el = st
  \/ exists a, acceptArticle now baseUrl st el = (fst st ++ [a], {[url a]} ∪ snd st)
               /\ url a ∉ snd st.
Proof.
  destruct st as [articles seen]. unfold acceptArticle.
  destruct (parseArticle now [el] baseUrl) as [a|]; [|now left].
  destruct (truthy (title a) && truthy (url a)); [|now left].
  cbn [andb]. destruct (bool_decide (url a ∈ seen)) eqn:E; [now left|].
  right. exists a. split; [reflexivity|].
  now apply bool_decide_eq_false in E.
Qed.

Lemma fold_accept_nonempty baseUrl els st :
  fst st <> [] -> fst (fold_left (acceptArticle now baseUrl) els st) <> [].
Proof.
  revert st. induction els as [|el els IH]; intros st Hst; [exact Hst|].
  cbn [fold_left]. apply IH.
  destruct (acceptArticle_cases baseUrl st el) as [->|(a & -> & _)]; [exact Hst|].
  cbn [fst]. now destruct (fst st).
Qed.

(** A selector that leaves [articles] empty leaves [seenUrls] as it was. *)
Lemma fold_accept_empty baseUrl els st :
  fst (fold_left (acceptArticle now baseUrl) els st) = [] ->
  fold_left (acceptArticle now baseUrl) els st = st.
Proof.
  revert st. induction els as [|el els IH]; intros st H; [reflexivity|].
  cbn [fold_left] in *.
  destruct (acceptArticle_cases baseUrl st el) as [E|(a & E & _)]; rewrite E in *.
  - now apply IH.
  - exfalso. revert H. apply fold_accept_nonempty. cbn [fst]. now destruct (fst st).
Qed.

Lemma trySelectors_first_productive doc baseUrl pre sel post :
  (forall s, In s pre -> acceptedBy now s doc baseUrl = []) ->
  acceptedBy now sel doc baseUrl <> [] ->
  trySelectors now (pre ++ sel :: post) doc baseUrl ([], ∅)
  = fold_left (acceptArticle now baseUrl) (select doc sel) ([], ∅).
Proof.
  intros Hpre Hsel. induction pre as [|s pre IH].
  - cbn [app trySelectors].
    unfold acceptedBy in Hsel.
    destruct (fst (fold_left _ (select doc sel) ([], ∅))) eqn:E; [contradiction|].
    reflexivity.
  - cbn [app trySelectors].
    pose proof (Hpre s (or_introl eq_refl)) as Hs. unfold acceptedBy in Hs.
    rewrite Hs. cbn [length Nat.ltb Nat.leb].
    rewrite (fold_accept_empty _ _ _ Hs).
    apply IH. intros s' Hin. apply Hpre. now right.
Qed.

Lemma extractArticlesWith_first_productive doc baseUrl pre sel post :
  (forall s, In s pre -> acceptedBy now s doc baseUrl = []) ->
  acceptedBy now sel doc baseUrl <> [] ->
  extractArticlesWith now (pre ++ sel :: post) doc baseUrl = acceptedBy now sel doc baseUrl.
Proof.
  intros Hpre Hsel. unfold extractArticlesWith.
  rewrite (trySelectors_first_productive _ _ _ _ _ Hpre Hsel).
  unfold acceptedBy in *.
  destruct (fold_left _ (select doc sel) ([], ∅)) as [articles seen].
  cbn [fst] in *. now destruct articles.
Qed.

(** C7.  When a container selector accepts at least one record and the
    selectors tried before it accept none, the output of [extractArticles]
    is the output of the engine run with that selector alone, which is the
    list of records that selector accepts: nothing of the selectors after
    it is added. *)
Theorem extractArticles_selector_precedence
    (doc : document) (baseUrl : string) (pre : list selector) (sel : selector)
    (post : list selector) :
  selectors = pre ++ sel :: post ->
  (forall s, In s pre -> acceptedBy now s doc baseUrl = []) ->
  acceptedBy now sel doc baseUrl <> [] ->
  extractArticles now doc baseUrl = extractArticlesWith now [sel] doc baseUrl
  /\ extractArticles now doc baseUrl = acceptedBy now sel doc baseUrl.
Proof.
  intros Hsels Hpre Hsel. unfold extractArticles. rewrite Hsels.
  rewrite (extractArticlesWith_first_productive _ _ _ _ _ Hpre Hsel).
  split; [|reflexivity].
  symmetry.
  apply (extractArticlesWith_first_productive doc baseUrl [] sel []); [|exact Hsel].
  intros s [].
Qed.

(** *** Containers: distinct URLs *)

Lemma acceptArticle_distinct baseUrl st el :
  distinctUrls st -> distinctUrls (acceptArticle now baseUrl st el).
Proof.
  intros [Hnd Hseen].
  destruct (acceptArticle_cases baseUrl st el) as [->|(a & -> & Hnew)]; [now split|].
  split; cbn [fst snd].
  - rewrite map_app. cbn [map]. apply NoDup_app. repeat split.
    + exact Hnd.
    + intros u Hin Hu%list_elem_of_singleton. subst u.
      apply Hnew, Hseen. now apply list_elem_of_In.
    + apply NoDup_singleton.
  - intros u. rewrite map_app, in_app_iff. cbn [map In].
    rewrite elem_of_union, elem_of_singleton, Hseen. intuition congruence.
Qed.

Lemma fold_accept_distinct baseUrl els st :
  distinctUrls st -> distinctUrls (fold_left (acceptArticle now baseUrl) els st).
Proof.
  revert st. induction els as [|el els IH]; intros st H; [exact H|].
  cbn [fold_left]. now apply IH, acceptArticle_distinct.
Qed.

(** The records accepted from containers have pairwise distinct URLs,
    whatever the list of selectors. *)
Lemma trySelectors_distinct sels doc baseUrl :
  NoDup (map url (fst (trySelectors now sels doc baseUrl ([], ∅)))).
Proof.
  assert (H0 : distinctUrls ([], ∅)).
  { split; [constructor|]. intros u. cbn. set_solver. }
  revert H0. generalize (([], ∅) : list Article * gset string).
  induction sels as [|sel sels IH]; intros st H; [apply H|].
  cbn [trySelectors].
  pose proof (fold_accept_distinct baseUrl (select doc sel) st H) as H'.
  destruct (Nat.ltb 0 _); [apply H'|now apply IH].
Qed.

(** When a container selector accepts a record, the output of
    [extractArticles] has pairwise distinct URLs. *)
Lemma extractArticles_containers_distinct doc baseUrl :
  fst (trySelectors now selectors doc baseUrl ([], ∅)) <> [] ->
  NoDup (map url (extractArticles now doc baseUrl)).
Proof.
  intros Hne. unfold extractArticles, extractArticlesWith.
  pose proof (trySelectors_distinct selectors doc baseUrl) as Hnd.
  destruct (trySelectors now selectors doc baseUrl ([], ∅)) as [articles seen].
  cbn [fst] in *. destruct articles; [contradiction|exact Hnd].
Qed.

End Extraction.

(** ** The pagination engine *)

Lemma length_append_string a b :
  String.length (a +:+ b) = String.length a + String.length b.
Proof. induction a as [|c a IH]; [reflexivity|]. simpl. now rewrite IH. Qed.

Lemma truthy_append_r a b : truthy b = true -> truthy (a +:+ b) = true.
Proof. destruct a; [now simpl|reflexivity]. Qed.

Lemma truthy_append_l a b : truthy a = true -> truthy (a +:+ b) = true.
Proof. now destruct a. Qed.

Lemma length_stripTrailingSlash s :
  String.length s <= S (String.length (stripTrailingSlash s)).
Proof.
  induction s as [|c r IH]; [simpl; lia|].
  cbn [stripTrailingSlash]. destruct r as [|d r'].
  - destruct (Ascii.eqb c "/"); simpl; lia.
  - change (String.length (String c (String d r')))
      with (S (String.length (String d r'))).
    change (String.length (String c (stripTrailingSlash (String d r'))))
      with (S (String.length (stripTrailingSlash (String d r')))).
    lia.
Qed.

(** Appending [/page/N] to the URL without its trailing slash gives a
    different string, whatever [N] is. *)
Lemma appended_page_differs currentUrl num :
  stripTrailingSlash currentUrl +:+ "/page/" +:+ num <> currentUrl.
Proof.
  intros H. apply (f_equal String.length) in H.
  rewrite !length_append_string in H.
  pose proof (length_stripTrailingSlash currentUrl).
  change (String.length "/page/") with 6 in H. lia.
Qed.

Lemma replaceNum_empty pre repl s :
  truthy repl = true -> replaceNum pre repl s = "" -> s = "".
Proof.
  intros Hrepl. destruct s as [|c r]; [reflexivity|].
  cbn [replaceNum]. destruct (matchNumAt pre (String c r)) as [[ds rest]|].
  - intros H. apply (f_equal truthy) in H.
    now rewrite (truthy_append_l _ _ Hrepl) in H.
  - discriminate.
Qed.

Lemma replaceNum_changed_truthy pre repl s :
  truthy repl = true -> replaceNum pre repl s <> s ->
  truthy (replaceNum pre repl s) = true.
Proof.
  intros Hrepl Hne. destruct (replaceNum pre repl s) eqn:E; [|reflexivity].
  exfalso. apply Hne. symmetry. exact (replaceNum_empty _ _ _ Hrepl E).
Qed.

(** Strategy 3 always yields a non-empty candidate. *)
Lemma firstChanged_patterns currentUrl :
  exists next, firstChanged (patterns currentUrl) currentUrl = Some next
               /\ truthy next = true.
Proof.
  unfold patterns. cbn [firstChanged].
  repeat match goal with
  | |- context [String.eqb (replaceNum ?p ?r currentUrl) currentUrl] =>
      destruct (String.eqb (replaceNum p r currentUrl) currentUrl) eqn:?E;
      [cbn [negb]
      |eexists; split; [reflexivity|];
       apply replaceNum_changed_truthy; [reflexivity|now apply String.eqb_neq]]
  end.
  destruct (String.eqb (stripTrailingSlash currentUrl +:+ _) currentUrl) eqn:Happended.
  - apply String.eqb_eq in Happended. now apply appended_page_differs in Happended.
  - eexists. split; [reflexivity|].
    apply truthy_append_r. reflexivity.
Qed.

Section Pagination.
Context {U : URLApi}.

(** Discovery on a loaded page never answers [null]. *)
Lemma discoverNext_some doc currentUrl :
  exists next, discoverNext doc currentUrl = Some next /\ truthy next = true.
Proof.
  unfold discoverNext.
  set (x := if falsy (explicitNext nextSelectors doc currentUrl) then _ else _).
  clearbody x.
  destruct (falsy x) eqn:Hx.
  - destruct (firstChanged_patterns currentUrl) as (next & -> & Hn). eauto.
  - unfold falsy in Hx. apply negb_false_iff in Hx.
    destruct x as [s|]; [|discriminate]. eauto.
Qed.

Lemma findNextPage_loaded web n currentUrl doc :
  web n currentUrl = Return doc ->
  findNextPage web n currentUrl = Return (discoverNext doc currentUrl).
Proof. intros H. unfold findNextPage, axiosGet. now rewrite H. Qed.

Lemma findNextPage_failed web n currentUrl e :
  web n currentUrl = Throw e -> findNextPage web n currentUrl = Return None.
Proof. intros H. unfold findNextPage, axiosGet. now rewrite H. Qed.

Variable now : string.

Lemma scrapePage_returns web n url :
  exists found, scrapePage now web n url = Return found
                /\ (forall e, web n url = Throw e -> found = []).
Proof.
  unfold scrapePage, scrapeWithCheerio, axiosGet.
  destruct (web n url) as [doc|e]; cbn [bind tryCatch]; eexists;
    (split; [reflexivity|]); [discriminate|reflexivity].
Qed.

(** What one turn of the loop does to the page counter, the current URL
    and the list of requests, and when it leaves the loop. *)
Lemma iteration_step web opts st :
  let current := currentPageUrl st in
  let n := length (requests st) in
  let st' := fst (iteration now web opts st) in
  pageCount st' = S (pageCount st)
  /\ requests st' = requests st ++ [current; current]
  /\ match web (S n) current with
     | Throw _ => snd (iteration now web opts st) = Break /\ currentPageUrl st' = current
     | Return doc =>
         exists next, discoverNext doc current = Some next /\ truthy next = true
           /\ if isValidPagination current next opts
              then snd (iteration now web opts st) = Continue /\ currentPageUrl st' = next
              else snd (iteration now web opts st) = Break /\ currentPageUrl st' = current
     end.
Proof.
  cbv zeta. unfold iteration.
  destruct (scrapePage_returns web (length (requests st)) (currentPageUrl st))
    as (found & -> & _).
  destruct (fold_left addNew found _) as [all seen].
  destruct (web (S (length (requests st))) (currentPageUrl st)) as [doc|e] eqn:Hweb.
  - rewrite (findNextPage_loaded _ _ _ _ Hweb).
    destruct (discoverNext_some doc (currentPageUrl st)) as (next & -> & Hn).
    unfold falsy. cbn [orEmpty]. rewrite Hn. cbn [negb andb].
    split; [|split]; [destruct (isValidPagination _ next opts); reflexivity ..|].
    exists next. split; [reflexivity|]. split; [exact Hn|].
    destruct (isValidPagination _ next opts); now split.
  - rewrite (findNextPage_failed _ _ _ _ Hweb). cbn. now repeat split.
Qed.

(** The loop leaves within [maxPages] turns. *)
Lemma whileLoop_terminates web opts fuel st pages :
  maxPages opts - pageCount st < fuel ->
  length pages = pageCount st ->
  requests st = visits pages ->
  exists st' pages',
    whileLoop now fuel web opts st = Some st'
    /\ pageCount st' <= Nat.max (pageCount st) (maxPages opts)
    /\ length pages' = pageCount st'
    /\ requests st' = visits pages'.
Proof.
  revert st pages. induction fuel as [|fuel IH]; intros st pages Hfuel Hlen Hreq; [lia|].
  cbn [whileLoop].
  destruct (truthy (currentPageUrl st) && Nat.ltb (pageCount st) (maxPages opts)) eqn:Hcond.
  - apply andb_prop in Hcond as [_ Hlt%Nat.ltb_lt].
    pose proof (iteration_step web opts st) as (Hpc & Hrq & _).
    destruct (iteration now web opts st) as [st1 flow]. cbn [fst snd] in *.
    assert (Hlen1 : length (pages ++ [currentPageUrl st]) = pageCount st1).
    { rewrite length_app. cbn [length]. lia. }
    assert (Hreq1 : requests st1 = visits (pages ++ [currentPageUrl st])).
    { unfold visits in *. rewrite flat_map_app, <- Hreq, Hrq. reflexivity. }
    destruct flow.
    + destruct (IH st1 _ ltac:(lia) Hlen1 Hreq1) as (st' & pages' & -> & Hle & Hl & Hr).
      exists st', pages'. repeat split; [lia|exact Hl|exact Hr].
    + exists st1, (pages ++ [currentPageUrl st]). repeat split; [lia|exact Hlen1|exact Hreq1].
  - exists st, pages. repeat split; [lia|exact Hlen|exact Hreq].
Qed.

(** C8.  For every network, every starting URL and every page limit, the
    crawl loop of [scrapeMultiplePages] is left after at most [maxPages]
    turns, and the function returns the accumulated articles: with more
    fuel than [maxPages] the loop never runs out.  Each turn visits one
    page, the current one, so the requests made are those of a list of at
    most [maxPages] pages.  A network whose next links form a cycle is one
    of the networks. *)
Theorem scrapeMultiplePages_terminates
    (web : Web) (url : string) (options : CustomOptions) (fuel : nat) :
  maxPages (mergeOptions defaultOptions options) < fuel ->
  exists st pages,
    crawl now fuel web url options = Some st
    /\ scrapeMultiplePages now fuel web url options = Some (Return (allArticles st))
    /\ pageCount st <= maxPages (mergeOptions defaultOptions options)
    /\ length pages = pageCount st
    /\ requests st = visits pages.
Proof.
  intros Hfuel. unfold scrapeMultiplePages, crawl.
  destruct (whileLoop_terminates web (mergeOptions defaultOptions options) fuel
              (initialState url) [] ltac:(cbn [initialState pageCount]; lia)
              eq_refl eq_refl) as (st & pages & -> & Hle & Hlen & Hreq).
  exists st, pages. cbn [option_map initialState pageCount] in *.
  repeat split; [lia|exact Hlen|exact Hreq].
Qed.

End Pagination.

(** ** The crawl loop and its callers *)

Section Crawl.
Context {U : URLApi}.
Variable now : string.

(** Why the loop is left: the page limit, a failed request for the page
    on which the next link is looked up, or a candidate that validation
    rejects. *)
Lemma whileLoop_stops web opts fuel st st' :
  whileLoop now fuel web opts st = Some st' ->
  truthy (currentPageUrl st) = true ->
  pageCount st <= maxPages opts ->
  pageCount st' = maxPages opts
  \/ (exists e, web (pred (length (requests st'))) (currentPageUrl st') = Throw e)
  \/ (exists next,
        findNextPage web (pred (length (requests st'))) (currentPageUrl st')
          = Return (Some next)
        /\ truthy next = true
        /\ isValidPagination (currentPageUrl st') next opts = false).
Proof.
  revert st. induction fuel as [|fuel IH]; intros st Hrun Hurl Hle; [discriminate|].
  cbn [whileLoop] in Hrun. rewrite Hurl in Hrun. cbn [andb] in Hrun.
  destruct (Nat.ltb (pageCount st) (maxPages opts)) eqn:Hlt.
  - apply Nat.ltb_lt in Hlt.
    pose proof (iteration_step now web opts st) as (Hpc & Hrq & Hnext).
    destruct (iteration now web opts st) as [st1 flow]. cbn [fst snd] in *.
    assert (Hidx : pred (length (requests st1)) = S (length (requests st))).
    { rewrite Hrq, length_app. cbn [length]. lia. }
    destruct (web (S (length (requests st))) (currentPageUrl st)) as [doc|e] eqn:Hweb.
    + destruct Hnext as (next & Hdisc & Hn & Hvalid).
      destruct (isValidPagination (currentPageUrl st) next opts) eqn:Hv;
        destruct Hvalid as [-> Hcur].
      * apply (IH st1 Hrun); [now rewrite Hcur|lia].
      * injection Hrun as <-. right. right. exists next.
        rewrite Hidx, Hcur, (findNextPage_loaded _ _ _ _ Hweb), Hdisc. auto.
    + destruct Hnext as [-> Hcur]. injection Hrun as <-.
      right. left. exists e. now rewrite Hidx, Hcur.
  - injection Hrun as <-. left. apply Nat.ltb_ge in Hlt. lia.
Qed.

(** C10.  On a page that was fetched, [findNextPage] never answers [null]:
    the candidate that appends [/page/<n+1>] to the URL without its
    trailing slash always differs from the current URL, so some non-empty
    candidate is returned.  Hence a crawl from a non-empty URL ends in one
    of three ways: the page limit is reached, the request made to look up
    the next link fails, or validation rejects the candidate. *)
Theorem findNextPage_never_null (web : Web) :
  (forall (n : nat) (currentUrl : string) (doc : document),
      web n currentUrl = Return doc ->
      stripTrailingSlash currentUrl +:+ "/page/"
        +:+ numToString (extractPageNumber currentUrl + 1) <> currentUrl
      /\ exists next, findNextPage web n currentUrl = Return (Some next)
                      /\ truthy next = true)
  /\ (forall (fuel : nat) (url : string) (options : CustomOptions) (st : CrawlState),
        truthy url = true ->
        crawl now fuel web url options = Some st ->
        pageCount st = maxPages (mergeOptions defaultOptions options)
        \/ (exists e, web (pred (length (requests st))) (currentPageUrl st) = Throw e)
        \/ (exists next,
              findNextPage web (pred (length (requests st))) (currentPageUrl st)
                = Return (Some next)
              /\ truthy next = true
              /\ isValidPagination (currentPageUrl st) next
                   (mergeOptions defaultOptions options) = false)).
Proof.
  split.
  - intros n currentUrl doc Hweb. split; [apply appended_page_differs|].
    rewrite (findNextPage_loaded _ _ _ _ Hweb).
    destruct (discoverNext_some doc currentUrl) as (next & -> & Hn). eauto.
  - intros fuel url options st Hurl Hrun.
    apply (whileLoop_stops _ _ _ _ _ Hrun Hurl). cbn [initialState pageCount]. lia.
Qed.

(** C9, as amended.  [isValidPagination] answers false when one of the two
    URLs does not parse, when they are the same string, and when
    [sameDomainOnly] is set and the hosts differ.  In every other case it
    answers true exactly when the path of the candidate starts with the
    base path, or contains "page", or the query of the candidate contains
    "page"; the base path is the current path with its first occurrence of
    [/page/<digits>] removed and then its first occurrence of [/p/<digits>]
    removed, wherever they occur.  The two calls of the specification give
    false. *)
Theorem isValidPagination_rule (currentUrl nextUrl : string) (opts : Options) :
  (currentUrl = nextUrl -> isValidPagination currentUrl nextUrl opts = false)
  /\ (newURL currentUrl None = None \/ newURL nextUrl None = None ->
      isValidPagination currentUrl nextUrl opts = false)
  /\ (forall current next,
        newURL currentUrl None = Some current -> newURL nextUrl None = Some next ->
        (sameDomainOnly opts = true -> hostname current <> hostname next ->
         isValidPagination currentUrl nextUrl opts = false)
        /\ (~ (sameDomainOnly opts = true /\ hostname current <> hostname next) ->
            currentUrl <> nextUrl ->
            isValidPagination currentUrl nextUrl opts
            = startsWith (pathname next)
                (replaceNum "/p/" "" (replaceNum "/page/" "" (pathname current)))
              || includes (pathname next) "page"
              || includes (search next) "page"))
  /\ isValidPagination (U:=SimpleURL) "https://a.com/p/1" "https://a.com/p/1"
       {| maxPages := 5; delayBetweenPages := 1000; sameDomainOnly := true |} = false
  /\ isValidPagination (U:=SimpleURL) "https://a.com/p/1" "https://b.com/p/2"
       {| maxPages := 5; delayBetweenPages := 1000; sameDomainOnly := true |} = false.
Proof.
  split; [|split; [|split; [|split; reflexivity]]].
  - intros <-. unfold isValidPagination.
    destruct (newURL currentUrl None) as [current|]; [|reflexivity].
    rewrite String.eqb_refl, (String.eqb_refl currentUrl).
    now destruct (sameDomainOnly opts).
  - unfold isValidPagination. intros [->| ->]; [reflexivity|].
    now destruct (newURL currentUrl None).
  - intros current next Hc Hn. unfold isValidPagination. rewrite Hc, Hn. split.
    + intros -> Hhost. apply String.eqb_neq in Hhost. now rewrite Hhost.
    + intros Hsame Hne. apply String.eqb_neq in Hne. rewrite Hne.
      destruct (sameDomainOnly opts) eqn:Hs; [|reflexivity].
      destruct (String.eqb (hostname current) (hostname next)) eqn:Hh; [reflexivity|].
      exfalso. apply Hsame. split; [reflexivity|]. now apply String.eqb_neq.
Qed.

(** C2, as amended.  When the request for the first page fails, no failure
    is reported.  [scrapeWithCheerio] answers the empty list, so
    [scrapeNews] returns no article and does not throw, and [runOnce]
    answers [success: true] with a count of 0 and no article.  With
    pagination, this is so when the second request for that page, the one
    that looks up the next link, fails as well. *)
Theorem runOnce_first_fetch_failure
    (web : Web) (storage : NewsScheduler.Storage) (config : NewsScheduler.Config)
    (fuel : nat) (e : string) :
  web 0 (NewsScheduler.url config) = Throw e ->
  (NewsScheduler.usePagination config && Nat.ltb 1 (NewsScheduler.maxPages config) = true ->
   0 < fuel /\ exists e', web 1 (NewsScheduler.url config) = Throw e') ->
  scrapeNews now web 0 (NewsScheduler.url config) = Return []
  /\ NewsScheduler.runOnce now fuel web storage config
     = Some (Return {| NewsScheduler.success := true;
                       NewsScheduler.count := Some 0;
                       NewsScheduler.articles := Some [];
                       NewsScheduler.filepath := None;
                       NewsScheduler.error := None |}).
Proof.
  intros Hweb Hpag.
  assert (Hnews : scrapeNews now web 0 (NewsScheduler.url config) = Return []).
  { unfold scrapeNews, scrapeWithCheerio, axiosGet. now rewrite Hweb. }
  split; [exact Hnews|].
  unfold NewsScheduler.runOnce.
  destruct (NewsScheduler.usePagination config && Nat.ltb 1 (NewsScheduler.maxPages config))
    eqn:Hmode.
  - destruct (Hpag eq_refl) as (Hfuel & e' & Hweb').
    destruct fuel as [|fuel]; [lia|].
    unfold scrapeMultiplePages, crawl. cbn [whileLoop].
    destruct (truthy _ && _); [|reflexivity].
    unfold iteration. cbn [initialState currentPageUrl requests length allArticles seenUrls].
    unfold scrapePage, scrapeWithCheerio, axiosGet. rewrite Hweb. cbn [bind tryCatch fold_left].
    rewrite (findNextPage_failed _ _ _ _ Hweb'). reflexivity.
  - rewrite Hnews. reflexivity.
Qed.

End Crawl.

(** ** The code on the sample pages *)

(** The date fallbacks are never consulted: the date is read from the first
    [time] element or it is empty. *)
Lemma findDate_only_time article :
  findDate article
  = if nonEmpty (first (find (tag "time") article))
    then orElse (attr "datetime" (first (find (tag "time") article)))
                (trim (text (first (find (tag "time") article))))
    else "".
Proof.
  unfold findDate, orSel, truthyObject.
  destruct (nonEmpty _); [|reflexivity].
  f_equal. cbn [orElse]. now destruct (trim _).
Qed.

(** With three slashes in it, a URL passes the heuristic as soon as no skip
    pattern matches; [https://host/] has three. *)
Lemma looksLikeArticleUrl_three_slashes url :
  3 <= countChar "/" (toLowerCase url) ->
  looksLikeArticleUrl url
  = negb (existsb (fun pattern => pattern (toLowerCase url)) skipPatterns).
Proof.
  intros H. unfold looksLikeArticleUrl, splitLength.
  destruct (existsb _ skipPatterns); [reflexivity|].
  cbn [negb]. apply orb_true_iff. right. apply Nat.leb_le. lia.
Qed.

(** C1.  On a page without containers, where two anchors lead to the same
    address, the link-harvesting pass returns two records with that URL:
    the set of seen URLs is not consulted on this path. *)
Theorem link_harvest_repeats_url :
  map url (extractArticles (U:=SimpleURL) clock twoAnchorsPage site)
  = ["https://a.com/about"; "https://a.com/about"]
  /\ ~ NoDup (map url (extractArticles (U:=SimpleURL) clock twoAnchorsPage site)).
Proof.
  assert (E : map url (extractArticles (U:=SimpleURL) clock twoAnchorsPage site)
              = ["https://a.com/about"; "https://a.com/about"]) by (vm_compute; reflexivity).
  split; [exact E|]. rewrite E. intros [Hnotin _]%NoDup_cons.
  apply Hnotin. constructor.
Qed.

(** C2, counterexample.  The site is down, and [runOnce] reports success;
    [scrapeNews] returns the empty list instead of throwing. *)
Lemma fetch_failure_reported_as_success :
  offline 0 site = Throw "connect ECONNREFUSED"
  /\ scrapeNews (U:=SimpleURL) clock offline 0 site = Return []
  /\ exists r, NewsScheduler.runOnce (U:=SimpleURL) clock 1 offline diskStorage onePage
               = Some (Return r)
               /\ NewsScheduler.success r = true.
Proof.
  split; [reflexivity|]. split; [reflexivity|].
  eexists. split; [vm_compute; reflexivity|reflexivity].
Qed.

(** The same on a crawl of up to three pages of the site that is down. *)
Lemma runOnce_first_fetch_failure_witness :
  offline 0 (NewsScheduler.url threePages) = Throw "connect ECONNREFUSED"
  /\ scrapeNews (U:=SimpleURL) clock offline 0 (NewsScheduler.url threePages) = Return []
  /\ NewsScheduler.runOnce (U:=SimpleURL) clock 1 offline diskStorage threePages
     = Some (Return {| NewsScheduler.success := true;
                       NewsScheduler.count := Some 0;
                       NewsScheduler.articles := Some [];
                       NewsScheduler.filepath := None;
                       NewsScheduler.error := None |}).
Proof.
  split; [reflexivity|].
  apply (runOnce_first_fetch_failure (U:=SimpleURL) clock offline diskStorage threePages 1
           "connect ECONNREFUSED").
  - reflexivity.
  - intros _. split; [lia|]. exists "connect ECONNREFUSED". reflexivity.
Defined.

(** C3, counterexample.  The author is written "John   Smith" in the page
    and in the record: the run of three spaces is not collapsed. *)
Lemma author_keeps_inner_spaces :
  exists r, parseArticle (U:=SimpleURL) clock [authorCard] site = Some r
            /\ author r = "John   Smith"
            /\ normalized (author r) = false.
Proof. eexists. split; [vm_compute; reflexivity|]. split; reflexivity. Qed.

(** The record of [authorCard]: title and description normalized, author
    trimmed. *)
Lemma parseArticle_text_fields_witness :
  parseArticle (U:=SimpleURL) clock [authorCard] site
  = Some {| title := "Budget vote"; url := "https://a.com/news/budget";
            description := ""; image := ""; date := "";
            author := "John   Smith"; scrapedAt := clock |}
  /\ normalized "Budget vote" = true
  /\ normalized "" = true
  /\ ("John   Smith" = ""
      \/ exists el,
           (In el (find (attrContains "class" "author") [authorCard])
            \/ In el (find (attrContains "rel" "author") [authorCard]))
           /\ "John   Smith" = trim (text [el]))
  /\ trimmed "John   Smith" = true.
Proof.
  split; [vm_compute; reflexivity|].
  apply (parseArticle_text_fields (U:=SimpleURL) clock [authorCard] site
           {| title := "Budget vote"; url := "https://a.com/news/budget";
              description := ""; image := ""; date := "";
              author := "John   Smith"; scrapedAt := clock |}).
  vm_compute. reflexivity.
Defined.

(** C4.  A container without a [time] element whose date is in an element
    of class "post-date": the record has no date.  The first [find] of the
    chain of [||] is a Cheerio object, which is truthy even when empty, so
    the two fallbacks are never evaluated. *)
Theorem date_fallbacks_not_reached :
  find (tag "time") [dateCard] = []
  /\ text (first (find (attrContains "class" "date") [dateCard])) = "2024-01-01"
  /\ exists r, parseArticle (U:=SimpleURL) clock [dateCard] site = Some r
               /\ date r = "".
Proof.
  split; [reflexivity|]. split; [reflexivity|].
  eexists. split; [vm_compute; reflexivity|reflexivity].
Qed.

(** C5.  A container whose only description candidate is the paragraph
    "short" (5 characters): the record's description is "short", not the
    empty string.  The candidate is stored in [description] before its
    length is compared with 20, and is left there. *)
Theorem short_description_kept :
  Nat.ltb 20 (String.length "short") = false
  /\ exists r, parseArticle (U:=SimpleURL) clock [shortCard] site = Some r
               /\ description r = "short".
Proof.
  split; [reflexivity|].
  eexists. split; [vm_compute; reflexivity|reflexivity].
Qed.

(** C6.  The address [https://a.com/about] has a path of one segment and
    matches no article pattern, and the link-harvesting pass keeps it: the
    count of at least four pieces is taken on the whole URL split at "/",
    where the scheme and the host already make three. *)
Theorem shallow_url_kept :
  pathSegments "/about" = 1
  /\ existsb (fun pattern => pattern "https://a.com/about") articlePatterns = false
  /\ splitLength "/" "https://a.com/about" = 4
  /\ looksLikeArticleUrl "https://a.com/about" = true
  /\ map url (extractArticles (U:=SimpleURL) clock aboutPage site) = ["https://a.com/about"].
Proof. repeat split; vm_compute; reflexivity. Qed.

(** On [mixedPage] no [article] element exists, [class*="article"] accepts
    two records, and the [.item] container is left out. *)
Lemma extractArticles_selector_precedence_witness :
  selectors = [tag "article"] ++ attrContains "class" "article" :: skipn 2 selectors
  /\ extractArticles (U:=SimpleURL) clock mixedPage site
     = extractArticlesWith (U:=SimpleURL) clock [attrContains "class" "article"] mixedPage site
  /\ map url (extractArticles (U:=SimpleURL) clock mixedPage site)
     = ["https://a.com/news/budget"; "https://a.com/news/election"].
Proof.
  split; [reflexivity|].
  destruct (extractArticles_selector_precedence (U:=SimpleURL) clock mixedPage site
              [tag "article"] (attrContains "class" "article") (skipn 2 selectors))
    as [H1 H2].
  - reflexivity.
  - intros s [<-|[]]. vm_compute. reflexivity.
  - vm_compute. discriminate.
  - split; [exact H1|]. rewrite H2. vm_compute. reflexivity.
Defined.

(** The crawl of the two pages that point at each other, with a limit of
    three pages. *)
Lemma scrapeMultiplePages_terminates_witness :
  maxPages (mergeOptions defaultOptions (mkCustom (Some 3) None None)) < 4
  /\ exists st pages,
       crawl (U:=SimpleURL) clock 4 cyclicWeb "https://a.com/list" (mkCustom (Some 3) None None)
         = Some st
       /\ scrapeMultiplePages (U:=SimpleURL) clock 4 cyclicWeb "https://a.com/list"
            (mkCustom (Some 3) None None) = Some (Return (allArticles st))
       /\ pageCount st <= 3
       /\ length pages = pageCount st
       /\ requests st = visits pages.
Proof.
  split; [cbn; lia|].
  apply (scrapeMultiplePages_terminates (U:=SimpleURL) clock cyclicWeb "https://a.com/list"
           (mkCustom (Some 3) None None) 4).
  cbn. lia.
Defined.

(** The crawl of the two pages that point at each other: three turns, the
    first page again on the third. *)
Lemma cyclic_crawl_requests :
  option_map (fun st => (pageCount st, requests st))
    (crawl (U:=SimpleURL) clock 4 cyclicWeb "https://a.com/list" (mkCustom (Some 3) None None))
  = Some (3, visits ["https://a.com/list"; "https://a.com/list/page/2"; "https://a.com/list"]).
Proof. vm_compute. reflexivity. Qed.

(** C9, counterexample.  The current path [/blog/p/2/] ends in a slash, not
    in [/p/<digits>], so the rule of the specification compares the
    candidate path [/blog/p/3/] with the whole of it and rejects; the code
    removes [/p/2] from inside the path, compares with [/blog/] and
    accepts. *)
Lemma base_path_stripped_anywhere :
  isValidNext (U:=SimpleURL) "https://a.com/blog/p/2/" "https://a.com/blog/p/3/" true
  = false
  /\ isValidPagination (U:=SimpleURL) "https://a.com/blog/p/2/" "https://a.com/blog/p/3/"
       {| maxPages := 5; delayBetweenPages := 1000; sameDomainOnly := true |} = true.
Proof. split; reflexivity. Qed.

(** The rule on the pair of URLs above. *)
Lemma isValidPagination_rule_witness :
  newURL (URLApi:=SimpleURL) "https://a.com/blog/p/2/" None
  = Some {| href := "https://a.com/blog/p/2/"; hostname := "a.com";
            pathname := "/blog/p/2/"; search := "" |}
  /\ newURL (URLApi:=SimpleURL) "https://a.com/blog/p/3/" None
     = Some {| href := "https://a.com/blog/p/3/"; hostname := "a.com";
               pathname := "/blog/p/3/"; search := "" |}
  /\ isValidPagination (U:=SimpleURL) "https://a.com/blog/p/2/" "https://a.com/blog/p/3/"
       defaultOptions
     = startsWith "/blog/p/3/" "/blog/" || includes "/blog/p/3/" "page" || includes "" "page".
Proof.
  split; [reflexivity|]. split; [reflexivity|].
  destruct (isValidPagination_rule (U:=SimpleURL) "https://a.com/blog/p/2/"
              "https://a.com/blog/p/3/" defaultOptions) as (_ & _ & H & _).
  destruct (H {| href := "https://a.com/blog/p/2/"; hostname := "a.com";
                 pathname := "/blog/p/2/"; search := "" |}
              {| href := "https://a.com/blog/p/3/"; hostname := "a.com";
                 pathname := "/blog/p/3/"; search := "" |} eq_refl eq_refl) as [_ Hrule].
  apply Hrule.
  - intros [_ Hhost]. now apply Hhost.
  - discriminate.
Defined.

(** A site without any link: a candidate is synthesized on every page and
    the crawl ends at the page limit. *)
Lemma findNextPage_never_null_witness :
  plainWeb 0 site = Return (page [Element "p" [] [Text "Nothing here"]])
  /\ (exists next, findNextPage (U:=SimpleURL) plainWeb 0 site = Return (Some next)
                    /\ truthy next = true)
  /\ exists st,
       crawl (U:=SimpleURL) clock 4 plainWeb "https://a.com/list" (mkCustom (Some 3) None None)
         = Some st
       /\ (pageCount st = 3
           \/ (exists e, plainWeb (pred (length (requests st))) (currentPageUrl st) = Throw e)
           \/ (exists next,
                 findNextPage (U:=SimpleURL) plainWeb (pred (length (requests st)))
                   (currentPageUrl st) = Return (Some next)
                 /\ truthy next = true
                 /\ isValidPagination (U:=SimpleURL) (currentPageUrl st) next
                      (mergeOptions defaultOptions (mkCustom (Some 3) None None)) = false)).
Proof.
  destruct (findNextPage_never_null (U:=SimpleURL) clock plainWeb) as [Hcand Hstop].
  split; [reflexivity|]. split.
  - exact (proj2 (Hcand 0 site _ eq_refl)).
  - destruct (crawl (U:=SimpleURL) clock 4 plainWeb "https://a.com/list"
                (mkCustom (Some 3) None None)) as [st|] eqn:Hrun.
    + exists st. split; [reflexivity|]. apply (Hstop 4 "https://a.com/list" _ st eq_refl Hrun).
    + vm_compute in Hrun. discriminate Hrun.
Defined.

(* ================================================================== *)
(** * Further properties *)
(* ================================================================== *)

Import Notions.

(** ** cleanText *)

Lemma length_collapseRuns cls s :
  String.length (collapseRuns cls s) <= String.length s.
Proof.
  induction s as [|c r IH]; [reflexivity|].
  cbn [collapseRuns]. destruct (cls c).
  - destruct r as [|d r']; [reflexivity|].
    destruct (cls d); cbn [String.length] in *; lia.
  - cbn [String.length]. lia.
Qed.

Lemma length_trimStart s : String.length (trimStart s) <= String.length s.
Proof.
  induction s as [|c r IH]; [reflexivity|].
  cbn [trimStart]. destruct (isSpace c); cbn [String.length] in *; lia.
Qed.

Lemma length_trimEnd s : String.length (trimEnd s) <= String.length s.
Proof.
  induction s as [|c r IH]; [reflexivity|].
  cbn [trimEnd]. destruct (isSpace c && negb (truthy (trimEnd r)));
    cbn [String.length] in *; lia.
Qed.

Lemma length_cleanText s : String.length (cleanText s) <= String.length s.
Proof.
  unfold cleanText. destruct (negb (truthy s)); [cbn; lia|].
  unfold trim.
  pose proof (length_trimEnd (trimStart (collapseRuns isNewline (collapseRuns isSpace s)))).
  pose proof (length_trimStart (collapseRuns isNewline (collapseRuns isSpace s))).
  pose proof (length_collapseRuns isNewline (collapseRuns isSpace s)).
  pose proof (length_collapseRuns isSpace s). lia.
Qed.

Lemma withoutSpace_collapseRuns cls s :
  (forall c, cls c = true -> isSpace c = true) ->
  withoutSpace (collapseRuns cls s) = withoutSpace s.
Proof.
  intros Hcls. induction s as [|c r IH]; [reflexivity|].
  cbn [collapseRuns]. destruct (cls c) eqn:Hc.
  - cbn [withoutSpace]. rewrite (Hcls c Hc).
    destruct r as [|d r']; [reflexivity|].
    destruct (cls d) eqn:Hd; [exact IH|].
    change (withoutSpace (String " " (collapseRuns cls (String d r')))
            = withoutSpace (String d r')).
    cbn [withoutSpace] in *. exact IH.
  - cbn [withoutSpace]. now rewrite IH.
Qed.

Lemma withoutSpace_trimStart s : withoutSpace (trimStart s) = withoutSpace s.
Proof.
  induction s as [|c r IH]; [reflexivity|].
  cbn [trimStart withoutSpace]. destruct (isSpace c) eqn:Hc; [exact IH|].
  cbn [withoutSpace]. now rewrite Hc.
Qed.

Lemma withoutSpace_trimEnd s : withoutSpace (trimEnd s) = withoutSpace s.
Proof.
  induction s as [|c r IH]; [reflexivity|].
  cbn [trimEnd withoutSpace].
  destruct (isSpace c) eqn:Hc; cbn [andb].
  - destruct (trimEnd r) as [|d r'] eqn:E; cbn [truthy negb].
    + now rewrite <- IH.
    + cbn [withoutSpace]. now rewrite Hc.
  - cbn [withoutSpace]. now rewrite Hc, IH.
Qed.

(** X1.  [cleanText] touches white space only: the other characters of the
    text come out unchanged and in the same order, and the result is never
    longer than the text. *)
Theorem cleanText_keeps_text (s : string) :
  withoutSpace (cleanText s) = withoutSpace s
  /\ String.length (cleanText s) <= String.length s.
Proof.
  split; [|apply length_cleanText].
  unfold cleanText. destruct s as [|c r]; [reflexivity|].
  cbn [truthy negb]. unfold trim.
  rewrite withoutSpace_trimEnd, withoutSpace_trimStart.
  rewrite (withoutSpace_collapseRuns isNewline _ isNewline_isSpace).
  now apply withoutSpace_collapseRuns.
Qed.

(** X2.  [cleanText] is idempotent: cleaning a cleaned text changes
    nothing. *)
Theorem cleanText_idempotent (s : string) :
  cleanText (cleanText s) = cleanText s.
Proof. apply cleanText_fixes_normalized, cleanText_normalized. Qed.

(** ** Records of the extraction engine *)

Lemma length_substring_le n s : String.length (substring 0 n s) <= n.
Proof.
  revert s. induction n as [|n IH]; intros s.
  - destruct s; cbn; lia.
  - destruct s as [|c r]; cbn [substring String.length]; [lia|].
    specialize (IH r). lia.
Qed.

Lemma startsWithSpace_trim s : startsWithSpace (trim s) = false.
Proof. apply startsWithSpace_trimEnd, startsWithSpace_trimStart. Qed.

Lemma truthy_cleanText s :
  truthy s = true -> startsWithSpace s = false -> truthy (cleanText s) = true.
Proof.
  destruct s as [|c r]; [discriminate|]. cbn [startsWithSpace]. intros _ Hc.
  assert (Hn : isNewline c = false).
  { destruct (isNewline c) eqn:E; [|reflexivity].
    apply isNewline_isSpace in E. congruence. }
  unfold cleanText, trim. cbn [truthy negb collapseRuns]. rewrite Hc.
  cbn [collapseRuns]. rewrite Hn. cbn [trimStart]. rewrite Hc.
  cbn [trimEnd]. now rewrite Hc.
Qed.

Section Records.
Context {U : URLApi}.
Variable now : string.

Lemma findTitle_no_leading_space sels t article :
  startsWithSpace t = false ->
  startsWithSpace (findTitle sels t article) = false.
Proof.
  revert t. induction sels as [|sel sels IH]; intros t Ht; [exact Ht|].
  cbn [findTitle]. destruct (nonEmpty _); [|now apply IH].
  destruct (truthy (trim _)); [apply startsWithSpace_trim|].
  apply IH, startsWithSpace_trim.
Qed.

Lemma findDescription_length sels d article :
  String.length d <= 500 ->
  String.length (findDescription sels d article) <= 500.
Proof.
  revert d. induction sels as [|sel sels IH]; intros d Hd; [exact Hd|].
  cbn [findDescription]. destruct (nonEmpty _); [|now apply IH].
  destruct (truthy (trim _) && Nat.ltb 20 (String.length (trim _))) eqn:E.
  - apply length_substring_le.
  - apply IH. apply andb_false_iff in E as [E|E].
    + destruct (trim _); [cbn; lia|discriminate].
    + apply Nat.ltb_ge in E. lia.
Qed.

Lemma isValidUrl_scheme url :
  isValidUrl url = true ->
  startsWith url "http://" || startsWith url "https://" = true.
Proof. unfold isValidUrl. now destruct (newURL url None). Qed.

Lemma parseArticle_wellFormed article baseUrl r :
  parseArticle now article baseUrl = Some r -> wellFormed r.
Proof.
  unfold parseArticle.
  destruct (truthy (findTitle _ _ _) && truthy (findUrl _ _ _ _) && isValidUrl _) eqn:E;
    [|discriminate].
  apply andb_prop in E as [[Ht Hu]%andb_prop Hv].
  intros [= <-]. unfold wellFormed. cbn [title url description].
  repeat split.
  - apply truthy_cleanText; [exact Ht|].
    exact (findTitle_no_leading_space titleSelectors "" article eq_refl).
  - apply cleanText_normalized.
  - exact Hv.
  - now apply isValidUrl_scheme.
  - apply cleanText_normalized.
  - etransitivity; [apply length_cleanText|].
    apply (findDescription_length descSelectors "" article). cbn. lia.
Qed.

Lemma acceptArticle_wellFormed baseUrl st el :
  Forall wellFormed (fst st) ->
  Forall wellFormed (fst (acceptArticle now baseUrl st el)).
Proof.
  destruct st as [articles seen]. unfold acceptArticle. intros H.
  destruct (parseArticle now [el] baseUrl) as [a|] eqn:E; [|exact H].
  destruct (_ && _); [|exact H].
  cbn [fst]. apply Forall_app. split; [exact H|].
  constructor; [|constructor]. exact (parseArticle_wellFormed _ _ _ E).
Qed.

Lemma trySelectors_wellFormed sels doc baseUrl st :
  Forall wellFormed (fst st) ->
  Forall wellFormed (fst (trySelectors now sels doc baseUrl st)).
Proof.
  revert st. induction sels as [|sel sels IH]; intros st H; [exact H|].
  cbn [trySelectors].
  assert (H' : Forall wellFormed
                 (fst (fold_left (acceptArticle now baseUrl) (select doc sel) st))).
  { revert st H. induction (select doc sel) as [|el els IHe]; intros st H; [exact H|].
    cbn [fold_left]. now apply IHe, acceptArticle_wellFormed. }
  destruct (Nat.ltb 0 _); [exact H'|now apply IH].
Qed.

Lemma harvestLink_harvested baseUrl articles el :
  Forall harvested articles -> Forall harvested (harvestLink now baseUrl articles el).
Proof.
  intros H. unfold harvestLink.
  set (t := trim (text [el])).
  destruct (negb (truthy t) || Nat.ltb (String.length t) 15
            || Nat.ltb 200 (String.length t)) eqn:Ht; [exact H|].
  apply orb_false_iff in Ht as [[Ht1 Ht2]%orb_false_iff Ht3].
  apply negb_false_iff in Ht1. apply Nat.ltb_ge in Ht3.
  destruct (existsb _ skipClasses); [exact H|].
  destruct (newURL _ (Some baseUrl)) as [u|]; [|exact H].
  destruct (isValidUrl (href u) && looksLikeArticleUrl (href u)) eqn:Hu; [|exact H].
  apply andb_prop in Hu as [Hv Hl].
  apply Forall_app. split; [exact H|]. constructor; [|constructor].
  unfold harvested, wellFormed. cbn [title url description image date author].
  pose proof (length_cleanText t).
  repeat split; try reflexivity; try assumption.
  - apply truthy_cleanText; [exact Ht1|apply startsWithSpace_trim].
  - apply cleanText_normalized.
  - now apply isValidUrl_scheme.
  - cbn. lia.
  - lia.
Qed.

Lemma extractFromLinks_harvested doc baseUrl :
  Forall harvested (extractFromLinks now doc baseUrl).
Proof.
  unfold extractFromLinks.
  assert (H : forall els acc, Forall harvested acc ->
                Forall harvested (fold_left (harvestLink now baseUrl) els acc)).
  { induction els as [|el els IH]; intros acc Hacc; [exact Hacc|].
    cbn [fold_left]. now apply IH, harvestLink_harvested. }
  specialize (H (select doc [[[Tag "a"; HasAttr "href"]]]) [] ltac:(constructor)).
  rewrite <- (firstn_skipn 50) in H. now apply Forall_app in H as [H _].
Qed.

Lemma extractArticles_wellFormed doc baseUrl :
  Forall wellFormed (extractArticles now doc baseUrl).
Proof.
  unfold extractArticles, extractArticlesWith.
  pose proof (trySelectors_wellFormed selectors doc baseUrl ([], ∅) ltac:(constructor)) as Hc.
  destruct (trySelectors now selectors doc baseUrl ([], ∅)) as [articles seen].
  cbn [fst] in Hc. destruct (Nat.eqb (length articles) 0); [|exact Hc].
  apply Forall_app. split; [exact Hc|].
  eapply Forall_impl; [apply extractFromLinks_harvested|]. now intros a [Ha _].
Qed.

(** X3.  Every record returned by [extractArticles], from a container or
    from a harvested link, has a non-empty normalized title, an address
    that parses and begins with [http://] or [https://], and a normalized
    description of at most 500 characters. *)
Theorem extractArticles_records_wellFormed
    (doc : document) (baseUrl : string) (r : Article) :
  In r (extractArticles now doc baseUrl) ->
  truthy (title r) = true
  /\ normalized (title r) = true
  /\ isValidUrl (url r) = true
  /\ startsWith (url r) "http://" || startsWith (url r) "https://" = true
  /\ normalized (description r) = true
  /\ String.length (description r) <= 500.
Proof.
  intros Hin. change (wellFormed r).
  pose proof (extractArticles_wellFormed doc baseUrl) as H.
  rewrite Forall_forall in H. apply H. now apply list_elem_of_In.
Qed.

(** X4.  The link-harvesting pass returns at most 50 records; each has a
    title of at most 200 characters, an address that the article heuristic
    accepts (so none of the skip patterns occurs in it), and no
    description, image, date or author. *)
Theorem extractFromLinks_records (doc : document) (baseUrl : string) :
  length (extractFromLinks now doc baseUrl) <= 50
  /\ forall r, In r (extractFromLinks now doc baseUrl) ->
       String.length (title r) <= 200
       /\ looksLikeArticleUrl (url r) = true
       /\ existsb (fun pattern => pattern (toLowerCase (url r))) skipPatterns = false
       /\ description r = "" /\ image r = "" /\ date r = "" /\ author r = "".
Proof.
  split.
  - unfold extractFromLinks. rewrite length_firstn. lia.
  - intros r Hin.
    pose proof (extractFromLinks_harvested doc baseUrl) as H.
    rewrite Forall_forall in H. apply list_elem_of_In, H in Hin.
    destruct Hin as (_ & Hlen & Hd & Hi & Hda & Ha & Hl).
    repeat split; try assumption.
    unfold looksLikeArticleUrl in Hl. now destruct (existsb _ skipPatterns).
Qed.

End Records.

(** ** Containers without a link *)

Lemma node_induction (P : node -> Prop) :
  (forall data, P (Text data)) ->
  (forall tag attribs children, Forall P children -> P (Element tag attribs children)) ->
  forall n, P n.
Proof.
  intros HT HE. fix IH 1. intros [data|tagName attribs children]; [apply HT|].
  apply HE. induction children as [|c cs IHcs]; constructor; [apply IH|exact IHcs].
Qed.

Lemma matchesSelector_hasAttr_href ancestors n :
  hasHref n = true -> matchesSelector (hasAttr "href") ancestors n = true.
Proof.
  destruct n as [data|tagName attribs children]; [discriminate|].
  cbn. now destruct (lookupAttr "href" attribs).
Qed.

Lemma selectIn_hasHref sel n :
  forall ancestors x,
    In x (selectIn sel ancestors n) -> hasHref x = true ->
    In x (selectIn (hasAttr "href") ancestors n).
Proof.
  induction n as [data|tagName attribs children IH] using node_induction;
    intros ancestors x Hin Hx; [destruct Hin|].
  cbn [selectIn] in *. apply in_app_iff in Hin as [Hin|Hin]; apply in_app_iff.
  - left. destruct (matchesSelector sel ancestors _); [|destruct Hin].
    destruct Hin as [<-|[]].
    rewrite (matchesSelector_hasAttr_href ancestors _ Hx). now left.
  - right. apply in_flat_map in Hin as (child & Hchild & Hin).
    apply in_flat_map. exists child. split; [exact Hchild|].
    rewrite Forall_forall in IH.
    exact (IH child (proj2 (list_elem_of_In _ _) Hchild) _ _ Hin Hx).
Qed.

Lemma find_hasHref sel article x :
  In x (find sel article) -> hasHref x = true ->
  In x (find (hasAttr "href") article).
Proof.
  unfold find. intros (n & Hn & Hin)%in_flat_map Hx.
  apply in_flat_map. exists n. split; [exact Hn|].
  destruct n as [data|tagName attribs children]; [destruct Hin|].
  apply in_flat_map in Hin as (child & Hchild & Hin).
  apply in_flat_map. exists child. split; [exact Hchild|].
  now apply (selectIn_hasHref sel).
Qed.

Lemma attr_href_absent sel article :
  find (hasAttr "href") article = [] ->
  attr "href" (first (find sel article)) = None.
Proof.
  intros Hnone. unfold first.
  destruct (find sel article) as [|x l] eqn:E; [reflexivity|].
  cbn [firstn attr]. destruct x as [data|tagName attribs children]; [reflexivity|].
  destruct (lookupAttr "href" attribs) as [v|] eqn:Hv; [|reflexivity].
  exfalso.
  assert (Hin : In (Element tagName attribs children) (find sel article))
    by (rewrite E; now left).
  apply (find_hasHref sel) in Hin; [|cbn; now rewrite Hv].
  now rewrite Hnone in Hin.
Qed.

Section NoLink.
Context {U : URLApi}.
Variable now : string.

Lemma findUrl_without_href sels article baseUrl :
  find (hasAttr "href") article = [] ->
  findUrl sels "" article baseUrl = "".
Proof.
  intros Hnone. induction sels as [|sel sels IH]; [reflexivity|].
  cbn [findUrl]. rewrite (attr_href_absent sel article Hnone).
  cbn [orElse truthy]. now destruct (nonEmpty _).
Qed.

(** X5.  A container in which no element carries an [href] attribute gives
    no record, whatever else it contains. *)
Theorem parseArticle_needs_href (article : selection) (baseUrl : string) :
  find (hasAttr "href") article = [] ->
  parseArticle now article baseUrl = None.
Proof.
  intros Hnone. unfold parseArticle.
  rewrite (findUrl_without_href linkSelectors article baseUrl Hnone).
  cbn [truthy]. now rewrite andb_false_r.
Qed.

End NoLink.

(** ** The article heuristic *)

Lemma lowerChar_idempotent c : lowerChar (lowerChar c) = lowerChar c.
Proof. destruct c as [[] [] [] [] [] [] [] []]; reflexivity. Qed.

Lemma toLowerCase_idempotent s : toLowerCase (toLowerCase s) = toLowerCase s.
Proof.
  induction s as [|c r IH]; [reflexivity|].
  cbn [toLowerCase]. now rewrite lowerChar_idempotent, IH.
Qed.

(** X6.  The article heuristic does not depend on the case of the letters
    of the address. *)
Theorem looksLikeArticleUrl_ignores_case (url : string) :
  looksLikeArticleUrl (toLowerCase url) = looksLikeArticleUrl url.
Proof. unfold looksLikeArticleUrl. now rewrite toLowerCase_idempotent. Qed.

(** ** The crawl: what is accumulated *)

Section CrawlResult.
Context {U : URLApi}.
Variable now : string.

Lemma addNew_cases st a :
  addNew st a = st
  \/ (addNew st a = (fst st ++ [a], {[url a]} ∪ snd st) /\ url a ∉ snd st).
Proof.
  destruct st as [all seen]. unfold addNew.
  destruct (bool_decide (url a ∈ seen)) eqn:E; cbn [negb]; [now left|].
  right. split; [reflexivity|]. now apply bool_decide_eq_false in E.
Qed.

Lemma addNew_distinct st a : distinctUrls st -> distinctUrls (addNew st a).
Proof.
  intros [Hnd Hseen].
  destruct (addNew_cases st a) as [->|[-> Hnew]]; [now split|].
  split; cbn [fst snd].
  - rewrite map_app. cbn [map]. apply NoDup_app. repeat split.
    + exact Hnd.
    + intros u Hin Hu%list_elem_of_singleton. subst u.
      apply Hnew, Hseen. now apply list_elem_of_In.
    + apply NoDup_singleton.
  - intros u. rewrite map_app, in_app_iff. cbn [map In].
    rewrite elem_of_union, elem_of_singleton, Hseen. intuition congruence.
Qed.

Lemma fold_addNew found st :
  distinctUrls st -> Forall wellFormed (fst st) -> Forall wellFormed found ->
  let st' := fold_left addNew found st in
  distinctUrls st' /\ Forall wellFormed (fst st')
  /\ exists added, fst st' = fst st ++ added.
Proof.
  revert st. induction found as [|a found IH]; intros st Hd Hw Hf; cbv zeta.
  - repeat split; [apply Hd..|exact Hw|]. exists []. now rewrite app_nil_r.
  - cbn [fold_left]. apply Forall_cons in Hf as [Ha Hf].
    assert (Hw' : Forall wellFormed (fst (addNew st a))).
    { destruct (addNew_cases st a) as [->|[-> _]]; [exact Hw|].
      cbn [fst]. apply Forall_app. split; [exact Hw|].
      constructor; [exact Ha|constructor]. }
    destruct (IH (addNew st a) (addNew_distinct st a Hd) Hw' Hf) as (H1 & H2 & added & H3).
    repeat split; [apply H1..|exact H2|].
    rewrite H3.
    destruct (addNew_cases st a) as [->|[-> _]]; [now exists added|].
    cbn [fst]. exists ([a] ++ added). now rewrite app_assoc.
Qed.

Lemma scrapePage_wellFormed web n page found :
  scrapePage now web n page = Return found -> Forall wellFormed found.
Proof.
  unfold scrapePage, scrapeWithCheerio, axiosGet.
  destruct (web n page) as [doc|e]; cbn [bind tryCatch]; intros [= <-]; [|constructor].
  apply extractArticles_wellFormed.
Qed.

End CrawlResult.

Section CrawlInvariants.
Context {U : URLApi}.
Variable now : string.

Lemma iteration_articles web opts st :
  exists found,
    scrapePage now web (length (requests st)) (currentPageUrl st) = Return found
    /\ (allArticles (fst (iteration now web opts st)),
        seenUrls (fst (iteration now web opts st)))
       = fold_left addNew found (allArticles st, seenUrls st).
Proof.
  unfold iteration.
  destruct (scrapePage_returns now web (length (requests st)) (currentPageUrl st))
    as (found & Hfound & _).
  exists found. split; [exact Hfound|]. rewrite Hfound.
  destruct (fold_left addNew found _) as [all seen].
  destruct (findNextPage web _ _) as [next|e]; [|reflexivity].
  now destruct (negb (falsy next) && _).
Qed.

Lemma whileLoop_articles web opts fuel st st' :
  whileLoop now fuel web opts st = Some st' ->
  distinctUrls (allArticles st, seenUrls st) ->
  Forall wellFormed (allArticles st) ->
  distinctUrls (allArticles st', seenUrls st')
  /\ Forall wellFormed (allArticles st')
  /\ exists added, allArticles st' = allArticles st ++ added.
Proof.
  revert st. induction fuel as [|fuel IH]; intros st Hrun Hd Hw; [discriminate|].
  cbn [whileLoop] in Hrun.
  destruct (truthy (currentPageUrl st) && Nat.ltb (pageCount st) (maxPages opts)).
  - destruct (iteration_articles web opts st) as (found & Hfound & Hfold).
    pose proof (fold_addNew found (allArticles st, seenUrls st) Hd Hw
                  (scrapePage_wellFormed now _ _ _ _ Hfound)) as Hstep.
    cbv zeta in Hstep. rewrite <- Hfold in Hstep. cbn [fst] in Hstep.
    destruct Hstep as (Hd1 & Hw1 & added1 & Hadd1).
    destruct (iteration now web opts st) as [st1 flow]. cbn [fst] in *.
    destruct flow.
    + destruct (IH st1 Hrun Hd1 Hw1) as (Hd' & Hw' & added & Hadd).
      repeat split; [apply Hd'..|exact Hw'|].
      exists (added1 ++ added). now rewrite Hadd, Hadd1, app_assoc.
    + injection Hrun as <-. repeat split; [apply Hd1..|exact Hw1|now exists added1].
  - injection Hrun as <-. repeat split; [apply Hd..|exact Hw|].
    exists []. now rewrite app_nil_r.
Qed.

(** X7.  The articles accumulated by a crawl have pairwise distinct
    addresses, across pages and within a page, and the set of seen
    addresses is exactly the set of theirs; every one of them is a
    well-formed record. *)
Theorem crawl_articles_distinct
    (web : Web) (url0 : string) (options : CustomOptions) (fuel : nat) (st : CrawlState) :
  crawl now fuel web url0 options = Some st ->
  NoDup (map url (allArticles st))
  /\ (forall u, u ∈ seenUrls st <-> In u (map url (allArticles st)))
  /\ Forall wellFormed (allArticles st).
Proof.
  intros Hrun. unfold crawl in Hrun.
  destruct (whileLoop_articles _ _ _ _ _ Hrun) as ([Hnd Hseen] & Hw & _).
  - split; [constructor|]. intros u. cbn. set_solver.
  - constructor.
  - cbn [fst snd] in *. split; [exact Hnd|]. split; [exact Hseen|exact Hw].
Qed.

Lemma isValidPagination_true current next opts :
  isValidPagination current next opts = true ->
  current <> next
  /\ exists c n, newURL current None = Some c /\ newURL next None = Some n
                 /\ (sameDomainOnly opts = true -> hostname c = hostname n).
Proof.
  unfold isValidPagination.
  destruct (newURL current None) as [c|]; [|discriminate].
  destruct (newURL next None) as [n|]; [|discriminate].
  destruct (sameDomainOnly opts && negb (String.eqb (hostname c) (hostname n))) eqn:Hs;
    [discriminate|].
  destruct (String.eqb current next) eqn:He; [discriminate|].
  intros _. split; [now apply String.eqb_neq|].
  exists c, n. repeat split. intros Hsame. rewrite Hsame in Hs.
  cbn [andb] in Hs. apply negb_false_iff in Hs. now apply String.eqb_eq.
Qed.

Lemma whileLoop_host web opts fuel url0 st st' :
  sameDomainOnly opts = true ->
  whileLoop now fuel web opts st = Some st' ->
  (currentPageUrl st = url0 \/ sameHost url0 (currentPageUrl st)) ->
  (forall page, In page (requests st) -> page = url0 \/ sameHost url0 page) ->
  forall page, In page (requests st') -> page = url0 \/ sameHost url0 page.
Proof.
  intros Hsame. revert st.
  induction fuel as [|fuel IH]; intros st Hrun Hcur Hreq; [discriminate|].
  cbn [whileLoop] in Hrun.
  destruct (truthy (currentPageUrl st) && Nat.ltb (pageCount st) (maxPages opts));
    [|now injection Hrun as <-].
  pose proof (iteration_step now web opts st) as (_ & Hrq & Hnext).
  destruct (iteration now web opts st) as [st1 flow]. cbn [fst snd] in *.
  assert (Hreq1 : forall page, In page (requests st1) -> page = url0 \/ sameHost url0 page).
  { intros page. rewrite Hrq, in_app_iff. cbn [In].
    intros [Hin|[<-|[<-|[]]]]; auto. }
  destruct flow; [|now injection Hrun as <-].
  apply (IH st1 Hrun); [|exact Hreq1].
  destruct (web (S (length (requests st))) (currentPageUrl st)) as [doc|e];
    [|now destruct Hnext].
  destruct Hnext as (next & _ & _ & Hvalid).
  destruct (isValidPagination (currentPageUrl st) next opts) eqn:Hv;
    [|now destruct Hvalid].
  destruct Hvalid as [_ ->].
  apply isValidPagination_true in Hv as (_ & c & n & Hc & Hn & Hhost).
  specialize (Hhost Hsame). right.
  destruct Hcur as [Hcur|(u0 & uc & Hu0 & Huc & Heq)].
  - subst url0. now exists c, n.
  - rewrite Hc in Huc. injection Huc as <-. exists u0, n.
    repeat split; [exact Hu0|exact Hn|congruence].
Qed.

(** X8.  With [sameDomainOnly] set, as it is by default, a crawl never
    leaves the host of its starting address: every page requested is the
    starting address itself or an address that parses to the same host. *)
Theorem crawl_stays_on_host
    (web : Web) (url0 : string) (options : CustomOptions) (fuel : nat) (st : CrawlState)
    (page : string) :
  sameDomainOnly (mergeOptions defaultOptions options) = true ->
  crawl now fuel web url0 options = Some st ->
  In page (requests st) ->
  page = url0 \/ sameHost url0 page.
Proof.
  intros Hsame Hrun. unfold crawl in Hrun.
  apply (whileLoop_host _ _ _ url0 _ _ Hsame Hrun); [now left|intros p []].
Qed.

End CrawlInvariants.

(** ** Pagination discovery *)

Lemma sortByPage_head (l : list (string * Z)) :
  match sortByPage l with
  | [] => l = []
  | x :: _ =>
      exists before after,
        l = before ++ x :: after
        /\ (forall y, In y before -> (snd x < snd y)%Z)
        /\ (forall y, In y after -> (snd x <= snd y)%Z)
  end.
Proof.
  induction l as [|a l IH]; [reflexivity|].
  cbn [sortByPage fold_right]. fold (sortByPage l).
  destruct (sortByPage l) as [|x s].
  - subst l. cbn. exists [], []. repeat split; intros y [].
  - destruct IH as (before & after & -> & Hb & Ha).
    cbn [insertByPage]. destruct (Z.leb (snd a) (snd x)) eqn:E.
    + apply Z.leb_le in E. exists [], (before ++ x :: after).
      repeat split; [intros y []|].
      intros y [Hy|[<-|Hy]]%in_app_iff; [specialize (Hb y Hy)|..|specialize (Ha y Hy)]; lia.
    + apply Z.leb_gt in E. exists (a :: before), after.
      repeat split; [|exact Ha].
      intros y [<-|Hy]; [lia|now apply Hb].
Qed.

Lemma laterPage_above current l p : laterPage current l = Some p -> (current < snd p)%Z.
Proof.
  unfold laterPage. destruct (snd l) as [pg|]; [|discriminate].
  destruct (Z.ltb current pg) eqn:E; [|discriminate].
  intros [= <-]. now apply Z.ltb_lt.
Qed.

Section Discovery.
Context {U : URLApi}.

(** X9.  The numbered-link strategy answers the address of the nearest later
    page: among the numbered links above the current page it takes the
    smallest number, and the first such link of the document when several
    carry it.  It answers nothing exactly when no numbered link lies above
    the current page.  The page numbers are below 2^53, where the numbers
    of the program are exact. *)
Theorem numberedNext_nearest (doc : document) (currentUrl : string) :
  (extractPageNumber currentUrl < 2 ^ 53)%Z ->
  (forall l, In l (laterPages doc currentUrl) -> (snd l < 2 ^ 53)%Z) ->
  match numberedNext doc currentUrl with
  | Some next =>
      exists page before after,
        laterPages doc currentUrl = before ++ (next, page) :: after
        /\ (extractPageNumber currentUrl < page)%Z
        /\ (forall l, In l before -> (page < snd l)%Z)
        /\ (forall l, In l after -> (page <= snd l)%Z)
  | None => laterPages doc currentUrl = []
  end.
Proof.
  intros _ _. unfold numberedNext. fold (laterPages doc currentUrl).
  pose proof (sortByPage_head (laterPages doc currentUrl)) as H.
  destruct (sortByPage (laterPages doc currentUrl)) as [|[next page] s]; [exact H|].
  destruct H as (before & after & Heq & Hb & Ha).
  exists page, before, after. cbn [fst snd] in *. repeat split; try assumption.
  assert (Hin : In (next, page) (laterPages doc currentUrl))
    by (rewrite Heq; apply in_app_iff; right; now left).
  unfold laterPages in Hin.
  apply list_elem_of_In, list_elem_of_omap in Hin as (l & _ & Hl).
  exact (laterPage_above _ _ _ Hl).
Qed.

Lemma matchNum_none_replaceNum pre repl s :
  matchNum pre s = None -> replaceNum pre repl s = s.
Proof.
  induction s as [|c r IH]; cbn [matchNum replaceNum].
  - now destruct (matchNumAt pre "") as [[ds rest]|].
  - destruct (matchNumAt pre (String c r)) as [[ds rest]|]; [discriminate|].
    intros H. now rewrite (IH H).
Qed.

(** X10.  On an address without page marker ([/page/N], [?page=N],
    [&page=N], [/p/N]), when the page offers no next link and no numbered
    link, the candidate is the address without its trailing slash followed
    by [/page/2]. *)
Theorem discoverNext_first_page (doc : document) (currentUrl : string) :
  (forall pattern, In pattern pagePatterns -> matchNum pattern currentUrl = None) ->
  explicitNext nextSelectors doc currentUrl = None ->
  numberedNext doc currentUrl = None ->
  discoverNext doc currentUrl = Some (stripTrailingSlash currentUrl +:+ "/page/2").
Proof.
  intros Hnone H1 H2. unfold discoverNext. rewrite H1, H2. cbn [falsy orEmpty truthy negb].
  assert (Ha : matchNum "/page/" currentUrl = None) by (apply Hnone; cbn; auto).
  assert (Hb : matchNum "?page=" currentUrl = None) by (apply Hnone; cbn; auto).
  assert (Hc : matchNum "&page=" currentUrl = None) by (apply Hnone; cbn; auto).
  assert (Hd : matchNum "/p/" currentUrl = None) by (apply Hnone; cbn; auto 6).
  assert (Hnum : extractPageNumber currentUrl = 1%Z).
  { unfold extractPageNumber, pagePatterns. cbn [firstPageMatch].
    now rewrite Ha, Hb, Hc, Hd. }
  unfold patterns. rewrite Hnum.
  rewrite (matchNum_none_replaceNum _ _ _ Ha), (matchNum_none_replaceNum _ _ _ Hb),
    (matchNum_none_replaceNum _ _ _ Hc), (matchNum_none_replaceNum _ _ _ Hd).
  cbn [firstChanged]. rewrite String.eqb_refl. cbn [negb].
  destruct (String.eqb _ currentUrl) eqn:E; [|reflexivity].
  apply String.eqb_eq in E. now apply appended_page_differs in E.
Qed.

End Discovery.

(** ** Page numbers: reading back what was written *)

Lemma prefix_append pre x : String.prefix pre (pre +:+ x) = true.
Proof.
  induction pre as [|c pre IH]; [now destruct x|].
  simpl. destruct (ascii_dec c c); [exact IH|contradiction].
Qed.

Lemma drop_append pre x : drop (String.length pre) (pre +:+ x) = x.
Proof. induction pre as [|c pre IH]; [now destruct x|exact IH]. Qed.

Lemma prefix_substring pre s :
  String.prefix pre s = true -> substring 0 (String.length pre) s = pre.
Proof.
  revert s. induction pre as [|c pre IH]; intros s; [now destruct s|].
  destruct s as [|d s]; [discriminate|]. cbn.
  destruct (ascii_dec c d) as [<-|]; [|discriminate].
  intros H. now rewrite (IH s H).
Qed.

Lemma substring_shorter k a b :
  substring 0 (S k) a = substring 0 (S k) b -> substring 0 k a = substring 0 k b.
Proof.
  revert a b. induction k as [|k IH]; intros a b H.
  - now destruct a, b.
  - destruct a as [|x a], b as [|y b]; try discriminate; [reflexivity|].
    change (String x (substring 0 (S k) a) = String y (substring 0 (S k) b)) in H.
    injection H as -> H.
    change (String y (substring 0 k a) = String y (substring 0 k b)).
    now rewrite (IH a b H).
Qed.

Lemma takeDigits_allOf t : allOf isDigit (takeDigits t) = true.
Proof.
  induction t as [|c r IH]; [reflexivity|].
  cbn [takeDigits]. destruct (isDigit c) eqn:E; [|reflexivity].
  cbn [allOf]. now rewrite E.
Qed.

Lemma takeDigits_dropDigits t : takeDigits (dropDigits t) = "".
Proof.
  induction t as [|c r IH]; [reflexivity|].
  cbn [dropDigits]. destruct (isDigit c) eqn:E; [exact IH|].
  cbn [takeDigits]. now rewrite E.
Qed.

Lemma takeDigits_append ds rest :
  allOf isDigit ds = true -> takeDigits (ds +:+ rest) = ds +:+ takeDigits rest.
Proof.
  induction ds as [|c ds IH]; [reflexivity|].
  cbn [allOf]. intros [Hc Hds]%andb_prop.
  simpl. rewrite Hc. now rewrite (IH Hds).
Qed.

Lemma dropDigits_append ds rest :
  allOf isDigit ds = true -> dropDigits (ds +:+ rest) = dropDigits rest.
Proof.
  induction ds as [|c ds IH]; [reflexivity|].
  cbn [allOf]. intros [Hc Hds]%andb_prop.
  simpl. rewrite Hc. exact (IH Hds).
Qed.

Lemma dropDigits_dropDigits t : dropDigits (dropDigits t) = dropDigits t.
Proof.
  induction t as [|c r IH]; [reflexivity|].
  cbn [dropDigits]. destruct (isDigit c) eqn:E; [exact IH|].
  cbn [dropDigits]. now rewrite E.
Qed.

Lemma append_empty_r s : s +:+ "" = s.
Proof.
  induction s as [|c s IH]; [reflexivity|].
  change (String c (s +:+ "") = String c s). now rewrite IH.
Qed.

Lemma append_assoc_string a b c : (a +:+ b) +:+ c = a +:+ (b +:+ c).
Proof.
  induction a as [|x a IH]; [reflexivity|].
  change (String x ((a +:+ b) +:+ c) = String x (a +:+ (b +:+ c))). now rewrite IH.
Qed.

(** Whether the pattern matches at the start of [String c s] is decided by
    [c] and the first [length pre] characters of [s]. *)
Lemma matchStatus_agree pre r r' :
  substring 0 (S (String.length pre)) r = substring 0 (S (String.length pre)) r' ->
  String.prefix pre r && truthy (takeDigits (drop (String.length pre) r))
  = String.prefix pre r' && truthy (takeDigits (drop (String.length pre) r')).
Proof.
  revert r r'. induction pre as [|p pre IH]; intros r r' H.
  - destruct r as [|x r], r' as [|y r']; try discriminate; [reflexivity|].
    cbn in H. injection H as ->. cbn. now destruct (isDigit y), r, r'.
  - destruct r as [|x r], r' as [|y r']; try discriminate; [reflexivity|].
    change (String x (substring 0 (S (String.length pre)) r)
            = String y (substring 0 (S (String.length pre)) r')) in H.
    injection H as -> H. cbn. destruct (ascii_dec p y); [|reflexivity].
    exact (IH r r' H).
Qed.

Lemma matchNumAt_none_iff pre s :
  matchNumAt pre s = None
  <-> String.prefix pre s && truthy (takeDigits (drop (String.length pre) s)) = false.
Proof.
  unfold matchNumAt. destruct (String.prefix pre s); [|easy].
  cbn [andb]. now destruct (truthy _).
Qed.

Lemma matchNumAt_none_agree pre c r r' :
  substring 0 (String.length pre) r = substring 0 (String.length pre) r' ->
  matchNumAt pre (String c r) = None -> matchNumAt pre (String c r') = None.
Proof.
  intros H. rewrite !matchNumAt_none_iff. destruct pre as [|p pre].
  - simpl. now destruct (isDigit c).
  - simpl. destruct (ascii_dec p c); [|easy].
    now rewrite (matchStatus_agree pre r r' H).
Qed.

Lemma replaceNum_keeps_start pre ds' s ds :
  matchNum pre s = Some ds ->
  substring 0 (String.length pre) (replaceNum pre (pre +:+ ds') s)
  = substring 0 (String.length pre) s.
Proof.
  revert ds. induction s as [|c r IH]; intros ds; cbn [matchNum replaceNum].
  - destruct (matchNumAt pre "") as [[d rest]|] eqn:E; [|discriminate].
    intros _. unfold matchNumAt in E.
    destruct (String.prefix pre "") eqn:Hp; [|discriminate].
    rewrite (prefix_substring _ _ Hp), append_assoc_string.
    apply prefix_substring, prefix_append.
  - destruct (matchNumAt pre (String c r)) as [[d rest]|] eqn:E.
    + intros _. unfold matchNumAt in E.
      destruct (String.prefix pre (String c r)) eqn:Hp; [|discriminate].
      rewrite (prefix_substring _ _ Hp), append_assoc_string.
      apply prefix_substring, prefix_append.
    + intros H. specialize (IH ds H).
      destruct pre as [|p pre]; [reflexivity|].
      change (String c (substring 0 (String.length pre) (replaceNum (String p pre) (String p pre +:+ ds') r))
              = String c (substring 0 (String.length pre) r)).
      f_equal. apply substring_shorter. exact IH.
Qed.

(** After the number of the first match is replaced, the pattern matches
    first at the same place and reads the new number. *)
Lemma matchNum_replaceNum pre ds' s ds :
  matchNum pre s = Some ds ->
  truthy ds' = true -> allOf isDigit ds' = true ->
  matchNum pre (replaceNum pre (pre +:+ ds') s) = Some ds'.
Proof.
  intros Hm Ht Hd. revert ds Hm.
  assert (Hhit : forall rest t, rest = dropDigits t ->
            matchNum pre ((pre +:+ ds') +:+ rest) = Some ds').
  { intros rest t ->.
    assert (E : matchNumAt pre ((pre +:+ ds') +:+ dropDigits t)
                = Some (ds', dropDigits t)).
    { unfold matchNumAt. rewrite append_assoc_string, prefix_append, drop_append.
      rewrite (takeDigits_append _ _ Hd), takeDigits_dropDigits, append_empty_r, Ht.
      now rewrite (dropDigits_append _ _ Hd), dropDigits_dropDigits. }
    destruct ((pre +:+ ds') +:+ dropDigits t); cbn [matchNum]; now rewrite E. }
  induction s as [|c r IH]; intros ds; cbn [matchNum replaceNum].
  - destruct (matchNumAt pre "") as [[d rest]|] eqn:E; [|discriminate].
    intros _. unfold matchNumAt in E. cbv zeta in E.
    destruct (String.prefix pre ""); [|discriminate].
    destruct (truthy (takeDigits (drop (String.length pre) ""))); [|discriminate].
    injection E as _ <-. eapply Hhit. reflexivity.
  - destruct (matchNumAt pre (String c r)) as [[d rest]|] eqn:E.
    + intros _. unfold matchNumAt in E. cbv zeta in E.
      destruct (String.prefix pre (String c r)); [|discriminate].
      destruct (truthy (takeDigits (drop (String.length pre) (String c r))));
        [|discriminate].
      injection E as _ <-. eapply Hhit. reflexivity.
    + intros H. cbn [matchNum].
      rewrite (matchNumAt_none_agree pre c r _
                 (eq_sym (replaceNum_keeps_start pre ds' r ds H)) E).
      exact (IH ds H).
Qed.

Lemma digitsValue_of_uint_acc d acc :
  digitsValue 10 (Z.pos acc) (NilEmpty.string_of_uint d) = Z.pos (Pos.of_uint_acc d acc).
Proof.
  revert acc. induction d as [|d IH|d IH|d IH|d IH|d IH|d IH|d IH|d IH|d IH|d IH];
    intros acc; [reflexivity|..];
    cbn [NilEmpty.string_of_uint digitsValue Pos.of_uint_acc]; rewrite <- IH;
    f_equal;
    match goal with
    | |- context [hexValue ?c] =>
        let v := eval vm_compute in (hexValue c) in change (hexValue c) with v
    end; lia.
Qed.

Lemma digitsValue_of_uint d :
  digitsValue 10 0 (NilEmpty.string_of_uint d) = Z.of_N (Pos.of_uint d).
Proof.
  induction d as [|d IH|d IH|d IH|d IH|d IH|d IH|d IH|d IH|d IH|d IH];
    [reflexivity|exact IH|..];
    cbn [NilEmpty.string_of_uint digitsValue Pos.of_uint Z.of_N];
    rewrite <- digitsValue_of_uint_acc; reflexivity.
Qed.

Lemma string_of_uint_digits d : allOf isDigit (NilEmpty.string_of_uint d) = true.
Proof.
  induction d as [|d IH|d IH|d IH|d IH|d IH|d IH|d IH|d IH|d IH|d IH];
    [reflexivity|..]; exact IH.
Qed.

Lemma digit_facts c :
  isDigit c = true ->
  isSpace c = false /\ Ascii.eqb c "+" = false /\ Ascii.eqb c "-" = false
  /\ Ascii.eqb c "x" = false /\ Ascii.eqb c "X" = false.
Proof.
  destruct c as [[] [] [] [] [] [] [] []]; intros H; try discriminate H; now repeat split.
Qed.

Lemma takeWhile_allOf p s : allOf p s = true -> takeWhile p s = s.
Proof.
  induction s as [|c r IH]; [reflexivity|].
  cbn [allOf takeWhile]. intros [Hc Hr]%andb_prop. now rewrite Hc, (IH Hr).
Qed.

Lemma prefix_cons a s1 b s2 :
  String.prefix (String a s1) (String b s2)
  = if Ascii.eqb a b then String.prefix s1 s2 else false.
Proof.
  change (String.prefix (String a s1) (String b s2))
    with (match ascii_dec a b with left _ => String.prefix s1 s2 | right _ => false end).
  destruct (ascii_dec a b) as [->|Hne].
  - now rewrite Ascii.eqb_refl.
  - apply Ascii.eqb_neq in Hne. now rewrite Hne.
Qed.

(** [parseInt] on a non-empty run of decimal digits reads its value. *)
Lemma parseInt_digits s :
  truthy s = true -> allOf isDigit s = true ->
  parseInt s = Some (digitsValue 10 0 s).
Proof.
  destruct s as [|c r]; [discriminate|]. intros _ Hall.
  pose proof Hall as Hall'. cbn [allOf] in Hall'.
  apply andb_prop in Hall' as [Hc Hr].
  destruct (digit_facts c Hc) as (Hsp & Hplus & Hminus & _).
  unfold parseInt. cbn [trimStart]. rewrite Hsp.
  assert (Hneg : String.prefix "-" (String c r) = false).
  { rewrite prefix_cons, Ascii.eqb_sym. now rewrite Hminus. }
  assert (Hstrip : stripSign (String c r) = String c r).
  { cbn [stripSign]. now rewrite Hplus, Hminus. }
  assert (Hhex : forall x, Ascii.eqb x "x" = true \/ Ascii.eqb x "X" = true ->
            String.prefix (String "0" (String x "")) (String c r) = false).
  { intros x Hx. rewrite prefix_cons. destruct (Ascii.eqb "0" c); [|reflexivity].
    destruct r as [|b r']; [reflexivity|].
    rewrite prefix_cons. destruct (Ascii.eqb x b) eqn:Exb; [|reflexivity].
    apply Ascii.eqb_eq in Exb. subst b.
    cbn [allOf] in Hr. apply andb_prop in Hr as [Hb _].
    destruct (digit_facts x Hb) as (_ & _ & _ & Hx1 & Hx2).
    destruct Hx; congruence. }
  rewrite Hneg, Hstrip, (Hhex "x"%char), (Hhex "X"%char); [|now right|now left].
  cbn [orb]. now rewrite (takeWhile_allOf _ _ Hall).
Qed.

Lemma digitsValue_nonneg s acc : (0 <= acc)%Z -> (0 <= digitsValue 10 acc s)%Z.
Proof.
  revert acc. induction s as [|c r IH]; intros acc Hacc; [exact Hacc|].
  cbn [digitsValue]. apply IH.
  assert (0 <= hexValue c)%Z; [|lia].
  unfold hexValue. destruct (isDigit c); [lia|]. destruct (Nat.leb 97 _); lia.
Qed.

(** The rendering of a positive number is a non-empty run of digits that
    [parseInt] reads back as the number. *)
Lemma numToString_parseInt z :
  (0 < z)%Z ->
  truthy (numToString z) = true
  /\ allOf isDigit (numToString z) = true
  /\ parseInt (numToString z) = Some z.
Proof.
  destruct z as [|p|p]; try lia. intros _.
  unfold numToString. cbn [Z.to_int NilEmpty.string_of_int].
  pose proof (DecimalPos.Unsigned.of_to p) as Hp.
  pose proof (digitsValue_of_uint (Pos.to_uint p)) as Hv. rewrite Hp in Hv.
  assert (Ht : truthy (NilEmpty.string_of_uint (Pos.to_uint p)) = true).
  { destruct (NilEmpty.string_of_uint (Pos.to_uint p)); [discriminate Hv|reflexivity]. }
  split; [exact Ht|]. split; [apply string_of_uint_digits|].
  rewrite (parseInt_digits _ Ht (string_of_uint_digits _)). now rewrite Hv.
Qed.

Lemma matchNum_digits pre s ds :
  matchNum pre s = Some ds -> truthy ds = true /\ allOf isDigit ds = true.
Proof.
  induction s as [|c r IH]; cbn [matchNum]; unfold matchNumAt; cbv zeta.
  - destruct (String.prefix pre ""); [|discriminate].
    destruct (truthy (takeDigits (drop (String.length pre) ""))) eqn:E; [|discriminate].
    intros [= <-]. split; [exact E|apply takeDigits_allOf].
  - destruct (String.prefix pre (String c r)); [|exact IH].
    destruct (truthy (takeDigits (drop (String.length pre) (String c r)))) eqn:E;
      [|exact IH].
    intros [= <-]. split; [exact E|apply takeDigits_allOf].
Qed.

Lemma extractPageNumber_nonneg url : (0 <= extractPageNumber url)%Z.
Proof.
  unfold extractPageNumber.
  destruct (firstPageMatch pagePatterns url) as [ds|] eqn:E; [|lia].
  assert (H : truthy ds = true /\ allOf isDigit ds = true).
  { revert E. unfold pagePatterns. cbn [firstPageMatch].
    repeat match goal with
    | |- context [matchNum ?p url] =>
        destruct (matchNum p url) eqn:?Hm;
        [intros [= <-]; eapply matchNum_digits; eassumption|]
    end. discriminate. }
  destruct H as [Ht Hd]. rewrite (parseInt_digits _ Ht Hd).
  cbn [default]. apply digitsValue_nonneg. lia.
Qed.

Section Advance.
Context {U : URLApi}.

(** X11.  On an address that contains [/page/N], with N below 2^53 where
    the numbers of the program are exact, when the page offers no next link
    and no numbered link, the candidate is the address with the first
    [/page/N] rewritten to the next page number, and the page number read
    back from the candidate is that of the current address plus one. *)
Theorem discoverNext_advances_by_one (doc : document) (currentUrl ds : string) :
  matchNum "/page/" currentUrl = Some ds ->
  (extractPageNumber currentUrl < 2 ^ 53)%Z ->
  explicitNext nextSelectors doc currentUrl = None ->
  numberedNext doc currentUrl = None ->
  discoverNext doc currentUrl
  = Some (replaceNum "/page/"
            ("/page/" +:+ numToString (extractPageNumber currentUrl + 1)) currentUrl)
  /\ extractPageNumber
       (replaceNum "/page/"
          ("/page/" +:+ numToString (extractPageNumber currentUrl + 1)) currentUrl)
     = (extractPageNumber currentUrl + 1)%Z.
Proof.
  intros Hm _ H1 H2.
  pose proof (extractPageNumber_nonneg currentUrl) as Hv.
  destruct (numToString_parseInt (extractPageNumber currentUrl + 1) ltac:(lia))
    as (Ht & Hd & Hparse).
  set (next := replaceNum "/page/" _ currentUrl).
  assert (Hnext : extractPageNumber next = (extractPageNumber currentUrl + 1)%Z).
  { unfold extractPageNumber at 1, pagePatterns. cbn [firstPageMatch].
    unfold next. rewrite (matchNum_replaceNum "/page/" _ currentUrl ds Hm Ht Hd).
    now rewrite Hparse. }
  split; [|exact Hnext].
  unfold discoverNext. rewrite H1, H2. cbn [falsy orEmpty truthy negb].
  unfold patterns. cbn [firstChanged]. fold next.
  destruct (String.eqb next currentUrl) eqn:E; [|reflexivity].
  apply String.eqb_eq in E. rewrite E in Hnext. lia.
Qed.

End Advance.

(** ** runOnce *)

Section RunOnce.
Context {U : URLApi}.
Variable now : string.

Lemma scrapeNews_returns web n page :
  exists found, scrapeNews now web n page = Return found /\ Forall wellFormed found.
Proof.
  unfold scrapeNews, scrapeWithCheerio, axiosGet.
  destruct (web n page) as [doc|e]; cbn [bind tryCatch]; eexists; split; try reflexivity.
  - apply extractArticles_wellFormed.
  - constructor.
Qed.

Lemma scrapeMultiplePages_returns web page options fuel :
  maxPages (mergeOptions defaultOptions options) < fuel ->
  exists found, scrapeMultiplePages now fuel web page options = Some (Return found)
                /\ Forall wellFormed found.
Proof.
  intros Hfuel. unfold scrapeMultiplePages, crawl.
  destruct (whileLoop_terminates now web (mergeOptions defaultOptions options) fuel
              (initialState page) [] ltac:(cbn [initialState pageCount]; lia)
              eq_refl eq_refl) as (st & pages & Hrun & _).
  rewrite Hrun. exists (allArticles st). split; [reflexivity|].
  destruct (whileLoop_articles now _ _ _ _ _ Hrun) as (_ & Hw & _).
  - split; [constructor|]. intros u. cbn. set_solver.
  - constructor.
  - exact Hw.
Qed.

(** X12.  With fuel above the page limit [runOnce] never throws, and its
    result is decided by the articles that the scrape returns
    ([scrapeMultiplePages] when pagination is asked for with more than one
    page, [scrapeNews] otherwise); the scrape never throws and its records
    are well formed.  With no article the result is a success with count 0
    and nothing is saved.  With articles they are saved: the result is a
    success that holds these records, their count and the file, or, when
    saving threw, a failure that holds the message of the storage. *)
Theorem runOnce_outcome
    (web : Web) (storage : NewsScheduler.Storage) (config : NewsScheduler.Config)
    (fuel : nat) :
  NewsScheduler.maxPages config < fuel ->
  exists found,
    (if NewsScheduler.usePagination config && Nat.ltb 1 (NewsScheduler.maxPages config)
     then scrapeMultiplePages now fuel web (NewsScheduler.url config)
            {| customMaxPages := Some (NewsScheduler.maxPages config);
               customDelayBetweenPages := None;
               customSameDomainOnly := None |}
     else Some (scrapeNews now web 0 (NewsScheduler.url config)))
    = Some (Return found)
    /\ Forall wellFormed found
    /\ NewsScheduler.runOnce now fuel web storage config
       = Some (Return
           match found with
           | [] =>
               {| NewsScheduler.success := true;
                  NewsScheduler.count := Some 0;
                  NewsScheduler.articles := Some [];
                  NewsScheduler.filepath := None;
                  NewsScheduler.error := None |}
           | _ :: _ =>
               match NewsScheduler.save storage config found with
               | Return path =>
                   {| NewsScheduler.success := true;
                      NewsScheduler.count := Some (length found);
                      NewsScheduler.articles := Some found;
                      NewsScheduler.filepath := Some path;
                      NewsScheduler.error := None |}
               | Throw e =>
                   {| NewsScheduler.success := false;
                      NewsScheduler.count := None;
                      NewsScheduler.articles := None;
                      NewsScheduler.filepath := None;
                      NewsScheduler.error := Some e |}
               end
           end).
Proof.
  intros Hfuel.
  assert (Hscraped : exists found,
            (if NewsScheduler.usePagination config && Nat.ltb 1 (NewsScheduler.maxPages config)
             then scrapeMultiplePages now fuel web (NewsScheduler.url config)
                    {| customMaxPages := Some (NewsScheduler.maxPages config);
                       customDelayBetweenPages := None;
                       customSameDomainOnly := None |}
             else Some (scrapeNews now web 0 (NewsScheduler.url config)))
            = Some (Return found) /\ Forall wellFormed found).
  { destruct (_ && _).
    - apply scrapeMultiplePages_returns. exact Hfuel.
    - destruct (scrapeNews_returns web 0 (NewsScheduler.url config)) as (found & -> & Hw).
      now exists found. }
  destruct Hscraped as (found & Hscrape & Hw). exists found.
  split; [exact Hscrape|]. split; [exact Hw|].
  unfold NewsScheduler.runOnce. rewrite Hscrape. cbn [option_map bind tryCatch].
  destruct found as [|a found]; [reflexivity|]. cbn [length Nat.eqb].
  now destruct (NewsScheduler.save storage config (a :: found)).
Qed.

End RunOnce.

(** ** parseInterval *)

Lemma takeDigits_dropDigits_append s : takeDigits s +:+ dropDigits s = s.
Proof.
  induction s as [|c r IH]; [reflexivity|].
  cbn [takeDigits dropDigits]. destruct (isDigit c); [|reflexivity].
  change (String c (takeDigits r +:+ dropDigits r) = String c r). now rewrite IH.
Qed.

Lemma dropDigits_head_not_digit s c r :
  dropDigits s = String c r -> isDigit c = false.
Proof.
  induction s as [|d s IH]; [discriminate|].
  cbn [dropDigits]. destruct (isDigit d) eqn:E; [exact IH|].
  now intros [= <- _].
Qed.

Import SchedulerJobs.

Lemma multipliers_some unit factor :
  multipliers unit = Some factor ->
  (unit = "s" \/ unit = "m" \/ unit = "h" \/ unit = "d")
  /\ (1000 <= factor)%Z /\ (factor mod 1000 = 0)%Z.
Proof.
  unfold multipliers.
  repeat match goal with
  | |- context [String.eqb unit ?u] =>
      let H := fresh "E" in
      destruct (String.eqb unit u) eqn:H;
      [apply String.eqb_eq in H; intros [= <-];
       split; [auto|split; [lia|reflexivity]]|]
  end.
  discriminate.
Qed.

Lemma matchInterval_some text digits unit :
  matchInterval text = Some (digits, unit) ->
  text = digits +:+ default "" unit
  /\ truthy digits = true /\ allOf isDigit digits = true
  /\ unitFactor (default "" unit) = multipliers (default "s" unit)
  /\ is_Some (multipliers (default "s" unit)).
Proof.
  unfold matchInterval.
  destruct (truthy (takeDigits text)) eqn:Ht; [|discriminate].
  pose proof (takeDigits_dropDigits_append text) as Htext.
  destruct (dropDigits text) as [|c [|c' r]] eqn:Hrest; [| |discriminate].
  - intros [= <- <-]. cbn [default id].
    split; [now rewrite <- Htext at 1|]. split; [exact Ht|].
    split; [apply takeDigits_allOf|]. split; [reflexivity|]. now eexists.
  - destruct (multipliers (String c "")) as [factor|] eqn:Hm; [|discriminate].
    intros [= <- <-]. cbn [default id].
    split; [now rewrite <- Htext at 1|]. split; [exact Ht|].
    split; [apply takeDigits_allOf|]. split; [reflexivity|]. rewrite Hm. now eexists.
Qed.

Lemma matchInterval_written digits unit factor :
  truthy digits = true -> allOf isDigit digits = true ->
  unitFactor unit = Some factor ->
  exists captured,
    matchInterval (digits +:+ unit) = Some (digits, captured)
    /\ multipliers (default "s" captured) = Some factor.
Proof.
  intros Ht Hd Hf. unfold matchInterval.
  assert (Hunit : unit = "" \/ (multipliers unit = Some factor
                                /\ exists c, unit = String c "" /\ isDigit c = false)).
  { unfold unitFactor in Hf. destruct (String.eqb unit "") eqn:E.
    - left. now apply String.eqb_eq.
    - right. split; [exact Hf|].
      destruct (multipliers_some _ _ Hf) as ([->|[->|[->| ->]]] & _); eexists; now split. }
  assert (Htake : takeDigits unit = "" /\ dropDigits unit = unit).
  { destruct Hunit as [->|(_ & c & -> & Hc)]; [now split|].
    cbn [takeDigits dropDigits]. now rewrite Hc. }
  destruct Htake as [Htake Hdrop].
  rewrite (takeDigits_append _ _ Hd), Htake, append_empty_r, Ht.
  rewrite (dropDigits_append _ _ Hd), Hdrop.
  destruct Hunit as [->|(Hm & c & -> & _)].
  - exists None. split; [reflexivity|].
    unfold unitFactor in Hf. cbn in Hf. cbn. exact Hf.
  - rewrite Hm. exists (Some (String c "")). now split.
Qed.

(** X13.  [parseInterval] accepts a text exactly when it is a non-empty run
    of decimal digits followed by nothing or by one of the units s, m, h,
    d; every other text throws the format error.  A result below 2^53,
    where the numbers of the program are exact, is the number times 1000,
    60000, 3600000 or 86400000 milliseconds, seconds when no unit is
    written, and so a whole, non-negative number of seconds. *)
Theorem parseInterval_written (text : string) :
  ((exists v, parseInterval (Written text) = Return v)
   <-> exists digits unit factor,
         text = digits +:+ unit
         /\ truthy digits = true /\ allOf isDigit digits = true
         /\ unitFactor unit = Some factor)
  /\ (forall v, (v < 2 ^ 53)%Z ->
        (parseInterval (Written text) = Return v
         <-> exists digits unit factor,
               text = digits +:+ unit
               /\ truthy digits = true /\ allOf isDigit digits = true
               /\ unitFactor unit = Some factor
               /\ v = (digitsValue 10 0 digits * factor)%Z))
  /\ (forall v, (v < 2 ^ 53)%Z -> parseInterval (Written text) = Return v ->
        (0 <= v)%Z /\ (v mod 1000 = 0)%Z)
  /\ (forall e, parseInterval (Written text) = Throw e -> e = intervalError).
Proof.
  assert (Hfwd : forall v, parseInterval (Written text) = Return v ->
            exists digits unit factor,
              text = digits +:+ unit
              /\ truthy digits = true /\ allOf isDigit digits = true
              /\ unitFactor unit = Some factor
              /\ multipliers (if String.eqb unit "" then "s" else unit) = Some factor
              /\ v = (digitsValue 10 0 digits * factor)%Z).
  { intros v. cbn [parseInterval].
    destruct (matchInterval text) as [[digits unit]|] eqn:Hm; [|discriminate].
    destruct (matchInterval_some _ _ _ Hm) as (Htext & Ht & Hd & Hu & [factor Hf]).
    rewrite (parseInt_digits _ Ht Hd), Hf. cbn [default]. intros [= <-].
    exists digits, (default "" unit), factor.
    repeat split; try assumption; [congruence|].
    destruct unit as [unit|]; cbn [default id] in *; [|exact Hf].
    destruct (String.eqb unit "") eqn:E; [|exact Hf].
    apply String.eqb_eq in E. subst unit. discriminate Hf. }
  assert (Hbwd : forall digits unit factor,
            truthy digits = true -> allOf isDigit digits = true ->
            unitFactor unit = Some factor ->
            parseInterval (Written (digits +:+ unit))
            = Return (digitsValue 10 0 digits * factor)%Z).
  { intros digits unit factor Ht Hd Hf.
    destruct (matchInterval_written digits unit factor Ht Hd Hf) as (captured & Hm & Hc).
    cbn [parseInterval]. rewrite Hm, (parseInt_digits _ Ht Hd), Hc. reflexivity. }
  split; [|split; [|split]].
  - split.
    + intros [v H]. destruct (Hfwd v H) as (digits & unit & factor & H1 & H2 & H3 & H4 & _).
      now exists digits, unit, factor.
    + intros (digits & unit & factor & -> & Ht & Hd & Hf).
      eexists. exact (Hbwd digits unit factor Ht Hd Hf).
  - intros v _. split.
    + intros H. destruct (Hfwd v H) as (digits & unit & factor & H1 & H2 & H3 & H4 & _ & H5).
      now exists digits, unit, factor.
    + intros (digits & unit & factor & -> & Ht & Hd & Hf & ->).
      exact (Hbwd digits unit factor Ht Hd Hf).
  - intros v _ H. destruct (Hfwd v H) as (digits & unit & factor & _ & _ & _ & _ & Hm & ->).
    destruct (multipliers_some _ _ Hm) as (_ & Hge & Hmod).
    pose proof (digitsValue_nonneg digits 0 ltac:(lia)).
    split; [nia|]. rewrite Z.mul_mod by lia. rewrite Hmod, Z.mul_0_r. reflexivity.
  - intros e. cbn [parseInterval].
    destruct (matchInterval text) as [[digits unit]|]; [discriminate|]. now intros [= <-].
Qed.

(** ** The job registry *)

Lemma consistent_new : consistent newScheduler.
Proof.
  unfold consistent, newScheduler. cbn [scheduledJobs timers nextTimer].
  split; [|split].
  - intros h. rewrite lookup_empty. split.
    + intros [? ?]. discriminate.
    + intros (id & job & H & _). rewrite lookup_empty in H. discriminate.
  - intros id job H. rewrite lookup_empty in H. discriminate.
  - intros id1 id2 j1 j2 H. rewrite lookup_empty in H. discriminate.
Qed.

Lemma consistent_insert st id job task :
  consistent st -> scheduledJobs st !! id = None ->
  jobId job = id -> intervalId job = nextTimer st ->
  consistent {| scheduledJobs := <[id := job]> (scheduledJobs st);
                timers := <[nextTimer st := task]> (timers st);
                nextTimer := S (nextTimer st);
                started := started st ++ [task] |}.
Proof.
  intros (Ht & Hj & Hinj) Hfresh Hid Hh.
  unfold consistent. cbn [scheduledJobs timers nextTimer].
  split; [|split].
  - intros h. destruct (decide (h = nextTimer st)) as [->|Hne].
    + rewrite lookup_insert_eq. split.
      * intros _. exists id, job. now rewrite lookup_insert_eq.
      * intros _. now eexists.
    + rewrite lookup_insert_ne by congruence. rewrite Ht. split.
      * intros (id' & job' & Hl & Hi). exists id', job'. split; [|exact Hi].
        rewrite lookup_insert_ne; [exact Hl|]. intros ->. rewrite Hfresh in Hl. discriminate.
      * intros (id' & job' & Hl & Hi). destruct (decide (id = id')) as [<-|Hne'].
        -- rewrite lookup_insert_eq in Hl. injection Hl as <-. congruence.
        -- rewrite lookup_insert_ne in Hl by exact Hne'. now exists id', job'.
  - intros id' job' Hl. destruct (decide (id = id')) as [<-|Hne].
    + rewrite lookup_insert_eq in Hl. injection Hl as <-. split; [exact Hid|lia].
    + rewrite lookup_insert_ne in Hl by exact Hne.
      destruct (Hj _ _ Hl). split; [assumption|lia].
  - intros id1 id2 j1 j2 H1 H2 Heq.
    destruct (decide (id = id1)) as [<-|N1], (decide (id = id2)) as [<-|N2];
      try reflexivity.
    + rewrite lookup_insert_eq in H1. rewrite lookup_insert_ne in H2 by exact N2.
      injection H1 as <-. destruct (Hj _ _ H2). lia.
    + rewrite lookup_insert_eq in H2. rewrite lookup_insert_ne in H1 by exact N1.
      injection H2 as <-. destruct (Hj _ _ H1). lia.
    + rewrite lookup_insert_ne in H1 by exact N1.
      rewrite lookup_insert_ne in H2 by exact N2.
      exact (Hinj _ _ _ _ H1 H2 Heq).
Qed.

Lemma consistent_cancel id st : consistent st -> consistent (snd (cancelJob id st)).
Proof.
  intros Hc. unfold cancelJob.
  destruct (scheduledJobs st !! id) as [job|] eqn:E; [|exact Hc].
  destruct Hc as (Ht & Hj & Hinj).
  unfold consistent. cbn [snd scheduledJobs timers nextTimer].
  split; [|split].
  - intros h. destruct (decide (intervalId job = h)) as [<-|Hne].
    + rewrite lookup_delete_eq. split; [intros [? ?]; discriminate|].
      intros (id' & job' & Hl & Hi). apply lookup_delete_Some in Hl as [Hne Hl].
      exfalso. apply Hne. exact (Hinj _ _ _ _ E Hl (eq_sym Hi)).
    + rewrite lookup_delete_ne by exact Hne. rewrite Ht.
      split; intros (id' & job' & Hl & Hi); exists id', job'; (split; [|exact Hi]).
      * apply lookup_delete_Some. split; [|exact Hl]. intros ->. congruence.
      * now apply lookup_delete_Some in Hl as [_ Hl].
  - intros id' job' Hl. apply lookup_delete_Some in Hl as [_ Hl]. now apply Hj.
  - intros id1 id2 j1 j2 H1 H2.
    apply lookup_delete_Some in H1 as [_ H1]. apply lookup_delete_Some in H2 as [_ H2].
    exact (Hinj _ _ _ _ H1 H2).
Qed.

(** [forEach] with [clearInterval]: the interval of every job is cleared,
    and no interval is started. *)
Lemma clearIntervals (running : gmap nat Task) (jobs : gmap string Job) :
  forall h,
    ((exists id job, jobs !! id = Some job /\ intervalId job = h) ->
     map_fold (fun _ job r => delete (intervalId job) r) running jobs !! h = None)
    /\ (forall task,
          map_fold (fun _ job r => delete (intervalId job) r) running jobs !! h
          = Some task -> running !! h = Some task).
Proof.
  apply (map_fold_weak_ind (fun (r : gmap nat Task) (m : gmap string Job) =>
           forall h,
             ((exists id job, m !! id = Some job /\ intervalId job = h) -> r !! h = None)
             /\ (forall task, r !! h = Some task -> running !! h = Some task))).
  - intros h. split; [|auto].
    intros (id & job & H & _). rewrite lookup_empty in H. discriminate.
  - intros i x m r Hnone IH h. split.
    + intros (id & job & Hl & Hi).
      destruct (decide (intervalId x = h)) as [<-|N]; [apply lookup_delete_eq|].
      rewrite lookup_delete_ne by exact N. apply IH.
      destruct (decide (i = id)) as [<-|Nid].
      * rewrite lookup_insert_eq in Hl. injection Hl as <-. contradiction.
      * rewrite lookup_insert_ne in Hl by exact Nid. now exists id, job.
    + intros task Hl. apply lookup_delete_Some in Hl as [_ Hl]. now apply IH.
Qed.

Lemma cancelAllJobs_timers st : consistent st -> timers (cancelAllJobs st) = ∅.
Proof.
  intros (Ht & _). apply map_eq. intros h. rewrite lookup_empty.
  cbn [cancelAllJobs timers].
  destruct (clearIntervals (timers st) (scheduledJobs st) h) as [Hcleared Hkept].
  destruct (map_fold _ _ _ !! h) as [task|] eqn:E; [|reflexivity].
  assert (Hrun : is_Some (timers st !! h)) by (exists task; now apply Hkept).
  apply Ht in Hrun. apply Hcleared in Hrun. congruence.
Qed.

Lemma consistent_cancelAll st : consistent st -> consistent (cancelAllJobs st).
Proof.
  intros Hc. unfold consistent. rewrite (cancelAllJobs_timers st Hc).
  cbn [cancelAllJobs scheduledJobs nextTimer].
  split; [|split].
  - intros h. rewrite lookup_empty. split.
    + intros [? ?]. discriminate.
    + intros (id & job & H & _). rewrite lookup_empty in H. discriminate.
  - intros id job H. rewrite lookup_empty in H. discriminate.
  - intros id1 id2 j1 j2 H. rewrite lookup_empty in H. discriminate.
Qed.

Lemma consistent_fire h st : consistent st -> consistent (fire h st).
Proof. intros Hc. unfold fire. destruct (timers st !! h); exact Hc. Qed.

Lemma no_timer_ahead st : consistent st -> timers st !! nextTimer st = None.
Proof.
  intros (Ht & Hj & _). destruct (timers st !! nextTimer st) as [task|] eqn:E; [|reflexivity].
  destruct (proj1 (Ht (nextTimer st))) as (id & job & Hl & Hi); [exists task; exact E|].
  destruct (Hj _ _ Hl). lia.
Qed.

Section Registry.
Context {U : URLApi}.

Lemma scheduleScraping_cases config nowMs random st :
  (isValidUrl (SchedulerJobs.url config) = false
   /\ scheduleScraping config nowMs random st = (Throw "Invalid URL provided", st))
  \/ (isValidUrl (SchedulerJobs.url config) = true
      /\ exists job,
           scheduleScraping config nowMs random st
           = (Return job,
              {| scheduledJobs := <[makeJobId nowMs random := job]> (scheduledJobs st);
                 timers := <[nextTimer st := taskOf config]> (timers st);
                 nextTimer := S (nextTimer st);
                 started := started st ++ [taskOf config] |})
           /\ jobId job = makeJobId nowMs random
           /\ intervalId job = nextTimer st
           /\ jobUrl job = SchedulerJobs.url config
           /\ jobInterval job = default 3600000%Z (interval config)).
Proof.
  unfold scheduleScraping.
  destruct (isValidUrl (SchedulerJobs.url config)) eqn:Hv.
  - right. split; [reflexivity|].
    assert (Ht : truthy (SchedulerJobs.url config) = true).
    { apply isValidUrl_scheme in Hv. now destruct (SchedulerJobs.url config). }
    rewrite Ht. cbn [negb orb]. eexists. split; [reflexivity|]. now cbn.
  - left. split; [reflexivity|]. now rewrite orb_true_r.
Qed.

Lemma consistent_schedule config nowMs random st :
  consistent st -> scheduledJobs st !! makeJobId nowMs random = None ->
  consistent (snd (scheduleScraping config nowMs random st)).
Proof.
  intros Hc Hfresh.
  destruct (scheduleScraping_cases config nowMs random st)
    as [[_ ->]|(_ & job & -> & Hid & Hh & _)]; [exact Hc|].
  cbn [snd]. now apply consistent_insert.
Qed.

Lemma consistent_after event st :
  consistent st -> freshId event st -> consistent (after event st).
Proof.
  intros Hc Hfresh. destruct event; cbn [after].
  - now apply consistent_schedule.
  - now apply consistent_cancel.
  - now apply consistent_cancelAll.
  - now apply consistent_fire.
Qed.



(** X16.  Cancelling a registered job returns [true], removes the job and
    clears its interval, so that a later tick of that interval starts
    nothing; every other job stays registered with its interval as it was.
    Cancelling the same id again returns [false] and changes nothing. *)
Theorem cancelJob_stops_job (st : Scheduler) (id : string) (job : Job) :
  consistent st ->
  scheduledJobs st !! id = Some job ->
  let st' := snd (cancelJob id st) in
  fst (cancelJob id st) = true
  /\ scheduledJobs st' !! id = None
  /\ fire (intervalId job) st' = st'
  /\ (forall id' job', id' <> id -> scheduledJobs st !! id' = Some job' ->
        scheduledJobs st' !! id' = Some job'
        /\ timers st' !! intervalId job' = timers st !! intervalId job')
  /\ cancelJob id st' = (false, st').
Proof.
  intros (_ & _ & Hinj) Hjob st'.
  assert (Hrun : cancelJob id st
                 = (true, {| scheduledJobs := delete id (scheduledJobs st);
                             timers := delete (intervalId job) (timers st);
                             nextTimer := nextTimer st;
                             started := started st |})).
  { unfold cancelJob. now rewrite Hjob. }
  subst st'. rewrite Hrun. cbn [fst snd scheduledJobs timers].
  split; [reflexivity|].
  split; [apply lookup_delete_eq|].
  split; [unfold fire; cbn [timers]; now rewrite lookup_delete_eq|].
  split.
  - intros id' job' Hne Hl. split.
    + rewrite lookup_delete_ne by congruence. exact Hl.
    + rewrite lookup_delete_ne; [reflexivity|].
      intros Heq. apply Hne. exact (Hinj _ _ _ _ Hl Hjob (eq_sym Heq)).
  - unfold cancelJob. cbn [scheduledJobs]. now rewrite lookup_delete_eq.
Qed.

(** X17.  Scheduling a job under an id that is not registered and
    cancelling it by the id of the returned job gives back the registry
    and the running intervals as they were before; what stays is that the
    task was started once. *)
Theorem schedule_then_cancel
    (config : JobConfig) (nowMs : Z) (random : string)
    (st st1 : Scheduler) (job : Job) :
  consistent st ->
  scheduledJobs st !! makeJobId nowMs random = None ->
  scheduleScraping config nowMs random st = (Return job, st1) ->
  cancelJob (jobId job) st1
  = (true,
     {| scheduledJobs := scheduledJobs st;
        timers := timers st;
        nextTimer := S (nextTimer st);
        started := started st ++ [taskOf config] |}).
Proof.
  intros Hc Hfresh Hrun. pose proof (no_timer_ahead st Hc) as Hahead.
  destruct (scheduleScraping_cases config nowMs random st)
    as [[_ Heq]|(_ & job' & Heq & Hid & Hh & _)]; rewrite Heq in Hrun; [discriminate|].
  injection Hrun as <- <-. unfold cancelJob. cbn [scheduledJobs timers nextTimer started].
  rewrite Hid, lookup_insert_eq, Hh.
  now rewrite (delete_insert_id _ _ _ Hfresh), (delete_insert_id _ _ _ Hahead).
Qed.

(** X18.  In a consistent state [cancelAllJobs] leaves no job registered and
    no interval running: no tick starts a task afterwards.  The tasks
    started before stay started. *)
Theorem cancelAllJobs_stops_everything (st : Scheduler) :
  consistent st ->
  scheduledJobs (cancelAllJobs st) = ∅
  /\ timers (cancelAllJobs st) = ∅
  /\ (forall handle, fire handle (cancelAllJobs st) = cancelAllJobs st)
  /\ started (cancelAllJobs st) = started st.
Proof.
  intros Hc. split; [reflexivity|]. split; [now apply cancelAllJobs_timers|].
  split; [|reflexivity]. intros handle. unfold fire.
  now rewrite (cancelAllJobs_timers st Hc), lookup_empty.
Qed.

End Registry.

(** ** storage.js *)

Import DataStorage.

Lemma newArticles_In existing found a :
  In a (newArticles existing found)
  <-> In a found /\ ~ In (NewsScraper.url a) (map NewsScraper.url existing).
Proof.
  unfold newArticles. rewrite filter_In, negb_true_iff, bool_decide_eq_false.
  now rewrite elem_of_list_to_set, list_elem_of_In.
Qed.


Lemma filter_all {A : Type} (f : A -> bool) (l : list A) :
  (forall a, In a l -> f a = true) -> List.filter f l = l.
Proof.
  induction l as [|a l IH]; [reflexivity|]. intros H. cbn [List.filter].
  rewrite (H a) by now left. f_equal. apply IH. intros b Hb. apply H. now right.
Qed.

Lemma newArticles_nil found : newArticles [] found = found.
Proof.
  unfold newArticles. apply filter_all. intros a _.
  apply negb_true_iff, bool_decide_eq_false. cbn [map list_to_set]. set_solver.
Qed.


Lemma newArticles_NoDup existing found :
  NoDup (map NewsScraper.url existing) -> NoDup (map NewsScraper.url found) ->
  NoDup (map NewsScraper.url (existing ++ newArticles existing found)).
Proof.
  intros Hold Hnew. rewrite map_app. apply NoDup_app. split; [exact Hold|]. split.
  - intros u Hu Hin. apply list_elem_of_In in Hu, Hin.
    apply in_map_iff in Hin as (a & <- & Ha). apply newArticles_In in Ha as [_ Ha].
    contradiction.
  - unfold newArticles. induction found as [|a found IH]; [constructor|].
    cbn [map] in Hnew. apply NoDup_cons in Hnew as [Ha Hnew]. cbn [List.filter].
    destruct (negb _); [|now apply IH]. cbn [map]. apply NoDup_cons. split; [|now apply IH].
    intros Hin. apply Ha. apply list_elem_of_In in Hin. apply list_elem_of_In.
    apply in_map_iff in Hin as (b & Hb & Hin). apply filter_In in Hin as [Hin _].
    rewrite <- Hb. now apply in_map.
Qed.

Lemma files_ensureOutputDir fs :
  files (ensureOutputDir fs) = files fs
  /\ readOnly (ensureOutputDir fs) = readOnly fs
  /\ outputDir ∈ dirs (ensureOutputDir fs).
Proof.
  unfold ensureOutputDir, access.
  destruct (bool_decide (outputDir ∈ dirs fs)) eqn:E.
  - apply bool_decide_eq_true in E. now repeat split.
  - cbn [mkdir files readOnly dirs]. repeat split. set_solver.
Qed.

Lemma failing_ensureOutputDir fs : failing (ensureOutputDir fs) = failing fs.
Proof. unfold ensureOutputDir. now destruct (access fs outputDir). Qed.

(** The three ways in which [fs.writeFile] ends. *)
Lemma writeFile_cases fs path content :
  (path ∈ readOnly fs
   /\ writeFile fs path content = (Throw "EACCES: permission denied", fs))
  \/ (exists partial,
        ~ path ∈ readOnly fs /\ failing fs !! path = Some partial
        /\ writeFile fs path content
           = (Throw "ENOSPC: no space left on device",
              {| files := <[path := NotJson partial]> (files fs); dirs := dirs fs;
                 readOnly := readOnly fs; failing := failing fs |}))
  \/ (writable fs path
      /\ writeFile fs path content
         = (Return tt,
            {| files := <[path := content]> (files fs); dirs := dirs fs;
               readOnly := readOnly fs; failing := failing fs |})).
Proof.
  unfold writeFile, writable. destruct (bool_decide (path ∈ readOnly fs)) eqn:E.
  - apply bool_decide_eq_true in E. now left.
  - apply bool_decide_eq_false in E. right.
    destruct (failing fs !! path) as [partial|]; [left; now exists partial|now right].
Qed.

Lemma writable_ensureOutputDir fs path :
  writable (ensureOutputDir fs) path <-> writable fs path.
Proof.
  unfold writable. rewrite failing_ensureOutputDir.
  unfold ensureOutputDir. now destruct (access fs outputDir).
Qed.

Lemma loadFromJson_file fs path :
  loadFromJson fs path
  = match files fs !! path with
    | Some (NewsFile d) =>
        match fileArticles d with
        | Some items => Return (LoadedArticles items)
        | None => Return (LoadedObject d)
        end
    | Some (ArticleArray items) => Return (LoadedArticles items)
    | Some (NotJson _) | Some (CsvFile _ _) =>
        Throw "Failed to load JSON: Unexpected token in JSON"
    | None => Throw "Failed to load JSON: ENOENT: no such file or directory"
    end.
Proof.
  unfold loadFromJson, readFile. destruct (files fs !! path) as [[| |d|]|]; try reflexivity.
  cbn. now destruct (fileArticles d).
Qed.

Lemma readExisting_file fs path :
  readExisting fs path
  = match files fs !! path with
    | Some (NewsFile d) => NewsFile d
    | Some (ArticleArray items) => ArticleArray items
    | _ => NewsFile {| fileScrapedAt := None; fileLastUpdated := None;
                       fileTotalArticles := None; fileArticles := Some [] |}
    end.
Proof.
  unfold readExisting, readFile. now destruct (files fs !! path) as [[| | |]|].
Qed.

Lemma In_substring n m s c :
  In c (list_ascii_of_string (substring n m s)) -> In c (list_ascii_of_string s).
Proof.
  revert n m. induction s as [|d s IH]; intros n m.
  - now destruct n, m.
  - destruct n as [|n]; cbn [substring].
    + destruct m as [|m]; [intros []|]. cbn [list_ascii_of_string].
      intros [<-|Hc]; [now left|]. right. exact (IH 0 m Hc).
    + intros Hc. right. exact (IH n m Hc).
Qed.

Lemma In_replaceChars p by_ s c :
  In c (list_ascii_of_string (replaceChars p by_ s)) -> c = by_ \/ p c = false.
Proof.
  induction s as [|d s IH]; [intros []|]. cbn [replaceChars list_ascii_of_string].
  intros [<-|Hc]; [|now apply IH]. destruct (p d) eqn:E; [now left|now right].
Qed.

(** X27.  The time stamp of a generated file name has at most 19 characters
    and contains neither a colon nor a full stop, whatever the clock
    gives. *)
Theorem timestamp_safe (now : string) :
  String.length (timestamp now) <= 19
  /\ forall c, In c (list_ascii_of_string (timestamp now)) ->
       c <> ":"%char /\ c <> "."%char.
Proof.
  split; [apply length_substring_le|]. intros c Hc. unfold timestamp in Hc.
  apply In_substring, In_replaceChars in Hc as [->|Hc]; [split; discriminate|].
  apply orb_false_iff in Hc as [H1 H2].
  apply Ascii.eqb_neq in H1, H2. now split.
Qed.

Section Storage.
Variable pathJoin : string -> string -> string.
Variable now : string.


(** The outcomes of [appendToJson]: it throws before it writes and leaves
    every file as it was, or its write fails after the open and the target
    holds the text written so far, or it writes the merged list to its
    target. *)
Lemma appendToJson_cases fs found filename :
  (exists e, appendToJson pathJoin now fs found filename = (Throw e, ensureOutputDir fs)
             /\ (filename = Null -> e = pathTypeError))
  \/ (exists name partial,
        filename <> Null
        /\ name = match filename with Name name => name | _ => defaultAppendName end
        /\ failing fs !! pathJoin outputDir name = Some partial
        /\ appendToJson pathJoin now fs found filename
           = (Throw "ENOSPC: no space left on device",
              {| files := <[pathJoin outputDir name := NotJson partial]> (files fs);
                 dirs := dirs (ensureOutputDir fs);
                 readOnly := readOnly fs;
                 failing := failing fs |}))
  \/ (exists name stored scraped,
        filename <> Null
        /\ name = match filename with Name name => name | _ => defaultAppendName end
        /\ writable fs (pathJoin outputDir name)
        /\ match files fs !! pathJoin outputDir name with
           | Some (NewsFile d) => fileArticles d = Some stored /\ scraped = fileScrapedAt d
           | Some (ArticleArray _) => False
           | _ => stored = [] /\ scraped = None
           end
        /\ appendToJson pathJoin now fs found filename
           = (Return (pathJoin outputDir name),
              {| files := <[pathJoin outputDir name :=
                            NewsFile {| fileScrapedAt := scraped;
                                        fileLastUpdated := Some now;
                                        fileTotalArticles :=
                                          Some (length (stored ++ newArticles stored found));
                                        fileArticles :=
                                          Some (stored ++ newArticles stored found) |}]>
                          (files fs);
                 dirs := dirs (ensureOutputDir fs);
                 readOnly := readOnly fs;
                 failing := failing fs |})).
Proof.
  destruct (files_ensureOutputDir fs) as (Hfiles & Hro & _).
  pose proof (failing_ensureOutputDir fs) as Hfail.
  assert (Hbody : forall name,
    let body :=
      match readExisting (ensureOutputDir fs) (pathJoin outputDir name) with
      | NewsFile existingData =>
          match fileArticles existingData with
          | None => (Throw mapTypeError, ensureOutputDir fs)
          | Some existing =>
              match writeFile (ensureOutputDir fs) (pathJoin outputDir name)
                      (NewsFile {| fileScrapedAt := fileScrapedAt existingData;
                                   fileLastUpdated := Some now;
                                   fileTotalArticles :=
                                     Some (length (existing ++ newArticles existing found));
                                   fileArticles :=
                                     Some (existing ++ newArticles existing found) |}) with
              | (Return _, fs') => (Return (pathJoin outputDir name), fs')
              | (Throw e, fs') => (Throw e, fs')
              end
          end
      | _ => (Throw mapTypeError, ensureOutputDir fs)
      end in
    (exists e, body = (Throw e, ensureOutputDir fs))
    \/ (exists partial,
          failing fs !! pathJoin outputDir name = Some partial
          /\ body = (Throw "ENOSPC: no space left on device",
                     {| files := <[pathJoin outputDir name := NotJson partial]> (files fs);
                        dirs := dirs (ensureOutputDir fs);
                        readOnly := readOnly fs;
                        failing := failing fs |}))
    \/ (exists stored scraped,
          writable fs (pathJoin outputDir name)
          /\ match files fs !! pathJoin outputDir name with
             | Some (NewsFile d) => fileArticles d = Some stored /\ scraped = fileScrapedAt d
             | Some (ArticleArray _) => False
             | _ => stored = [] /\ scraped = None
             end
          /\ body
             = (Return (pathJoin outputDir name),
                {| files := <[pathJoin outputDir name :=
                              NewsFile {| fileScrapedAt := scraped;
                                          fileLastUpdated := Some now;
                                          fileTotalArticles :=
                                            Some (length (stored ++ newArticles stored found));
                                          fileArticles :=
                                            Some (stored ++ newArticles stored found) |}]>
                            (files fs);
                   dirs := dirs (ensureOutputDir fs);
                   readOnly := readOnly fs;
                   failing := failing fs |}))).
  { intros name body. subst body. rewrite readExisting_file, Hfiles.
    assert (Hwrite : forall stored scraped,
      match files fs !! pathJoin outputDir name with
      | Some (NewsFile d) => fileArticles d = Some stored /\ scraped = fileScrapedAt d
      | Some (ArticleArray _) => False
      | _ => stored = [] /\ scraped = None
      end ->
      let body :=
        match writeFile (ensureOutputDir fs) (pathJoin outputDir name)
                (NewsFile {| fileScrapedAt := scraped;
                             fileLastUpdated := Some now;
                             fileTotalArticles :=
                               Some (length (stored ++ newArticles stored found));
                             fileArticles := Some (stored ++ newArticles stored found) |}) with
        | (Return _, fs') => (Return (pathJoin outputDir name), fs')
        | (Throw e, fs') => (Throw e, fs')
        end in
      (exists e, body = (Throw e, ensureOutputDir fs))
      \/ (exists partial,
            failing fs !! pathJoin outputDir name = Some partial
            /\ body = (Throw "ENOSPC: no space left on device",
                       {| files := <[pathJoin outputDir name := NotJson partial]> (files fs);
                          dirs := dirs (ensureOutputDir fs);
                          readOnly := readOnly fs;
                          failing := failing fs |}))
      \/ (exists stored' scraped',
            writable fs (pathJoin outputDir name)
            /\ match files fs !! pathJoin outputDir name with
               | Some (NewsFile d) =>
                   fileArticles d = Some stored' /\ scraped' = fileScrapedAt d
               | Some (ArticleArray _) => False
               | _ => stored' = [] /\ scraped' = None
               end
            /\ body
               = (Return (pathJoin outputDir name),
                  {| files := <[pathJoin outputDir name :=
                                NewsFile {| fileScrapedAt := scraped';
                                            fileLastUpdated := Some now;
                                            fileTotalArticles :=
                                              Some (length (stored' ++ newArticles stored' found));
                                            fileArticles :=
                                              Some (stored' ++ newArticles stored' found) |}]>
                              (files fs);
                     dirs := dirs (ensureOutputDir fs);
                     readOnly := readOnly fs;
                     failing := failing fs |}))).
    { intros stored scraped Hfile body. subst body.
      destruct (writeFile_cases (ensureOutputDir fs) (pathJoin outputDir name)
                  (NewsFile {| fileScrapedAt := scraped;
                               fileLastUpdated := Some now;
                               fileTotalArticles :=
                                 Some (length (stored ++ newArticles stored found));
                               fileArticles := Some (stored ++ newArticles stored found) |}))
        as [[_ ->]|[(partial & _ & Hp & ->)|[Hw ->]]].
      - left. now eexists.
      - right. left. exists partial. rewrite Hfail in Hp. split; [exact Hp|].
        now rewrite Hfiles, Hro, Hfail.
      - right. right. exists stored, scraped. apply (proj1 (writable_ensureOutputDir _ _)) in Hw.
        split; [exact Hw|]. split; [exact Hfile|]. now rewrite Hfiles, Hro, Hfail. }
    destruct (files fs !! pathJoin outputDir name) as [[| |d|]|] eqn:Hfile.
    - apply (Hwrite [] None). now split.
    - apply (Hwrite [] None). now split.
    - destruct (fileArticles d) as [stored|] eqn:Hd; [|left; now eexists].
      apply (Hwrite stored (fileScrapedAt d)). now split.
    - left. now eexists.
    - apply (Hwrite [] None). now split. }
  unfold appendToJson. destruct filename as [| |given].
  - destruct (Hbody defaultAppendName)
      as [(e & ->)|[(partial & Hp & ->)|(stored & scraped & Hw & Hfile & ->)]].
    + left. exists e. split; [reflexivity|discriminate].
    + right. left. exists defaultAppendName, partial.
      split; [discriminate|]. split; [reflexivity|]. now split.
    + right. right. exists defaultAppendName, stored, scraped.
      split; [discriminate|]. split; [reflexivity|]. split; [exact Hw|]. now split.
  - left. eexists. now split.
  - destruct (Hbody given)
      as [(e & ->)|[(partial & Hp & ->)|(stored & scraped & Hw & Hfile & ->)]].
    + left. exists e. split; [reflexivity|discriminate].
    + right. left. exists given, partial.
      split; [discriminate|]. split; [reflexivity|]. now split.
    + right. right. exists given, stored, scraped.
      split; [discriminate|]. split; [reflexivity|]. split; [exact Hw|]. now split.
Qed.

Lemma appendToJson_writes fs found filename name stored scraped :
  filename <> Null ->
  name = match filename with Name name => name | _ => defaultAppendName end ->
  writable fs (pathJoin outputDir name) ->
  match files fs !! pathJoin outputDir name with
  | Some (NewsFile d) => fileArticles d = Some stored /\ scraped = fileScrapedAt d
  | Some (ArticleArray _) => False
  | _ => stored = [] /\ scraped = None
  end ->
  appendToJson pathJoin now fs found filename
  = (Return (pathJoin outputDir name),
     {| files := <[pathJoin outputDir name :=
                   NewsFile {| fileScrapedAt := scraped;
                               fileLastUpdated := Some now;
                               fileTotalArticles :=
                                 Some (length (stored ++ newArticles stored found));
                               fileArticles :=
                                 Some (stored ++ newArticles stored found) |}]>
                 (files fs);
        dirs := dirs (ensureOutputDir fs);
        readOnly := readOnly fs;
        failing := failing fs |}).
Proof.
  intros Hnull Hname [Hro Hfail] Hfile.
  destruct (appendToJson_cases fs found filename)
    as [(e & Heq & _)|[(name' & partial & _ & Hname' & Hp & _)
                      |(name' & stored' & scraped' & _ & Hname' & _ & Hfile' & Heq)]].
  - exfalso. destruct (files_ensureOutputDir fs) as (Hfiles & Hro' & _).
    pose proof (failing_ensureOutputDir fs) as Hfail'.
    unfold appendToJson in Heq.
    assert (Hbody :
      match readExisting (ensureOutputDir fs) (pathJoin outputDir name) with
      | NewsFile existingData =>
          match fileArticles existingData with
          | None => (Throw mapTypeError, ensureOutputDir fs)
          | Some existing =>
              match writeFile (ensureOutputDir fs) (pathJoin outputDir name)
                      (NewsFile {| fileScrapedAt := fileScrapedAt existingData;
                                   fileLastUpdated := Some now;
                                   fileTotalArticles :=
                                     Some (length (existing ++ newArticles existing found));
                                   fileArticles :=
                                     Some (existing ++ newArticles existing found) |}) with
              | (Return _, fs') => (Return (pathJoin outputDir name), fs')
              | (Throw e, fs') => (Throw e, fs')
              end
          end
      | _ => (Throw mapTypeError, ensureOutputDir fs)
      end = (Throw e, ensureOutputDir fs)).
    { destruct filename as [| |given]; [|contradiction|]; subst name; exact Heq. }
    rewrite readExisting_file, Hfiles in Hbody. unfold writeFile in Hbody.
    rewrite Hro', Hfail', (bool_decide_eq_false_2 _ Hro), Hfail in Hbody.
    destruct (files fs !! pathJoin outputDir name) as [[| |d|]|];
      try (destruct Hfile as [Hd _]; try rewrite Hd in Hbody; discriminate Hbody).
    contradiction.
  - subst name name'. congruence.
  - subst name name'. rewrite Heq.
    destruct (files fs !! pathJoin outputDir
                (match filename with Name name => name | _ => defaultAppendName end))
      as [[| |d|]|].
    + destruct Hfile as [-> ->], Hfile' as [-> ->]. reflexivity.
    + destruct Hfile as [-> ->], Hfile' as [-> ->]. reflexivity.
    + destruct Hfile as [Hd ->], Hfile' as [Hd' ->].
      assert (stored' = stored) as -> by congruence. reflexivity.
    + contradiction.
    + destruct Hfile as [-> ->], Hfile' as [-> ->]. reflexivity.
Qed.

(** X21.  Appending to a file that holds an object with an [articles] list
    keeps that list as it is and adds, in their order, the found articles
    whose address is not in it.  The file then holds the merged list, its
    length as [totalArticles], the time as [lastUpdated] and the former
    [scrapedAt].  Every found address is stored afterwards, and when
    neither list repeats an address the merged list repeats none. *)
Theorem appendToJson_merge
    (fs : FS) (found : list Article) (name : string) (d : NewsData)
    (stored : list Article) :
  let path := pathJoin outputDir name in
  let merged := stored ++ newArticles stored found in
  files fs !! path = Some (NewsFile d) ->
  fileArticles d = Some stored ->
  writable fs path ->
  exists fs',
    appendToJson pathJoin now fs found (Name name) = (Return path, fs')
    /\ files fs' !! path
       = Some (NewsFile {| fileScrapedAt := fileScrapedAt d;
                           fileLastUpdated := Some now;
                           fileTotalArticles := Some (length merged);
                           fileArticles := Some merged |})
    /\ loadFromJson fs' path = Return (LoadedArticles merged)
    /\ (forall a, In a found ->
          In (NewsScraper.url a) (map NewsScraper.url merged))
    /\ (forall a, In a merged -> In a stored \/ In a found)
    /\ (NoDup (map NewsScraper.url stored) -> NoDup (map NewsScraper.url found) ->
        NoDup (map NewsScraper.url merged)).
Proof.
  intros path merged Hfile Hd Hw.
  eexists. split.
  - apply (appendToJson_writes fs found (Name name) name stored (fileScrapedAt d));
      [discriminate|reflexivity|exact Hw|].
    fold path. rewrite Hfile. now split.
  - fold path merged. cbn [files]. split; [now rewrite lookup_insert_eq|]. split.
    + rewrite loadFromJson_file. cbn [files]. now rewrite lookup_insert_eq.
    + split; [|split].
      * intros a Ha. unfold merged. rewrite map_app, in_app_iff.
        destruct (in_dec string_dec (NewsScraper.url a) (map NewsScraper.url stored))
          as [Hold|Hnew]; [now left|].
        right. apply in_map. now apply newArticles_In.
      * intros a Ha. unfold merged in Ha. apply in_app_iff in Ha as [Ha|Ha]; [now left|].
        right. now apply newArticles_In in Ha as [Ha _].
      * apply newArticles_NoDup.
Qed.

(** X22.  When the target file is missing or does not parse as JSON, as a
    file written by [saveToCsv], [appendToJson] replaces it without a
    notice by an object that holds the found articles as they are,
    repeated addresses included, and no [scrapedAt]. *)
Theorem appendToJson_fresh
    (fs : FS) (found : list Article) (name e : string) :
  let path := pathJoin outputDir name in
  (let* content := readFile fs path in jsonParse content) = Throw e ->
  writable fs path ->
  exists fs',
    appendToJson pathJoin now fs found (Name name) = (Return path, fs')
    /\ files fs' !! path
       = Some (NewsFile {| fileScrapedAt := None;
                           fileLastUpdated := Some now;
                           fileTotalArticles := Some (length found);
                           fileArticles := Some found |}).
Proof.
  intros path Hread Hw. eexists. split.
  - apply (appendToJson_writes fs found (Name name) name [] None);
      [discriminate|reflexivity|exact Hw|].
    fold path. unfold readFile in Hread.
    destruct (files fs !! path) as [[| |d|]|]; try discriminate Hread; now split.
  - cbn [files]. rewrite lookup_insert_eq, newArticles_nil. reflexivity.
Qed.


End Storage.

Section AppendAgain.
Variable pathJoin : string -> string -> string.



End AppendAgain.

(** ** The scheduled task *)

Section Saving.
Variable pathJoin : string -> string -> string.
Variable now : string.



End Saving.



Section ScheduledTask.
Context {U : URLApi}.
Variable pathJoin : string -> string -> string.
Variable now later : string.




End ScheduledTask.

(** ** Worked examples *)

Import Scenarios.

(** The first record of [mixedPage]. *)
Lemma extractArticles_records_wellFormed_witness :
  In budgetAgain (extractArticles (U:=SimpleURL) clock mixedPage site)
  /\ truthy (title budgetAgain) = true
  /\ normalized (title budgetAgain) = true
  /\ isValidUrl (U:=SimpleURL) (NewsScraper.url budgetAgain) = true
  /\ startsWith (NewsScraper.url budgetAgain) "http://"
     || startsWith (NewsScraper.url budgetAgain) "https://" = true
  /\ normalized (description budgetAgain) = true
  /\ String.length (description budgetAgain) <= 500.
Proof.
  assert (Hin : In budgetAgain (extractArticles (U:=SimpleURL) clock mixedPage site))
    by (vm_compute; left; reflexivity).
  split; [exact Hin|].
  exact (extractArticles_records_wellFormed (U:=SimpleURL) clock mixedPage site
           budgetAgain Hin).
Defined.

(** A container with a heading only. *)
Lemma parseArticle_needs_href_witness :
  parseArticle (U:=SimpleURL) clock [headingOnly] site = None.
Proof.
  apply (parseArticle_needs_href (U:=SimpleURL) clock [headingOnly] site).
  reflexivity.
Defined.

(** The crawl of the two pages that point at each other: the article that
    both show is kept once. *)
Lemma crawl_articles_distinct_witness :
  match crawl (U:=SimpleURL) clock 4 cyclicWeb "https://a.com/list"
          (mkCustom (Some 3) None None) with
  | Some st =>
      NoDup (map NewsScraper.url (allArticles st))
      /\ (forall u, u ∈ seenUrls st <-> In u (map NewsScraper.url (allArticles st)))
      /\ Forall (wellFormed (U:=SimpleURL)) (allArticles st)
  | None => False
  end.
Proof.
  destruct (crawl (U:=SimpleURL) clock 4 cyclicWeb "https://a.com/list"
              (mkCustom (Some 3) None None)) as [st|] eqn:E.
  - exact (crawl_articles_distinct (U:=SimpleURL) clock cyclicWeb "https://a.com/list"
             (mkCustom (Some 3) None None) 4 st E).
  - vm_compute in E. discriminate E.
Defined.

(** The second page of that crawl is on the host of the first. *)
Lemma crawl_stays_on_host_witness :
  "https://a.com/list/page/2" = "https://a.com/list"
  \/ sameHost (U:=SimpleURL) "https://a.com/list" "https://a.com/list/page/2".
Proof.
  eapply (crawl_stays_on_host (U:=SimpleURL) clock cyclicWeb "https://a.com/list"
            (mkCustom (Some 3) None None) 4 _ "https://a.com/list/page/2").
  - reflexivity.
  - vm_compute. reflexivity.
  - vm_compute. tauto.
Defined.

(** On page 1 of [numberedPage] the link to page 2 is taken, though the
    link to page 3 comes first. *)
Lemma numberedNext_nearest_witness :
  numberedNext (U:=SimpleURL) numberedPage "https://a.com/list/page/1"
  = Some "https://a.com/list/page/2"
  /\ match numberedNext (U:=SimpleURL) numberedPage "https://a.com/list/page/1" with
     | Some next =>
         exists page before after,
           laterPages (U:=SimpleURL) numberedPage "https://a.com/list/page/1"
           = before ++ (next, page) :: after
           /\ (extractPageNumber "https://a.com/list/page/1" < page)%Z
           /\ (forall l, In l before -> (page < snd l)%Z)
           /\ (forall l, In l after -> (page <= snd l)%Z)
     | None => laterPages (U:=SimpleURL) numberedPage "https://a.com/list/page/1" = []
     end.
Proof.
  split; [vm_compute; reflexivity|].
  apply (numberedNext_nearest (U:=SimpleURL) numberedPage "https://a.com/list/page/1").
  - vm_compute. reflexivity.
  - intros l Hl. vm_compute in Hl. destruct Hl as [<-|[<-|[]]]; vm_compute; reflexivity.
Defined.

(** A page without links at the root of the site. *)
Lemma discoverNext_first_page_witness :
  discoverNext (U:=SimpleURL) (page [Element "p" [] [Text "Nothing here"]]) site
  = Some "https://a.com/page/2".
Proof.
  apply (discoverNext_first_page (U:=SimpleURL)
           (page [Element "p" [] [Text "Nothing here"]]) site).
  - intros pattern [<-|[<-|[<-|[<-|[]]]]]; reflexivity.
  - reflexivity.
  - reflexivity.
Defined.

(** The same page at [/list/page/2]. *)
Lemma discoverNext_advances_by_one_witness :
  discoverNext (U:=SimpleURL) (page [Element "p" [] [Text "Nothing here"]])
    "https://a.com/list/page/2"
  = Some "https://a.com/list/page/3"
  /\ extractPageNumber "https://a.com/list/page/3" = 3%Z.
Proof.
  apply (discoverNext_advances_by_one (U:=SimpleURL)
           (page [Element "p" [] [Text "Nothing here"]]) "https://a.com/list/page/2" "2").
  - reflexivity.
  - vm_compute. reflexivity.
  - reflexivity.
  - reflexivity.
Defined.

(** A crawl of up to three pages of the two pages that point at each
    other: the article that both show is saved once. *)
Lemma runOnce_outcome_witness :
  NewsScheduler.runOnce (U:=SimpleURL) clock 4 cyclicWeb diskStorage threePages
  = Some (Return {| NewsScheduler.success := true;
                    NewsScheduler.count := Some 1;
                    NewsScheduler.articles := Some [budgetAgain];
                    NewsScheduler.filepath :=
                      Some (NewsScheduler.OneFile "output/news.json");
                    NewsScheduler.error := None |})
  /\ exists found,
       (if NewsScheduler.usePagination threePages
           && Nat.ltb 1 (NewsScheduler.maxPages threePages)
        then scrapeMultiplePages (U:=SimpleURL) clock 4 cyclicWeb
               (NewsScheduler.url threePages)
               {| customMaxPages := Some (NewsScheduler.maxPages threePages);
                  customDelayBetweenPages := None;
                  customSameDomainOnly := None |}
        else Some (scrapeNews (U:=SimpleURL) clock cyclicWeb 0
                     (NewsScheduler.url threePages)))
       = Some (Return found)
       /\ Forall (wellFormed (U:=SimpleURL)) found
       /\ NewsScheduler.runOnce (U:=SimpleURL) clock 4 cyclicWeb diskStorage threePages
          = Some (Return
              match found with
              | [] =>
                  {| NewsScheduler.success := true;
                     NewsScheduler.count := Some 0;
                     NewsScheduler.articles := Some [];
                     NewsScheduler.filepath := None;
                     NewsScheduler.error := None |}
              | _ :: _ =>
                  match NewsScheduler.save diskStorage threePages found with
                  | Return path =>
                      {| NewsScheduler.success := true;
                         NewsScheduler.count := Some (length found);
                         NewsScheduler.articles := Some found;
                         NewsScheduler.filepath := Some path;
                         NewsScheduler.error := None |}
                  | Throw e =>
                      {| NewsScheduler.success := false;
                         NewsScheduler.count := None;
                         NewsScheduler.articles := None;
                         NewsScheduler.filepath := None;
                         NewsScheduler.error := Some e |}
                  end
              end).
Proof.
  split; [vm_compute; reflexivity|].
  apply (runOnce_outcome (U:=SimpleURL) clock cyclicWeb diskStorage threePages 4).
  cbn. lia.
Defined.


(** Two jobs; the first one is cancelled. *)
Lemma cancelJob_stops_job_witness :
  let st := after (U:=SimpleURL) (Schedules hourly 5 "xyz")
              (after (U:=SimpleURL) (Schedules hourly 0 "abc") newScheduler) in
  match scheduledJobs st !! "job-0-abc" with
  | Some job =>
      let st' := snd (cancelJob "job-0-abc" st) in
      fst (cancelJob "job-0-abc" st) = true
      /\ scheduledJobs st' !! "job-0-abc" = None
      /\ fire (intervalId job) st' = st'
      /\ (forall id' job', id' <> "job-0-abc" -> scheduledJobs st !! id' = Some job' ->
            scheduledJobs st' !! id' = Some job'
            /\ timers st' !! intervalId job' = timers st !! intervalId job')
      /\ cancelJob "job-0-abc" st' = (false, st')
  | None => False
  end.
Proof.
  intros st.
  assert (Hc : consistent st).
  { apply (consistent_after (U:=SimpleURL)); [|vm_compute; reflexivity].
    apply (consistent_after (U:=SimpleURL)); [|vm_compute; reflexivity].
    exact consistent_new. }
  destruct (scheduledJobs st !! "job-0-abc") as [job|] eqn:E.
  - exact (cancelJob_stops_job st "job-0-abc" job Hc E).
  - vm_compute in E. discriminate E.
Defined.

(** A job on a new scheduler, scheduled and cancelled. *)
Lemma schedule_then_cancel_witness :
  match scheduleScraping (U:=SimpleURL) hourly 0 "abc" newScheduler with
  | (Return job, st1) =>
      cancelJob (jobId job) st1
      = (true,
         {| scheduledJobs := ∅; timers := ∅; nextTimer := 1;
            started := [taskOf hourly] |})
  | (Throw _, _) => False
  end.
Proof.
  destruct (scheduleScraping (U:=SimpleURL) hourly 0 "abc" newScheduler)
    as [[job|e] st1] eqn:E.
  - exact (schedule_then_cancel (U:=SimpleURL) hourly 0 "abc" newScheduler st1 job
             consistent_new (lookup_empty _) E).
  - vm_compute in E. discriminate E.
Defined.

(** Two jobs, then [cancelAllJobs]. *)
Lemma cancelAllJobs_stops_everything_witness :
  let st := after (U:=SimpleURL) (Schedules hourly 5 "xyz")
              (after (U:=SimpleURL) (Schedules hourly 0 "abc") newScheduler) in
  scheduledJobs (cancelAllJobs st) = ∅
  /\ timers (cancelAllJobs st) = ∅
  /\ (forall handle, fire handle (cancelAllJobs st) = cancelAllJobs st)
  /\ started (cancelAllJobs st) = started st.
Proof.
  intros st. apply (cancelAllJobs_stops_everything st).
  apply (consistent_after (U:=SimpleURL)); [|vm_compute; reflexivity].
  apply (consistent_after (U:=SimpleURL)); [|vm_compute; reflexivity].
  exact consistent_new.
Defined.

(** The budget article is stored; it is found again together with the
    weather article: only the latter is added. *)
Lemma appendToJson_merge_witness :
  exists fs',
    appendToJson join clock archiveDisk [budgetAgain; weather] (Name "news.json")
    = (Return "output/news.json", fs')
    /\ files fs' !! "output/news.json"
       = Some (NewsFile {| fileScrapedAt := Some "2025-12-31T00:00:00.000Z";
                           fileLastUpdated := Some clock;
                           fileTotalArticles := Some 2;
                           fileArticles := Some [budget; weather] |})
    /\ loadFromJson fs' "output/news.json" = Return (LoadedArticles [budget; weather])
    /\ (forall a, In a [budgetAgain; weather] ->
          In (NewsScraper.url a) (map NewsScraper.url [budget; weather]))
    /\ (forall a, In a [budget; weather] -> In a [budget] \/ In a [budgetAgain; weather])
    /\ (NoDup (map NewsScraper.url [budget]) ->
        NoDup (map NewsScraper.url [budgetAgain; weather]) ->
        NoDup (map NewsScraper.url [budget; weather])).
Proof.
  apply (appendToJson_merge join clock archiveDisk [budgetAgain; weather] "news.json"
           archive [budget]).
  - vm_compute. reflexivity.
  - reflexivity.
  - split; [vm_compute; set_solver|reflexivity].
Defined.

(** The first append on an empty disk. *)
Lemma appendToJson_fresh_witness :
  exists fs',
    appendToJson join clock emptyDisk [budget; budgetAgain] (Name "news.json")
    = (Return "output/news.json", fs')
    /\ files fs' !! "output/news.json"
       = Some (NewsFile {| fileScrapedAt := None;
                           fileLastUpdated := Some clock;
                           fileTotalArticles := Some 2;
                           fileArticles := Some [budget; budgetAgain] |}).
Proof.
  apply (appendToJson_fresh join clock emptyDisk [budget; budgetAgain] "news.json"
           "ENOENT: no such file or directory").
  - vm_compute. reflexivity.
  - split; [vm_compute; set_solver|reflexivity].
Defined.




